(** * INJ-epaper-node: broadcast, retry and timing-log pipeline

    A shallow embedding of the Node.js scripts of the repository:

    - the timing experiment (header write, [N] trials, retry loop with
      back-off, one CSV row per trial);
    - [send_set_value.js], the broadcast worker driven over stdin/stdout;
    - the single-shot execute script with its confirmation polling loop;
    - [query.js], the connectivity check.

    JavaScript strings are modelled as Rocq [string]s, read as the UTF-8
    bytes of the text: every character the scripts inspect (comma, double
    quote, line feed, ASCII letters) is a single byte below 128 and no byte
    of a multi-byte sequence is below 128, so byte-wise tests agree with the
    code-unit-wise tests of the source.  JavaScript numbers that reach the
    scripts (trial index, heights, codes, millisecond counts) are integers
    and are modelled as [Z]; the two floating-point formatting steps
    ([toFixed]) are parameters of the model. *)

From Stdlib Require Import ZArith List String Ascii Bool Lia.
From Stdlib Require Import DecimalString DecimalZ DecimalNat.
Import ListNotations.

Local Open Scope string_scope.
Local Open Scope Z_scope.

(** ** Characters the scripts look at *)

Definition dquote : ascii := "034"%char.
Definition comma : ascii := ","%char.
Definition LF : ascii := "010"%char.
Definition CR : ascii := "013"%char.
Definition dash : ascii := "-"%char.

Definition str1 (c : ascii) : string := String c EmptyString.

(** ** A fragment of JavaScript values and operators *)

Module Js.

Inductive value :=
| Undefined
| Null
| Bool (b : bool)
| Num (z : Z)
| Str (s : string)
| Obj (text : string).   (* an object or array; [text] is what [String] gives *)

Definition is_empty (s : string) : bool :=
  match s with EmptyString => true | String _ _ => false end.

(** ToBoolean *)
Definition truthy (v : value) : bool :=
  match v with
  | Undefined | Null => false
  | Bool b => b
  | Num z => negb (z =? 0)
  | Str s => negb (is_empty s)
  | Obj _ => true
  end.

(** [a || b] *)
Definition or_else (a b : value) : value := if truthy a then a else b.

(** [a ?? b] *)
Definition nullish (a b : value) : value :=
  match a with
  | Undefined | Null => b
  | _ => a
  end.

(** Decimal rendering of an integer, as template literals and [String]
    render integral numbers. *)
Definition dec (z : Z) : string := NilZero.string_of_int (Z.to_int z).

(** [String(v)] *)
Definition to_string (v : value) : string :=
  match v with
  | Undefined => "undefined"
  | Null => "null"
  | Bool true => "true"
  | Bool false => "false"
  | Num z => dec z
  | Str s => s
  | Obj text => text
  end.

(** [v === s] for a string [s] *)
Definition strict_eq_str (v : value) (s : string) : bool :=
  match v with
  | Str t => String.eqb t s
  | _ => false
  end.

(** [xs.join(sep)] on an array of strings *)
Fixpoint join (sep : string) (xs : list string) : string :=
  match xs with
  | [] => EmptyString
  | [x] => x
  | x :: rest => x ++ sep ++ join sep rest
  end.

(** [s.replaceAll(c, r)] for a one-character pattern [c] *)
Fixpoint replaceAll (c : ascii) (r : string) (s : string) : string :=
  match s with
  | EmptyString => EmptyString
  | String a rest =>
      if Ascii.eqb a c then r ++ replaceAll c r rest
      else String a (replaceAll c r rest)
  end.

(** [/[cs]/.test(s)]: some character of [s] belongs to the class [cs] *)
Fixpoint class_test (cs : list ascii) (s : string) : bool :=
  match s with
  | EmptyString => false
  | String a rest => existsb (Ascii.eqb a) cs || class_test cs rest
  end.

(** The text after the last occurrence of [c] in [s] (all of [s] when
    [c] does not occur) *)
Fixpoint after_last (c : ascii) (s : string) : string :=
  match s with
  | EmptyString => EmptyString
  | String a rest =>
      if class_test [c] rest then after_last c rest
      else if Ascii.eqb a c then rest
      else String a rest
  end.

(** *** [process.env]

    A variable is a string or absent. *)

(** [!v] *)
Definition env_missing (v : option string) : bool :=
  match v with
  | None => true
  | Some s => is_empty s
  end.

(** [v] used as a string *)
Definition env_text (v : option string) : string :=
  match v with
  | Some s => s
  | None => "undefined"
  end.

(** *** Thrown values

    What a [catch] clause can receive: a primitive, or an object (such as
    an [Error]) with its [message] property and its [String] rendering. *)
Inductive exn :=
| ExnPrim (v : value)
| ExnObj (message : value) (text : string).

(** [e.message] (and [e?.message]): primitives carry no such property *)
Definition exn_message (e : exn) : value :=
  match e with ExnPrim _ => Undefined | ExnObj m _ => m end.

(** [String(e)] *)
Definition exn_text (e : exn) : string :=
  match e with ExnPrim v => to_string v | ExnObj _ t => t end.

(** [new Error(msg)] *)
Definition Error (msg : string) : exn := ExnObj (Str msg) ("Error: " ++ msg).

(** *** Regular expressions: alternatives of literal strings

    Enough of [RegExp] for [/sequence|account sequence|incorrect/i]: a
    list of literal alternatives, the [i], [g] and [y] flags and the
    mutable [lastIndex] that [test] reads and writes for [g] and [y]
    expressions. *)

(** Canonicalisation under the [i] flag (no [u] flag): upper-casing, and a
    character at or above 128 never folds onto one below 128, so only
    ASCII letters are affected at the byte level. *)
Definition upper (c : ascii) : ascii :=
  let n := nat_of_ascii c in
  if ((97 <=? n) && (n <=? 122))%nat then ascii_of_nat (n - 32) else c.

Definition char_eq (ic : bool) (a b : ascii) : bool :=
  if ic then Ascii.eqb (upper a) (upper b) else Ascii.eqb a b.

Fixpoint match_prefix (ic : bool) (p s : string) : bool :=
  match p with
  | EmptyString => true
  | String a p' =>
      match s with
      | EmptyString => false
      | String b s' => char_eq ic a b && match_prefix ic p' s'
      end
  end.

(** Length matched by the first alternative that matches at the start of [s] *)
Fixpoint match_alts (ic : bool) (alts : list string) (s : string) : option nat :=
  match alts with
  | [] => None
  | p :: rest =>
      if match_prefix ic p s then Some (String.length p)
      else match_alts ic rest s
  end.

(** Leftmost match at or after the start of [s], which sits at index
    [pos] of the subject; the result is the end index of the match. *)
Fixpoint search (ic : bool) (alts : list string) (s : string) (pos : nat) : option nat :=
  match match_alts ic alts s with
  | Some l => Some (pos + l)%nat
  | None =>
      match s with
      | EmptyString => None
      | String _ s' => search ic alts s' (S pos)
      end
  end.

Fixpoint skip (n : nat) (s : string) : option string :=
  match n with
  | O => Some s
  | S n' =>
      match s with
      | EmptyString => None
      | String _ s' => skip n' s'
      end
  end.

Record RegExp := {
  alternatives : list string;
  ignoreCase : bool;
  global : bool;
  sticky : bool;
  lastIndex : nat
}.

Definition with_lastIndex (r : RegExp) (i : nat) : RegExp :=
  {| alternatives := alternatives r; ignoreCase := ignoreCase r;
     global := global r; sticky := sticky r; lastIndex := i |}.

(** [r.test(s)]: the result and the regular expression object afterwards *)
Definition test (r : RegExp) (s : string) : bool * RegExp :=
  let stateful := global r || sticky r in
  let start := if stateful then lastIndex r else O in
  match skip start s with
  | None => (false, if stateful then with_lastIndex r 0 else r)
  | Some rest =>
      let m :=
        if sticky r
        then option_map (Nat.add start) (match_alts (ignoreCase r) (alternatives r) rest)
        else search (ignoreCase r) (alternatives r) rest start in
      match m with
      | Some e => (true, if stateful then with_lastIndex r e else r)
      | None => (false, if stateful then with_lastIndex r 0 else r)
      end
  end.

(** *** [String.prototype.trim]

    White space and line terminators of ECMAScript, as UTF-8 byte
    sequences: TAB, LF, VT, FF, CR, SP, U+00A0, U+1680, U+2000..U+200A,
    U+2028, U+2029, U+202F, U+205F, U+3000, U+FEFF. *)
Definition bytes (l : list nat) : string :=
  fold_right (fun n s => String (ascii_of_nat n) s) EmptyString l.

Definition white_space : list (list nat) :=
  [ [9]; [10]; [11]; [12]; [13]; [32]; [194; 160]; [225; 154; 128];
    [226; 128; 128]; [226; 128; 129]; [226; 128; 130]; [226; 128; 131];
    [226; 128; 132]; [226; 128; 133]; [226; 128; 134]; [226; 128; 135];
    [226; 128; 136]; [226; 128; 137]; [226; 128; 138]; [226; 128; 168];
    [226; 128; 169]; [226; 128; 175]; [226; 129; 159]; [227; 128; 128];
    [239; 187; 191] ]%nat.

Fixpoint strip_prefix (p s : string) : option string :=
  match p with
  | EmptyString => Some s
  | String a p' =>
      match s with
      | EmptyString => None
      | String b s' => if Ascii.eqb a b then strip_prefix p' s' else None
      end
  end.

Fixpoint strip_any (ps : list string) (s : string) : option string :=
  match ps with
  | [] => None
  | p :: rest =>
      match strip_prefix p s with
      | Some s' => Some s'
      | None => strip_any rest s
      end
  end.

Fixpoint strip_all (fuel : nat) (ps : list string) (s : string) : string :=
  match fuel with
  | O => s
  | S fuel' =>
      match strip_any ps s with
      | Some s' => strip_all fuel' ps s'
      | None => s
      end
  end.

Fixpoint srev (s : string) : string :=
  match s with
  | EmptyString => EmptyString
  | String c s' => srev s' ++ str1 c
  end.

Definition trimStart (s : string) : string :=
  strip_all (String.length s) (map bytes white_space) s.

Definition trimEnd (s : string) : string :=
  srev (strip_all (String.length s)
          (map (fun l => bytes (rev l)) white_space) (srev s)).

Definition trim (s : string) : string := trimEnd (trimStart s).

(** [s.length]: the number of UTF-16 code units of the text whose UTF-8
    bytes are [s] (one per lead byte, two for a four-byte sequence). *)
Fixpoint utf16_length (s : string) : Z :=
  match s with
  | EmptyString => 0
  | String c s' =>
      let n := nat_of_ascii c in
      (if (n <? 128)%nat then 1
       else if (n <? 192)%nat then 0
       else if (n <? 240)%nat then 1
       else 2) + utf16_length s'
  end.

(** *** Vocabulary for texts *)

(** [p] occurs somewhere in [s], letters compared without regard to case *)
Fixpoint contains_ci (p s : string) : bool :=
  match_prefix true p s
  || match s with
     | EmptyString => false
     | String _ s' => contains_ci p s'
     end.

(** ASCII white space: TAB, LF, VT, FF, CR and SP *)
Definition ascii_space (c : ascii) : bool :=
  let n := nat_of_ascii c in
  ((9 <=? n) && (n <=? 13) || (n =? 32))%nat.

Fixpoint all_space (s : string) : bool :=
  match s with
  | EmptyString => true
  | String c s' => ascii_space c && all_space s'
  end.

(** Some white-space sequence starts with the byte [c] *)
Definition opens_white (c : ascii) : bool :=
  existsb (fun l => match l with
                    | b :: _ => Ascii.eqb (ascii_of_nat b) c
                    | [] => true
                    end) white_space.

(** Some white-space sequence ends with the byte [c] *)
Definition closes_white (c : ascii) : bool :=
  existsb (fun l => match rev l with
                    | b :: _ => Ascii.eqb (ascii_of_nat b) c
                    | [] => true
                    end) white_space.

(** [s] is not empty, and neither its first byte starts nor its last byte
    ends a white-space sequence *)
Definition edges_black (s : string) : bool :=
  match s with
  | String a _ => negb (opens_white a)
  | EmptyString => false
  end
  && match srev s with
     | String z _ => negb (closes_white z)
     | EmptyString => false
     end.

End Js.

(** ** Effects: a monotonic clock, an event trace and exceptions

    A computation starts at a reading of the monotonic clock (in
    nanoseconds, as [process.hrtime.bigint()] reports it), produces the
    events it performed in order, and ends at a later reading with either a
    value or a thrown value.  Only the awaited operations (network calls
    and timers) let time pass. *)

Module Rt.

Section WithEvents.
Context {Ev : Type}.

Definition M (A : Type) : Type := Z -> (Js.exn + A) * list Ev * Z.

Definition ret {A} (a : A) : M A := fun c => (inr a, [], c).

Definition bind {A B} (m : M A) (f : A -> M B) : M B :=
  fun c =>
    match m c with
    | (inl e, evs, c1) => (inl e, evs, c1)
    | (inr a, evs, c1) =>
        match f a c1 with
        | (r, evs2, c2) => (r, (evs ++ evs2)%list, c2)
        end
    end.

Definition throw {A} (e : Js.exn) : M A := fun c => (inl e, [], c).

(** [try { m } catch (e) { h e }] *)
Definition try_catch {A} (m : M A) (h : Js.exn -> M A) : M A :=
  fun c =>
    match m c with
    | (inl e, evs, c1) =>
        match h e c1 with
        | (r, evs2, c2) => (r, (evs ++ evs2)%list, c2)
        end
    | ok => ok
    end.

(** An instantaneous effect *)
Definition emit (e : Ev) : M unit := fun c => (inr tt, [e], c).

(** An awaited effect that takes [d] nanoseconds and settles with [r] *)
Definition await {A} (e : Ev) (d : Z) (r : Js.exn + A) : M A :=
  fun c => (r, [e], c + d).

(** [process.hrtime.bigint()] *)
Definition nowNs : M Z := fun c => (inr c, [], c).

Definition events {A} (x : (Js.exn + A) * list Ev * Z) : list Ev := snd (fst x).
Definition outcome {A} (x : (Js.exn + A) * list Ev * Z) : Js.exn + A := fst (fst x).
Definition clock {A} (x : (Js.exn + A) * list Ev * Z) : Z := snd x.

End WithEvents.

Arguments M : clear implicits.

End Rt.

Notation "x <- m ;; k" := (Rt.bind m (fun x => k))
  (at level 61, m at next level, right associativity).
Notation "m ;;; k" := (Rt.bind m (fun _ => k))
  (at level 61, right associativity).

(** ** CSV escaping (the experiment script's [esc]) *)

Module Csv.

(** [function esc(v)]: [s] is [String(v ?? empty)]; when the character
    class of double quote, comma and line feed matches [s], the result is
    [s] with every double quote replaced by two, between double quotes;
    otherwise it is [s]. *)
Definition esc (v : Js.value) : string :=
  let s := Js.to_string (Js.nullish v (Js.Str EmptyString)) in
  if Js.class_test [dquote; comma; LF] s
  then String dquote (Js.replaceAll dquote (String dquote (str1 dquote)) s ++ str1 dquote)
  else s.

(** The text a field stands for: what [esc] is applied to after the
    coercion to a string, with the empty string for [null] and
    [undefined]. *)
Definition field_text (v : Js.value) : string :=
  Js.to_string (Js.nullish v (Js.Str EmptyString)).

(** States of an RFC-4180 record reader: at the start of a field, inside
    an unquoted field, inside a quoted field, and just after a double
    quote met inside a quoted field. *)
Inductive pstate := FieldStart | InPlain | InQuoted | QuoteSeen.

(** Modelled from the spec: part of the standard parser below.  A line
    feed right after a carriage return belongs to the same line end. *)
Definition drop_lf (s : string) : string :=
  match s with
  | String c rest => if Ascii.eqb c LF then rest else s
  | EmptyString => s
  end.

(** Modelled from the spec: the "standard CSV parser" of the round-trip
    property is not part of the sources.  It is modelled as the usual
    RFC-4180 state machine for one record: comma separator, double-quote
    quoting with doubled inner quotes, and a record that ends, outside
    quotes, at a line feed, at a carriage return, or at a carriage return
    followed by a line feed.  Between quotes every character but the
    double quote is data.  The reader is strict: a quote inside an
    unquoted field, or text after a closing quote, is a parse error.
    [cur] is the text of the field being read, [done] the fields read so
    far; the result is the record and the rest of the input. *)
Fixpoint parse_record (st : pstate) (cur : string) (done : list string)
         (s : string) : option (list string * string) :=
  match s with
  | EmptyString =>
      match st with
      | InQuoted => None
      | _ => Some ((done ++ [cur])%list, EmptyString)
      end
  | String c rest =>
      match st with
      | FieldStart =>
          if Ascii.eqb c dquote then parse_record InQuoted EmptyString done rest
          else if Ascii.eqb c comma then parse_record FieldStart EmptyString (done ++ [EmptyString])%list rest
          else if Ascii.eqb c LF then Some ((done ++ [EmptyString])%list, rest)
          else if Ascii.eqb c CR then Some ((done ++ [EmptyString])%list, drop_lf rest)
          else parse_record InPlain (str1 c) done rest
      | InPlain =>
          if Ascii.eqb c dquote then None
          else if Ascii.eqb c comma then parse_record FieldStart EmptyString (done ++ [cur])%list rest
          else if Ascii.eqb c LF then Some ((done ++ [cur])%list, rest)
          else if Ascii.eqb c CR then Some ((done ++ [cur])%list, drop_lf rest)
          else parse_record InPlain (cur ++ str1 c) done rest
      | InQuoted =>
          if Ascii.eqb c dquote then parse_record QuoteSeen cur done rest
          else parse_record InQuoted (cur ++ str1 c) done rest
      | QuoteSeen =>
          if Ascii.eqb c dquote then parse_record InQuoted (cur ++ str1 dquote) done rest
          else if Ascii.eqb c comma then parse_record FieldStart EmptyString (done ++ [cur])%list rest
          else if Ascii.eqb c LF then Some ((done ++ [cur])%list, rest)
          else if Ascii.eqb c CR then Some ((done ++ [cur])%list, drop_lf rest)
          else None
      end
  end.

Definition read_record (s : string) : option (list string * string) :=
  parse_record FieldStart EmptyString [] s.

(** The character [c] occurs in [s] *)
Fixpoint occurs (c : ascii) (s : string) : Prop :=
  match s with
  | EmptyString => False
  | String a rest => a = c \/ occurs c rest
  end.

(** [s] between double quotes, each inner double quote doubled *)
Fixpoint doubled (s : string) : string :=
  match s with
  | EmptyString => EmptyString
  | String a rest =>
      if Ascii.eqb a dquote then String dquote (String dquote (doubled rest))
      else String a (doubled rest)
  end.

Definition quoted (s : string) : string :=
  String dquote (doubled s ++ str1 dquote).

(** The texts [esc] writes without a carriage return outside quotes: the
    text holds a comma, a double quote or a line feed, so that [esc]
    quotes it, or it holds no carriage return at all. *)
Definition reads_back (t : string) : bool :=
  Js.class_test [dquote; comma; LF] t || negb (Js.class_test [CR] t).

(** Modelled from the spec: the same standard parser applied to a whole
    file, one record after the other, reading at most [fuel] records. *)
Fixpoint read_all (fuel : nat) (s : string) : option (list (list string)) :=
  match s with
  | EmptyString => Some []
  | String _ _ =>
      match fuel with
      | O => None
      | S fuel' =>
          match read_record s with
          | None => None
          | Some (fields, rest) => option_map (cons fields) (read_all fuel' rest)
          end
      end
  end.

End Csv.

(** ** What the chain SDK hands back *)

Module Sdk.

(** The fields of a broadcast response the scripts read.  A field the
    response lacks is [Js.Undefined]. *)
Record response := {
  r_txhash : Js.value;
  r_txHash : Js.value;
  r_code : Js.value;
  r_height : Js.value;
  r_gasWanted : Js.value;
  r_gasUsed : Js.value;
  r_timestamp : Js.value;
  r_text : string            (* how [console.log] shows the response *)
}.

End Sdk.

(** ** The timing experiment

    The script that writes the CSV header, then for [i = 1 .. N] builds a
    value, broadcasts it with up to three attempts, and appends one row.
    How the header write settles is left to the surroundings; once the
    header is written the path is known to be writable, and appends and
    console calls are taken to succeed, each as one step.  [N] is the
    number of iterations of the trial loop. *)

Module Experiment.

Import Sdk.

Inductive event :=
| EvLog (line : string)                                  (* console.log *)
| EvError (text : string)                                (* console.error / uncaught *)
| EvWriteFile (path data : string)                       (* fs.writeFileSync *)
| EvAppendFile (path data : string)                      (* fs.appendFileSync *)
| EvBroadcast (trial attempt : nat) (value memo : string) (* broadcaster.broadcast *)
| EvSleep (ms : Z).                                      (* sleep(ms) *)

(** What the script cannot decide: key derivation, the file system, the
    network, the timers, the wall clock and floating-point formatting. *)
Record env := {
  derive : string -> Js.exn + string;         (* mnemonic to bech32 address *)
  write_file : string -> string -> Js.exn + unit;
                                              (* how [fs.writeFileSync(path, data)] settles *)
  net : nat -> nat -> Js.exn + response;      (* how attempt [a] of trial [i] settles *)
  latency : nat -> nat -> Z;                  (* nanoseconds that attempt takes *)
  sleep_ns : Z -> Z;                          (* nanoseconds [sleep(ms)] takes *)
  wall : Z -> Z;                              (* [Date.now()] at a monotonic instant *)
  toFixed : nat -> Z -> string                (* [(ns / 1e6).toFixed(d)] *)
}.

(** [process.env] and the settings read from it *)
Record config := {
  CONTRACT : option string;
  MNEMONIC : option string;
  N : nat;
  SLEEP_MS : Z;
  OUT : string
}.

Definition header : list string :=
  ["i"; "value"; "broadcast_ms"; "txhash"; "code"; "height";
   "gasWanted"; "gasUsed"; "timestamp"; "error"].

(** The literal [/sequence|account sequence|incorrect/i]; a literal is a
    fresh object with [lastIndex] 0 each time it is evaluated. *)
Definition sequence_pattern (li : nat) : Js.RegExp :=
  {| Js.alternatives := ["sequence"; "account sequence"; "incorrect"];
     Js.ignoreCase := true; Js.global := false; Js.sticky := false;
     Js.lastIndex := li |}.

(** [e] as a value, for [e && ...] *)
Definition exn_value (e : Js.exn) : Js.value :=
  match e with
  | Js.ExnPrim v => v
  | Js.ExnObj _ t => Js.Obj t
  end.

(** [a && b] *)
Definition and_then (a b : Js.value) : Js.value :=
  if Js.truthy a then b else a.

(** [(e && (e.message || String(e))) || "unknown error"] *)
Definition err_message (e : Js.exn) : Js.value :=
  Js.or_else
    (and_then (exn_value e)
       (Js.or_else (Js.exn_message e) (Js.Str (Js.exn_text e))))
    (Js.Str "unknown error").

(** [res?.f] *)
Definition opt_get (res : option response) (f : response -> Js.value) : Js.value :=
  match res with
  | Some r => f r
  | None => Js.Undefined
  end.

(** [row[k]] on the object literal, as an association list *)
Fixpoint row_get (row : list (string * Js.value)) (k : string) : Js.value :=
  match row with
  | [] => Js.Undefined
  | (k', v) :: rest => if String.eqb k' k then v else row_get rest k
  end.

Section Script.
Variable E : env.
Variable cfg : config.
Variable contract : string.   (* CONTRACT, once checked *)
Variable address : string.    (* pk.toAddress().toBech32() *)

Definition M := Rt.M event.

Definition sleep (ms : Z) : M unit :=
  Rt.await (EvSleep ms) (sleep_ns E ms) (inr tt).

Definition broadcast (i attempt : nat) (value memo : string) : M response :=
  Rt.await (EvBroadcast i attempt value memo) (latency E i attempt) (net E i attempt).

(** [Date.now()] *)
Definition date_now : M Z := fun c => (inr (wall E c), [], c).

Definition console_log (line : string) : M unit := Rt.emit (EvLog line).

(** [fs.writeFileSync(path, data, "utf8")]: it replaces the file, or it
    throws (a path that cannot be opened) and leaves the file as it was. *)
Definition writeFileSync (path data : string) : M unit :=
  fun c =>
    match write_file E path data with
    | inl e => (inl e, [], c)
    | inr _ => (inr tt, [EvWriteFile path data], c)
    end.

Definition appendFileSync (path data : string) : M unit := Rt.emit (EvAppendFile path data).

(** [for (let attempt = 1; attempt <= 3; attempt++) { try {...; break} catch (e) {...} }]
    with the loop variables [res] and [errMsg] threaded through. *)
Fixpoint retry_from (i : nat) (value : string) (fuel attempt : nat)
         (res : option response) (errMsg : Js.value)
  : M (option response * Js.value) :=
  match fuel with
  | O => Rt.ret (res, errMsg)
  | S fuel' =>
      if (attempt <=? 3)%nat then
        st <- Rt.try_catch
                (r <- broadcast i attempt value ("pi-exp #" ++ Js.dec (Z.of_nat i)) ;;
                 Rt.ret (true, Some r, Js.Str EmptyString))
                (fun e =>
                   let m := err_message e in
                   (if fst (Js.test (sequence_pattern 0) (Js.to_string m))
                    then sleep (1200 * Z.of_nat attempt)
                    else sleep (400 * Z.of_nat attempt)) ;;;
                   Rt.ret (false, res, m)) ;;
        match st with
        | (true, res', errMsg') => Rt.ret (res', errMsg')
        | (false, res', errMsg') => retry_from i value fuel' (S attempt) res' errMsg'
        end
      else Rt.ret (res, errMsg)
  end.

Definition retry_loop (i : nat) (value : string) : M (option response * Js.value) :=
  retry_from i value 3 1 None (Js.Str EmptyString).

(** [`pi-exp-${Date.now()}-${i}`] *)
Definition make_value (now : Z) (i : nat) : string :=
  "pi-exp-" ++ Js.dec now ++ "-" ++ Js.dec (Z.of_nat i).

Definition make_row (i : nat) (value : string) (broadcastNs : Z)
           (res : option response) (errMsg : Js.value) : list (string * Js.value) :=
  [ ("i", Js.Num (Z.of_nat i));
    ("value", Js.Str value);
    ("broadcast_ms", Js.Str (toFixed E 3 broadcastNs));
    ("txhash", Js.or_else (Js.or_else (opt_get res r_txhash) (opt_get res r_txHash))
                 (Js.Str EmptyString));
    ("code", Js.nullish (opt_get res r_code) (Js.Str EmptyString));
    ("height", Js.nullish (opt_get res r_height) (Js.Str EmptyString));
    ("gasWanted", Js.nullish (opt_get res r_gasWanted) (Js.Str EmptyString));
    ("gasUsed", Js.nullish (opt_get res r_gasUsed) (Js.Str EmptyString));
    ("timestamp", Js.nullish (opt_get res r_timestamp) (Js.Str EmptyString));
    ("error", match res with Some _ => Js.Str EmptyString | None => errMsg end) ].

(** [header.map((k) => esc(row[k])).join(",") + "\n"] *)
Definition make_line (row : list (string * Js.value)) : string :=
  Js.join "," (map (fun k => Csv.esc (row_get row k)) header) ++ str1 LF.

Definition progress (i : nat) : string :=
  "[" ++ Js.dec (Z.of_nat i) ++ "/" ++ Js.dec (Z.of_nat (N cfg)) ++ "]".

(** The line printed after a trial: [`[${i}/${N}] ok ...`] when [res]
    is set, [`[${i}/${N}] ERROR ...`] otherwise. *)
Definition status_line (i : nat) (broadcastNs : Z) (txhash : Js.value)
           (res : option response) (errMsg : Js.value) : string :=
  match res with
  | Some _ =>
      progress i ++ " ok broadcast_ms=" ++ toFixed E 1 broadcastNs
      ++ " txhash=" ++ Js.to_string txhash
  | None =>
      progress i ++ " ERROR broadcast_ms=" ++ toFixed E 1 broadcastNs
      ++ " msg=" ++ Js.to_string errMsg
  end.

(** [const value = `pi-exp-${Date.now()}-${i}`;] *)
Definition payload (i : nat) : M string :=
  now <- date_now ;;
  Rt.ret (make_value now i).

(** The body of [for (let i = 1; i <= N; i++)].  Building the execute
    message from [value] is a pure construction; the message reaches
    the model as the [value] carried by the broadcast. *)
Definition trial (i : nat) : M unit :=
  value <- payload i ;;
  t0 <- Rt.nowNs ;;
  st <- retry_loop i value ;;
  let res := fst st in
  let errMsg := snd st in
  t1 <- Rt.nowNs ;;
  let broadcastNs := t1 - t0 in
  let row := make_row i value broadcastNs res errMsg in
  appendFileSync (OUT cfg) (make_line row) ;;;
  console_log (status_line i broadcastNs (row_get row "txhash") res errMsg) ;;;
  if SLEEP_MS cfg >? 0 then sleep (SLEEP_MS cfg) else Rt.ret tt.

Fixpoint trials_from (fuel i : nat) : M unit :=
  match fuel with
  | O => Rt.ret tt
  | S fuel' =>
      if (i <=? N cfg)%nat then trial i ;;; trials_from fuel' (S i)
      else Rt.ret tt
  end.

(** [main], after the key has been derived *)
Definition main_body : M unit :=
  console_log ("injectiveAddress: " ++ address) ;;;
  console_log ("contract: " ++ contract) ;;;
  console_log ("N=" ++ Js.dec (Z.of_nat (N cfg)) ++ " SLEEP_MS=" ++ Js.dec (SLEEP_MS cfg)
               ++ " OUT=" ++ OUT cfg) ;;;
  writeFileSync (OUT cfg) (Js.join "," header ++ str1 LF) ;;;
  trials_from (N cfg) 1 ;;;
  console_log ("wrote: " ++ OUT cfg).

End Script.

(** [async function main()] *)
Definition main (E : env) (cfg : config) (contract mnemonic : string) : M unit :=
  match derive E mnemonic with
  | inl e => Rt.throw e
  | inr address => main_body E cfg contract address
  end.

(** The whole process: the start-up check on the environment, then
    [main().catch(e => { console.error(e); process.exit(1); })].  The
    result is the trace and the exit status. *)
Definition run (E : env) (cfg : config) (start : Z) : list event * Z :=
  if Js.env_missing (CONTRACT cfg) || Js.env_missing (MNEMONIC cfg)
  then ([EvError "Error: Missing env: CONTRACT, MNEMONIC"], 1)
  else
    match main E cfg (Js.env_text (CONTRACT cfg)) (Js.env_text (MNEMONIC cfg)) start with
    | (inr _, evs, _) => (evs, 0)
    | (inl e, evs, _) => ((evs ++ [EvError (Js.exn_text e)])%list, 1)
    end.

(** The contents of the file at [path] after a sequence of events *)
Fixpoint file_after (path : string) (evs : list event) (content : option string)
  : option string :=
  match evs with
  | [] => content
  | EvWriteFile p d :: rest =>
      file_after path rest (if String.eqb p path then Some d else content)
  | EvAppendFile p d :: rest =>
      file_after path rest
        (if String.eqb p path
         then Some (match content with Some old => old ++ d | None => d end)
         else content)
  | _ :: rest => file_after path rest content
  end.

(** The two kinds of failure the retry loop tells apart, and the delay
    that goes with each. *)
Inductive kind := TransientSequenceError | OtherTransientError.

Definition classify_with (r : Js.RegExp) (errMsg : Js.value) : kind * Js.RegExp :=
  match Js.test r (Js.to_string errMsg) with
  | (true, r') => (TransientSequenceError, r')
  | (false, r') => (OtherTransientError, r')
  end.

Definition classify (errMsg : Js.value) : kind :=
  fst (classify_with (sequence_pattern 0) errMsg).

Definition backoff_ms (k : kind) (attempt : nat) : Z :=
  match k with
  | TransientSequenceError => 1200 * Z.of_nat attempt
  | OtherTransientError => 400 * Z.of_nat attempt
  end.

(** *** The retry loop in closed form

    The attempts a trial makes are 1, 2, 3 in order, up to and including
    the first one that succeeds. *)
Section Attempts.
Variable E : env.

Definition succeeds (i a : nat) : bool :=
  match net E i a with
  | inr _ => true
  | inl _ => false
  end.

Fixpoint attempts_made (i : nat) (attempts : list nat) : list nat :=
  match attempts with
  | [] => []
  | a :: rest => if succeeds i a then [a] else a :: attempts_made i rest
  end.

(** The delay slept after attempt [a] of trial [i]: none after a
    success, the back-off of the failure's kind after a failure. *)
Definition delay_after (i a : nat) : option Z :=
  match net E i a with
  | inr _ => None
  | inl e => Some (backoff_ms (classify (err_message e)) a)
  end.

Definition attempt_events (i : nat) (value : string) (a : nat) : list event :=
  EvBroadcast i a value ("pi-exp #" ++ Js.dec (Z.of_nat i))
    :: match delay_after i a with
       | Some d => [EvSleep d]
       | None => []
       end.

(** Nanoseconds spent on attempt [a]: the call, and the sleep after it *)
Definition attempt_ns (i a : nat) : Z :=
  latency E i a
  + match delay_after i a with
    | Some d => sleep_ns E d
    | None => 0
    end.

(** [res] and [errMsg] once the given attempts have been gone through *)
Fixpoint retry_result (i : nat) (attempts : list nat)
         (res : option response) (errMsg : Js.value) : option response * Js.value :=
  match attempts with
  | [] => (res, errMsg)
  | a :: rest =>
      match net E i a with
      | inr r => (Some r, Js.Str EmptyString)
      | inl e => retry_result i rest res (err_message e)
      end
  end.

Definition total (l : list Z) : Z := fold_right Z.add 0 l.

Definition retry_events (i : nat) (value : string) : list event :=
  flat_map (attempt_events i value) (attempts_made i [1; 2; 3]%nat).

Definition retry_ns (i : nat) : Z :=
  total (map (attempt_ns i) (attempts_made i [1; 2; 3]%nat)).

End Attempts.

(** *** A trial, and a run of trials, in closed form *)
Section Trials.
Variable E : env.
Variable cfg : config.

(** [res] and [errMsg] at the end of trial [i]'s retry loop *)
Definition trial_result (i : nat) : option response * Js.value :=
  retry_result E i [1; 2; 3]%nat None (Js.Str EmptyString).

(** The row of trial [i] when the trial starts at clock reading [c] *)
Definition trial_row (i : nat) (c : Z) : list (string * Js.value) :=
  make_row E i (make_value (wall E c) i) (retry_ns E i)
    (fst (trial_result i)) (snd (trial_result i)).

Definition trial_line (i : nat) (c : Z) : string := make_line (trial_row i c).

Definition pause_events : list event :=
  if SLEEP_MS cfg >? 0 then [EvSleep (SLEEP_MS cfg)] else [].

Definition pause_ns : Z :=
  if SLEEP_MS cfg >? 0 then sleep_ns E (SLEEP_MS cfg) else 0.

Definition trial_events (i : nat) (c : Z) : list event :=
  (retry_events E i (make_value (wall E c) i)
   ++ [ EvAppendFile (OUT cfg) (trial_line i c);
        EvLog (status_line E cfg i (retry_ns E i)
                 (row_get (trial_row i c) "txhash")
                 (fst (trial_result i)) (snd (trial_result i))) ]
   ++ pause_events)%list.

Definition trial_ns (i : nat) : Z := retry_ns E i + pause_ns.

(** Trials [is], one after the other, the first starting at [c] *)
Fixpoint trials_events (c : Z) (indices : list nat) : list event :=
  match indices with
  | [] => []
  | i :: rest => (trial_events i c ++ trials_events (c + trial_ns i) rest)%list
  end.

Fixpoint trials_lines (c : Z) (indices : list nat) : list string :=
  match indices with
  | [] => []
  | i :: rest => trial_line i c :: trials_lines (c + trial_ns i) rest
  end.

Fixpoint trials_ns (indices : list nat) : Z :=
  match indices with
  | [] => 0
  | i :: rest => trial_ns i + trials_ns rest
  end.

End Trials.

Definition header_line : string := Js.join "," header ++ str1 LF.

(** What [main] prints before it touches the output file *)
Definition banner (cfg : config) (contract address : string) : list event :=
  [ EvLog ("injectiveAddress: " ++ address);
    EvLog ("contract: " ++ contract);
    EvLog ("N=" ++ Js.dec (Z.of_nat (N cfg)) ++ " SLEEP_MS=" ++ Js.dec (SLEEP_MS cfg)
           ++ " OUT=" ++ OUT cfg) ].

(** The trace of a run that gets past key derivation *)
Definition run_events (E : env) (cfg : config) (contract address : string) (start : Z)
  : list event :=
  (banner cfg contract address
   ++ EvWriteFile (OUT cfg) header_line
      :: trials_events E cfg start (seq 1 (N cfg))
   ++ [EvLog ("wrote: " ++ OUT cfg)])%list.

(** The run gets as far as the trials: the configuration passes the
    start-up check, the key derives and the header write succeeds *)
Definition ready (E : env) (cfg : config) (address : string) : Prop :=
  Js.env_missing (CONTRACT cfg) = false
  /\ Js.env_missing (MNEMONIC cfg) = false
  /\ derive E (Js.env_text (MNEMONIC cfg)) = inr address
  /\ write_file E (OUT cfg) header_line = inr tt.


(** All the strings of [l], one after the other *)
Fixpoint sconcat (l : list string) : string :=
  match l with
  | [] => EmptyString
  | x :: rest => x ++ sconcat rest
  end.

(** The trial indices of the broadcast events of a trace *)
Fixpoint broadcast_trials (evs : list event) : list nat :=
  match evs with
  | [] => []
  | EvBroadcast i _ _ _ :: rest => i :: broadcast_trials rest
  | _ :: rest => broadcast_trials rest
  end.

(** The attempts a retry loop entered at [attempt] with [fuel]
    iterations left can reach. *)
Definition reach (fuel attempt : nat) : list nat :=
  seq attempt (Nat.min fuel (4 - attempt)).

Definition is_broadcast (e : event) : bool :=
  match e with EvBroadcast _ _ _ _ => true | _ => false end.

(** What was appended to the file at [path], in order *)
Fixpoint appended (path : string) (evs : list event) : list string :=
  match evs with
  | [] => []
  | EvAppendFile p d :: rest =>
      if String.eqb p path then d :: appended path rest else appended path rest
  | _ :: rest => appended path rest
  end.

Definition touches_file (e : event) : bool :=
  match e with
  | EvWriteFile _ _ | EvAppendFile _ _ => true
  | _ => false
  end.

(** No sleep follows the third attempt of a retry loop *)
Definition quiet_after_third (evs : list event) : Prop :=
  forall pre post i value memo,
    evs = (pre ++ EvBroadcast i 3 value memo :: post)%list ->
    forall ms, ~ In (EvSleep ms) post.

(** *** Sample surroundings

    A network on which every broadcast is rejected with ["timeout"], one
    on which the first two attempts of a trial meet a sequence mismatch
    and the third goes through, timers that take exactly the requested
    time, and decimal formatting with exact rounding. *)

Fixpoint frac_digits (d : nat) (x : Z) : string :=
  match d with
  | O => EmptyString
  | S d' => frac_digits d' (x / 10) ++ Js.dec (x mod 10)
  end.

Definition fixed_exact (d : nat) (ns : Z) : string :=
  let scaled := (ns * 10 ^ Z.of_nat d + 500000) / 1000000 in
  match d with
  | O => Js.dec scaled
  | _ => Js.dec (scaled / 10 ^ Z.of_nat d) ++ "." ++ frac_digits d (scaled mod 10 ^ Z.of_nat d)
  end.

Definition sample_response : response :=
  {| r_txhash := Js.Str "ABC123"; r_txHash := Js.Undefined;
     r_code := Js.Num 0; r_height := Js.Num 51234;
     r_gasWanted := Js.Num 200000; r_gasUsed := Js.Num 151234;
     r_timestamp := Js.Str "2024-01-01T00:00:00Z";
     r_text := "{ txhash: 'ABC123' }" |}.

(** No file can be opened at the empty path *)
Definition sample_write_file : string -> string -> Js.exn + unit :=
  fun path _ =>
    if Js.is_empty path
    then inl (Js.Error "ENOENT: no such file or directory, open ''")
    else inr tt.

Definition sample_env (network : nat -> nat -> Js.exn + response) : env :=
  {| derive := fun _ => inr "inj1sample";
     write_file := sample_write_file;
     net := network;
     latency := fun _ _ => 842100000;
     sleep_ns := fun ms => ms * 1000000;
     wall := fun c => 1700000000000 + c / 1000000;
     toFixed := fixed_exact |}.

Definition always_timeout : nat -> nat -> Js.exn + response :=
  fun _ _ => inl (Js.Error "timeout").

Definition third_time_lucky : nat -> nat -> Js.exn + response :=
  fun _ a =>
    if (a <? 3)%nat then inl (Js.Error "account sequence mismatch")
    else inr sample_response.

Definition sample_config (n : nat) : config :=
  {| CONTRACT := Some "inj1contract"; MNEMONIC := Some "word word word";
     N := n; SLEEP_MS := 0; OUT := "timings.csv" |}.

(** *** Rows as a reader of the file sees them *)

(** The texts of the fields of a row, in header order *)
Definition row_texts (row : list (string * Js.value)) : list string :=
  map (fun k => Csv.field_text (row_get row k)) header.

Fixpoint trials_rows (E : env) (cfg : config) (c : Z) (indices : list nat)
  : list (list string) :=
  match indices with
  | [] => []
  | i :: rest =>
      row_texts (trial_row E i c) :: trials_rows E cfg (c + trial_ns E cfg i) rest
  end.

(** The row of a trial whose three attempts were all rejected, the last
    one with [e] *)
Definition failed_row (i : nat) (value broadcast_ms : string) (e : Js.exn)
  : list (string * Js.value) :=
  [ ("i", Js.Num (Z.of_nat i)); ("value", Js.Str value);
    ("broadcast_ms", Js.Str broadcast_ms);
    ("txhash", Js.Str EmptyString); ("code", Js.Str EmptyString);
    ("height", Js.Str EmptyString); ("gasWanted", Js.Str EmptyString);
    ("gasUsed", Js.Str EmptyString); ("timestamp", Js.Str EmptyString);
    ("error", err_message e) ].

(** The row of a trial one of whose attempts resolved with [r] *)
Definition success_row (i : nat) (value broadcast_ms : string) (r : response)
  : list (string * Js.value) :=
  [ ("i", Js.Num (Z.of_nat i)); ("value", Js.Str value);
    ("broadcast_ms", Js.Str broadcast_ms);
    ("txhash", Js.or_else (Js.or_else (r_txhash r) (r_txHash r)) (Js.Str EmptyString));
    ("code", Js.nullish (r_code r) (Js.Str EmptyString));
    ("height", Js.nullish (r_height r) (Js.Str EmptyString));
    ("gasWanted", Js.nullish (r_gasWanted r) (Js.Str EmptyString));
    ("gasUsed", Js.nullish (r_gasUsed r) (Js.Str EmptyString));
    ("timestamp", Js.nullish (r_timestamp r) (Js.Str EmptyString));
    ("error", Js.Str EmptyString) ].

End Experiment.

(** ** The broadcast worker ([send_set_value.js])

    Reads one JSON document from stdin, signs and broadcasts one
    [set_value] execute message, and writes one JSON document to stdout. *)

Module Worker.

Import Sdk.

(** A JSON object as its list of properties *)
Definition document := list (string * Js.value).

Fixpoint get (d : document) (k : string) : Js.value :=
  match d with
  | [] => Js.Undefined
  | (k', v) :: rest => if String.eqb k' k then v else get rest k
  end.

Inductive event :=
| EvStdout (doc : document)                    (* process.stdout.write(JSON.stringify(doc)) *)
| EvStderr (text : string)                     (* the report of an uncaught error *)
| EvBroadcast (value : string) (memo : Js.value).

(** What [JSON.parse] returned, as far as the script looks into it:
    [null], or any other value with its [value] and [memo] properties
    ([Js.Undefined] when it has none). *)
Inductive json :=
| JsonNull
| JsonDoc (value memo : Js.value).

Record env := {
  json_parse : string -> Js.exn + json;
  derive : string -> Js.exn + string;
  net : string -> Js.value -> Js.exn + response;
  latency : string -> Js.value -> Z;
  fixed3 : Z -> Js.value              (* [Number((ns / 1e6).toFixed(3))] *)
}.

Record config := {
  CONTRACT : option string;
  MNEMONIC : option string
}.

Section Script.
Variable E : env.
Variable contract mnemonic : string.
Variable stdin : string.

Definition M := Rt.M event.

(** [async function readStdin()] *)
Definition readStdin : M json :=
  let s := Js.trim stdin in
  if Js.is_empty s then Rt.throw (Js.Error "stdin is empty (expected JSON)")
  else
    match json_parse E s with
    | inl e => Rt.throw e
    | inr j => Rt.ret j
    end.

Definition broadcast (value : string) (memo : Js.value) : M response :=
  Rt.await (EvBroadcast value memo) (latency E value memo) (net E value memo).

Definition stdout_write (d : document) : M unit := Rt.emit (EvStdout d).

(** [txhash] is [res.txhash || res.txHash || empty], and
    [const out = { ok: true, txhash, broadcast_ms: ..., ... };] *)
Definition success_document (address value : string) (res : response) (elapsed : Z)
  : document :=
  let txhash := Js.or_else (Js.or_else (r_txhash res) (r_txHash res))
                  (Js.Str EmptyString) in
  [ ("ok", Js.Bool true);
    ("txhash", txhash);
    ("broadcast_ms", fixed3 E elapsed);
    ("height", Js.nullish (r_height res) Js.Null);
    ("code", Js.nullish (r_code res) Js.Null);
    ("gasWanted", Js.nullish (r_gasWanted res) Js.Null);
    ("gasUsed", Js.nullish (r_gasUsed res) Js.Null);
    ("timestamp", Js.nullish (r_timestamp res) Js.Null);
    ("sender", Js.Str address);
    ("contract", Js.Str contract);
    ("value_len", Js.Num (Js.utf16_length value)) ].

(** [const err = { ok: false, error: e?.message ?? String(e) };] *)
Definition failure_document (e : Js.exn) : document :=
  [ ("ok", Js.Bool false);
    ("error", Js.nullish (Js.exn_message e) (Js.Str (Js.exn_text e))) ].

(** [async function main()] *)
Definition main : M unit :=
  input <- readStdin ;;
  fields <- match input with
            | JsonNull =>
                Rt.throw (Js.ExnObj
                            (Js.Str "Cannot read properties of null (reading 'value')")
                            "TypeError: Cannot read properties of null (reading 'value')")
            | JsonDoc v m => Rt.ret (v, m)
            end ;;
  let memo := Js.nullish (snd fields) (Js.Str "set_value from python") in
  match fst fields with
  | Js.Str value =>
      if Js.utf16_length value =? 0
      then Rt.throw (Js.Error "input.value must be non-empty string")
      else
        address <- match derive E mnemonic with
                   | inl e => Rt.throw e
                   | inr a => Rt.ret a
                   end ;;
        t0 <- Rt.nowNs ;;
        res <- broadcast value memo ;;
        t1 <- Rt.nowNs ;;
        stdout_write (success_document address value res (t1 - t0))
  | _ => Rt.throw (Js.Error "input.value must be non-empty string")
  end.

(** [main().catch((e) => { ...write {ok:false, error}...; process.exit(1); })] *)
Definition main_caught (start : Z) : list event * Z :=
  match main start with
  | (inr _, evs, _) => (evs, 0)
  | (inl e, evs, _) => ((evs ++ [EvStdout (failure_document e)])%list, 1)
  end.

End Script.

(** The whole process: the trace and the exit status *)
Definition run (E : env) (cfg : config) (stdin : string) (start : Z) : list event * Z :=
  if Js.env_missing (CONTRACT cfg) || Js.env_missing (MNEMONIC cfg)
  then ([EvStderr "Error: Missing env: CONTRACT, MNEMONIC"], 1)
  else main_caught E (Js.env_text (CONTRACT cfg)) (Js.env_text (MNEMONIC cfg)) stdin start.

(** The documents written to the output channel, in order *)
Fixpoint stdout_of (evs : list event) : list document :=
  match evs with
  | [] => []
  | EvStdout d :: rest => d :: stdout_of rest
  | _ :: rest => stdout_of rest
  end.

(** The input is empty or does not parse *)
Definition unusable (E : env) (stdin : string) : Prop :=
  Js.trim stdin = EmptyString
  \/ exists e, json_parse E (Js.trim stdin) = inl e.

(** What was broadcast, in order *)
Fixpoint broadcasts (evs : list event) : list (string * Js.value) :=
  match evs with
  | [] => []
  | EvBroadcast v m :: rest => (v, m) :: broadcasts rest
  | _ :: rest => broadcasts rest
  end.

(** [typeof value !== "string" || value.length === 0] *)
Definition invalid_value (v : Js.value) : bool :=
  match v with
  | Js.Str s => Js.utf16_length s =? 0
  | _ => true
  end.

(** The input reads as a document whose [value] is [v] and whose [memo]
    is [m] *)
Definition reads_as (E : env) (stdin : string) (v m : Js.value) : Prop :=
  Js.trim stdin <> EmptyString
  /\ json_parse E (Js.trim stdin) = inr (JsonDoc v m).

Definition configured (cfg : config) : Prop :=
  Js.env_missing (CONTRACT cfg) || Js.env_missing (MNEMONIC cfg) = false.

(** *** Sample surroundings *)

Definition sample_request : string :=
  "{" ++ str1 dquote ++ "value" ++ str1 dquote ++ ":"
      ++ str1 dquote ++ "pi-exp-1700000000-1" ++ str1 dquote ++ "}".

Definition syntax_error : Js.exn :=
  Js.ExnObj (Js.Str "Unexpected end of JSON input")
    "SyntaxError: Unexpected end of JSON input".

(** A response that carries neither [txhash] nor [txHash] *)
Definition hashless_response : response :=
  {| r_txhash := Js.Undefined; r_txHash := Js.Undefined;
     r_code := Js.Num 0; r_height := Js.Num 51234;
     r_gasWanted := Js.Undefined; r_gasUsed := Js.Undefined;
     r_timestamp := Js.Undefined; r_text := "{ code: 0, height: 51234 }" |}.

Definition sample_env (res : response) : env :=
  {| json_parse := fun s =>
       if String.eqb s sample_request
       then inr (JsonDoc (Js.Str "pi-exp-1700000000-1") Js.Undefined)
       else inl syntax_error;
     derive := fun _ => inr "inj1sample";
     net := fun _ _ => inr res;
     latency := fun _ _ => 842100000;
     fixed3 := fun ns => Js.Num (ns / 1000000) |}.

Definition sample_config : config :=
  {| CONTRACT := Some "inj1contract"; MNEMONIC := Some "word word word" |}.

(** Surroundings in which the input parses as [parsed], the key derives as
    [key] and the broadcast settles as [outcome] *)
Definition env_of (parsed : Js.exn + json) (key : Js.exn + string)
           (outcome : Js.exn + response) : env :=
  {| json_parse := fun _ => parsed;
     derive := fun _ => key;
     net := fun _ _ => outcome;
     latency := fun _ _ => 842100000;
     fixed3 := fun ns => Js.Num (ns / 1000000) |}.

End Worker.

(** ** The single-shot execute script and its confirmation loop

    Broadcasts one [set_value] and then polls [get_value] until the new
    value is read back or 45 polls have been made. *)

Module Execute.

Import Sdk.

(** What a [get_value] query answered: [observed] is [v?.value], [shown]
    is how [console.log] prints [v]. *)
Record reply := {
  observed : Js.value;
  shown : string
}.

Inductive event :=
| EvLog (line : string)
| EvError (text : string)
| EvBroadcast (value memo : string)     (* execute: changes contract state *)
| EvQuery                               (* queryContractSmart(CONTRACT, { get_value: {} }) *)
| EvSleep (ms : Z).

Record env := {
  derive : string -> Js.exn + string;
  net : Js.exn + response;              (* how the one broadcast settles *)
  latency : Z;
  query : nat -> Js.exn + reply;        (* how the query of iteration [i] settles *)
  query_ns : nat -> Z;
  sleep_ns : Z -> Z;
  wall : Z -> Z
}.

Record config := {
  RPC : option string;
  CONTRACT : option string;
  MNEMONIC : option string
}.

Inductive verdict := Confirmed | NotConfirmed.

Section Script.
Variable E : env.
Variable contract mnemonic : string.
Variable newValue : string.    (* [`hello-from-pi-${Date.now()}`], fixed at start-up *)

Definition M := Rt.M event.

Definition console_log (line : string) : M unit := Rt.emit (EvLog line).

(** [async function queryValue()] *)
Definition queryValue (i : nat) : M reply :=
  Rt.await EvQuery (query_ns E i) (query E i).

Definition sleep (ms : Z) : M unit :=
  Rt.await (EvSleep ms) (sleep_ns E ms) (inr tt).

(** [for (let i = 0; i < 45; i++) { ... }]; [Confirmed] stands for the
    [return] inside the loop. *)
Fixpoint poll_from (fuel i : nat) : M verdict :=
  match fuel with
  | O => Rt.ret NotConfirmed
  | S fuel' =>
      if (i <? 45)%nat then
        v <- queryValue i ;;
        if Js.strict_eq_str (observed v) newValue
        then console_log ("CONFIRMED: " ++ shown v) ;;; Rt.ret Confirmed
        else
          console_log ("waiting... current: " ++ shown v) ;;;
          sleep 2000 ;;;
          poll_from fuel' (S i)
      else Rt.ret NotConfirmed
  end.

Definition poll : M verdict := poll_from 45 0.

(** [async function main()] *)
Definition main : M unit :=
  address <- match derive E mnemonic with
             | inl e => Rt.throw e
             | inr a => Rt.ret a
             end ;;
  console_log ("injectiveAddress: " ++ address) ;;;
  console_log ("contract: " ++ contract) ;;;
  console_log ("set_value: " ++ newValue) ;;;
  txHash <- Rt.await (EvBroadcast newValue "set_value from raspberry pi")
              (latency E) (net E) ;;
  console_log ("txHash: " ++ r_text txHash) ;;;
  v <- poll ;;
  match v with
  | Confirmed => Rt.ret tt
  | NotConfirmed => console_log "Not confirmed yet. Run: node query.js"
  end.

End Script.

(** The whole process *)
Definition run (E : env) (cfg : config) (start : Z) : list event * Z :=
  if Js.env_missing (RPC cfg) || Js.env_missing (CONTRACT cfg) || Js.env_missing (MNEMONIC cfg)
  then ([EvError "Error: Missing env: RPC, CONTRACT, MNEMONIC"], 1)
  else
    match main E (Js.env_text (CONTRACT cfg)) (Js.env_text (MNEMONIC cfg))
            ("hello-from-pi-" ++ Js.dec (wall E start)) start with
    | (inr _, evs, _) => (evs, 0)
    | (inl e, evs, _) => ((evs ++ [EvError (Js.exn_text e)])%list, 1)
    end.

(** *** The confirmation loop in closed form *)
Section Polling.
Variable E : env.
Variable newValue : string.

(** Iteration [i] ends the loop: its query threw, or read the value back *)
Definition stops (i : nat) : bool :=
  match query E i with
  | inl _ => true
  | inr v => Js.strict_eq_str (observed v) newValue
  end.

(** What iteration [i] does *)
Definition poll_step_events (i : nat) : list event :=
  match query E i with
  | inl _ => [EvQuery]
  | inr v =>
      if Js.strict_eq_str (observed v) newValue
      then [EvQuery; EvLog ("CONFIRMED: " ++ shown v)]
      else [EvQuery; EvLog ("waiting... current: " ++ shown v); EvSleep 2000]
  end.

Definition poll_step_ns (i : nat) : Z :=
  query_ns E i + (if stops i then 0 else sleep_ns E 2000).

(** The iterations made out of [indices]: up to and including the
    first that ends the loop *)
Fixpoint polls_made (indices : list nat) : list nat :=
  match indices with
  | [] => []
  | i :: rest => if stops i then [i] else i :: polls_made rest
  end.

Fixpoint poll_result (indices : list nat) : Js.exn + verdict :=
  match indices with
  | [] => inr NotConfirmed
  | i :: rest =>
      match query E i with
      | inl e => inl e
      | inr v =>
          if Js.strict_eq_str (observed v) newValue then inr Confirmed
          else poll_result rest
      end
  end.

Fixpoint total (l : list Z) : Z :=
  match l with
  | [] => 0
  | x :: rest => x + total rest
  end.

(** The query of iteration [i] answers, and the value read is not the
    string [newValue] *)
Definition misses (i : nat) : Prop :=
  exists v, query E i = inr v /\ observed v <> Js.Str newValue.

(** The query of iteration [i] answers, and the value read is the string
    [newValue] *)
Definition hits (i : nat) : Prop :=
  exists v, query E i = inr v /\ observed v = Js.Str newValue.

End Polling.

Definition is_query (e : event) : bool :=
  match e with EvQuery => true | _ => false end.

Definition sleeps_2000 (e : event) : bool :=
  match e with EvSleep ms => ms =? 2000 | _ => true end.

(** *** Sample surroundings: a chain that shows the new value at the
    [k]-th query, or never *)
Definition sample_env (answer : nat -> string) : env :=
  {| derive := fun _ => inr "inj1sample";
     net := inr {| r_txhash := Js.Str "ABC123"; r_txHash := Js.Undefined;
                   r_code := Js.Num 0; r_height := Js.Num 51234;
                   r_gasWanted := Js.Undefined; r_gasUsed := Js.Undefined;
                   r_timestamp := Js.Undefined; r_text := "{ txhash: 'ABC123' }" |};
     latency := 842100000;
     query := fun i => inr {| observed := Js.Str (answer i);
                              shown := "{ value: '" ++ answer i ++ "' }" |};
     query_ns := fun _ => 150000000;
     sleep_ns := fun ms => ms * 1000000;
     wall := fun c => 1700000000000 + c / 1000000 |}.

(** Surroundings in which the broadcast settles as [outcome] and the
    query of iteration [i] as [reply i] *)
Definition env_of (outcome : Js.exn + response) (reply : nat -> Js.exn + reply) : env :=
  {| derive := fun _ => inr "inj1sample";
     net := outcome;
     latency := 842100000;
     query := reply;
     query_ns := fun _ => 150000000;
     sleep_ns := fun ms => ms * 1000000;
     wall := fun c => 1700000000000 + c / 1000000 |}.

Definition sample_config : config :=
  {| RPC := Some "https://rpc.example:443"; CONTRACT := Some "inj1contract";
     MNEMONIC := Some "word word word" |}.

(** Two stale answers, then a failing query *)
Definition fails_at_third : nat -> Js.exn + reply :=
  fun i => if (i <? 2)%nat
           then inr {| observed := Js.Str "old"; shown := "{ value: 'old' }" |}
           else inl (Js.Error "fetch failed").

Definition never_there : nat -> string := fun _ => "old".

Definition there_at (k : nat) (v : string) : nat -> string :=
  fun i => if (i <? k)%nat then "old" else v.

Definition is_broadcast (e : event) : bool :=
  match e with EvBroadcast _ _ => true | _ => false end.

(** *** Vocabulary for whole runs *)

Definition configured (cfg : config) : Prop :=
  Js.env_missing (RPC cfg) || Js.env_missing (CONTRACT cfg)
  || Js.env_missing (MNEMONIC cfg) = false.

(** The value the script sets, fixed when the script starts *)
Definition new_value (E : env) (start : Z) : string :=
  "hello-from-pi-" ++ Js.dec (wall E start).

(** What [main] prints before it broadcasts *)
Definition banner (contract address newValue : string) : list event :=
  [ EvLog ("injectiveAddress: " ++ address);
    EvLog ("contract: " ++ contract);
    EvLog ("set_value: " ++ newValue) ].

(** The query of iteration [i] throws [e] *)
Definition throws (E : env) (i : nat) (e : Js.exn) : Prop := query E i = inl e.

End Execute.

(** ** The connectivity check ([query.js])

    Connects to the RPC endpoint, sends [ping] and then [get_value] to the
    contract, and prints both answers. *)

Module Query.

Inductive request := Ping | GetValue.

Inductive event :=
| EvLog (line : string)
| EvError (text : string)
| EvConnect (rpc : string)                         (* CosmWasmClient.connect(RPC) *)
| EvQuery (contract : string) (q : request).       (* client.queryContractSmart *)

Record env := {
  connect : string -> Js.exn + unit;
  connect_ns : Z;
  answer : request -> Js.exn + string;   (* the answer, as [console.log] shows it *)
  answer_ns : request -> Z
}.

Record config := {
  RPC : option string;
  CONTRACT : option string
}.

Definition M := Rt.M event.

Definition console_log (line : string) : M unit := Rt.emit (EvLog line).

Definition queryContractSmart (E : env) (contract : string) (q : request) : M string :=
  Rt.await (EvQuery contract q) (answer_ns E q) (answer E q).

(** [async function main()] *)
Definition main (E : env) (rpc contract : string) : M unit :=
  client <- Rt.await (EvConnect rpc) (connect_ns E) (connect E rpc) ;;
  ping <- queryContractSmart E contract Ping ;;
  console_log ("PING: " ++ ping) ;;;
  val <- queryContractSmart E contract GetValue ;;
  console_log ("GET_VALUE: " ++ val).

(** The whole process: the start-up check, then
    [main().catch(e => { console.error(e); process.exit(1); })] *)
Definition run (E : env) (cfg : config) (start : Z) : list event * Z :=
  if Js.env_missing (RPC cfg) || Js.env_missing (CONTRACT cfg)
  then ([EvError "Error: Missing env: RPC, CONTRACT"], 1)
  else
    match main E (Js.env_text (RPC cfg)) (Js.env_text (CONTRACT cfg)) start with
    | (inr _, evs, _) => (evs, 0)
    | (inl e, evs, _) => ((evs ++ [EvError (Js.exn_text e)])%list, 1)
    end.

(** The requests sent to the contract, in order *)
Fixpoint queries (evs : list event) : list request :=
  match evs with
  | [] => []
  | EvQuery _ q :: rest => q :: queries rest
  | _ :: rest => queries rest
  end.

(** Everything the check needs is there and answers *)
Definition healthy (E : env) (cfg : config) : Prop :=
  Js.env_missing (RPC cfg) || Js.env_missing (CONTRACT cfg) = false
  /\ (exists u, connect E (Js.env_text (RPC cfg)) = inr u)
  /\ (exists p, answer E Ping = inr p)
  /\ (exists v, answer E GetValue = inr v).

(** Sample surroundings: a node that answers both requests *)
Definition sample_env : env :=
  {| connect := fun _ => inr tt;
     connect_ns := 300000000;
     answer := fun q => match q with
                        | Ping => inr "{ ok: true }"
                        | GetValue => inr "{ value: 'hello' }"
                        end;
     answer_ns := fun _ => 150000000 |}.

Definition sample_config : config :=
  {| RPC := Some "https://rpc.example:443"; CONTRACT := Some "inj1contract" |}.

End Query.

(** * Properties *)

(** ** Strings *)

Lemma sapp_assoc (a b c : string) : ((a ++ b) ++ c = a ++ (b ++ c))%string.
Proof. induction a as [|x a IH]; simpl; [reflexivity | now rewrite IH]. Qed.

Lemma sapp_nil_r (a : string) : (a ++ EmptyString = a)%string.
Proof. induction a as [|x a IH]; simpl; [reflexivity | now rewrite IH]. Qed.

Lemma sapp_snoc (a : string) (c : ascii) (b : string) :
  ((a ++ str1 c) ++ b = a ++ String c b)%string.
Proof. now rewrite sapp_assoc. Qed.

(** ** CSV escaping *)

Section CsvFacts.

Let specials := [dquote; comma; LF].

Lemma class_test_occurs (s : string) :
  Js.class_test specials s = true <->
  Csv.occurs dquote s \/ Csv.occurs comma s \/ Csv.occurs LF s.
Proof.
  induction s as [|a s IH]; simpl.
  - split; [discriminate | tauto].
  - rewrite orb_false_r, !orb_true_iff, IH, !Ascii.eqb_eq. tauto.
Qed.

Lemma class_test_CR_occurs (s : string) :
  Js.class_test [CR] s = true <-> Csv.occurs CR s.
Proof.
  induction s as [|a s IH]; simpl.
  - split; [discriminate | tauto].
  - rewrite orb_false_r, orb_true_iff, IH, Ascii.eqb_eq. tauto.
Qed.

Lemma reads_back_occurs (t : string) :
  (Csv.occurs CR t ->
   Csv.occurs dquote t \/ Csv.occurs comma t \/ Csv.occurs LF t) ->
  Csv.reads_back t = true.
Proof.
  intros H. unfold Csv.reads_back.
  destruct (Js.class_test [dquote; comma; LF] t) eqn:Ht; [reflexivity|].
  destruct (Js.class_test [CR] t) eqn:Hr; [|reflexivity].
  apply class_test_CR_occurs in Hr. apply H in Hr.
  apply class_test_occurs in Hr. subst specials. congruence.
Qed.

Lemma class_test_cons_false (a : ascii) (s : string) :
  Js.class_test specials (String a s) = false ->
  Ascii.eqb a dquote = false /\ Ascii.eqb a comma = false /\
  Ascii.eqb a LF = false /\ Js.class_test specials s = false.
Proof.
  simpl. rewrite orb_false_r, !orb_false_iff. tauto.
Qed.

Lemma replaceAll_doubled (s : string) :
  Js.replaceAll dquote (String dquote (str1 dquote)) s = Csv.doubled s.
Proof.
  induction s as [|a s IH]; simpl; [reflexivity|].
  destruct (Ascii.eqb a dquote); simpl; now rewrite IH.
Qed.

Lemma class_test_CR_cons (a : ascii) (s : string) :
  Js.class_test [CR] (String a s) = false ->
  Ascii.eqb a CR = false /\ Js.class_test [CR] s = false.
Proof.
  simpl. rewrite orb_false_r, orb_false_iff. tauto.
Qed.

(** An unquoted run of ordinary characters is accumulated as it stands. *)
Lemma parse_plain_run (s : string) :
  Js.class_test specials s = false ->
  Js.class_test [CR] s = false ->
  forall cur done tail,
    Csv.parse_record Csv.InPlain cur done (s ++ tail) =
    Csv.parse_record Csv.InPlain (cur ++ s) done tail.
Proof.
  induction s as [|a s IH]; intros Hs Hr cur done tail.
  - now rewrite sapp_nil_r.
  - apply class_test_cons_false in Hs as (Hq & Hc & Hl & Hs).
    apply class_test_CR_cons in Hr as (Ha & Hr).
    simpl. rewrite Hq, Hc, Hl, Ha, (IH Hs Hr). now rewrite sapp_snoc.
Qed.

(** Inside quotes, the doubled text up to the closing quote is read back. *)
Lemma parse_quoted_run (s : string) :
  forall cur done tail,
    Csv.parse_record Csv.InQuoted cur done (Csv.doubled s ++ String dquote tail) =
    Csv.parse_record Csv.QuoteSeen (cur ++ s) done tail.
Proof.
  induction s as [|a s IH]; intros cur done tail.
  - simpl. now rewrite sapp_nil_r.
  - simpl. destruct (Ascii.eqb a dquote) eqn:Ha.
    + apply Ascii.eqb_eq in Ha. subst a. simpl.
      rewrite IH. now rewrite sapp_snoc.
    + simpl. rewrite Ha, IH. now rewrite sapp_snoc.
Qed.

(** An unquoted text is read up to the end of its record. *)
Lemma parse_plain_field (t : string) (done : list string) (tail : string) :
  Js.class_test specials t = false ->
  Js.class_test [CR] t = false ->
  Csv.parse_record Csv.FieldStart EmptyString done (t ++ tail) =
  match t with
  | EmptyString => Csv.parse_record Csv.FieldStart EmptyString done tail
  | String _ _ => Csv.parse_record Csv.InPlain t done tail
  end.
Proof.
  intros Ht Hr. destruct t as [|a t]; [reflexivity|].
  pose proof (class_test_cons_false _ _ Ht) as (Hq & Hc & Hl & Hs).
  pose proof (class_test_CR_cons _ _ Hr) as (Ha & Hr').
  simpl. rewrite Hq, Hc, Hl, Ha.
  now rewrite (parse_plain_run t Hs Hr').
Qed.

Lemma reads_back_plain (t : string) :
  Csv.reads_back t = true ->
  Js.class_test specials t = false ->
  Js.class_test [CR] t = false.
Proof.
  unfold Csv.reads_back. intros H Ht. subst specials. rewrite Ht in H.
  simpl in H. now apply negb_true_iff in H.
Qed.

(** One escaped field followed by a separator: the parser moves on with
    the field's text recorded. *)
Lemma parse_field_comma (v : Js.value) (done : list string) (rest : string) :
  Csv.reads_back (Csv.field_text v) = true ->
  Csv.parse_record Csv.FieldStart EmptyString done (Csv.esc v ++ String comma rest) =
  Csv.parse_record Csv.FieldStart EmptyString (done ++ [Csv.field_text v])%list rest.
Proof.
  unfold Csv.esc. fold (Csv.field_text v). set (t := Csv.field_text v).
  intros Hb.
  destruct (Js.class_test [dquote; comma; LF] t) eqn:Ht.
  - rewrite replaceAll_doubled. simpl. rewrite sapp_snoc.
    rewrite parse_quoted_run. reflexivity.
  - rewrite (parse_plain_field t done _ Ht (reads_back_plain t Hb Ht)).
    destruct t; reflexivity.
Qed.

Lemma parse_field_LF (v : Js.value) (done : list string) (rest : string) :
  Csv.reads_back (Csv.field_text v) = true ->
  Csv.parse_record Csv.FieldStart EmptyString done (Csv.esc v ++ String LF rest) =
  Some ((done ++ [Csv.field_text v])%list, rest).
Proof.
  unfold Csv.esc. fold (Csv.field_text v). set (t := Csv.field_text v).
  intros Hb.
  destruct (Js.class_test [dquote; comma; LF] t) eqn:Ht.
  - rewrite replaceAll_doubled. simpl. rewrite sapp_snoc.
    rewrite parse_quoted_run. reflexivity.
  - rewrite (parse_plain_field t done _ Ht (reads_back_plain t Hb Ht)).
    destruct t; reflexivity.
Qed.

Lemma join_cons (sep x y : string) (l : list string) :
  Js.join sep (x :: y :: l) = (x ++ sep ++ Js.join sep (y :: l))%string.
Proof. reflexivity. Qed.

Lemma comma_app (x y : string) : (("," ++ x) ++ y)%string = String comma (x ++ y).
Proof. reflexivity. Qed.

Lemma parse_row (vs : list Js.value) :
  forall v done rest,
    forallb Csv.reads_back (map Csv.field_text (v :: vs)) = true ->
    Csv.parse_record Csv.FieldStart EmptyString done
      (Js.join "," (map Csv.esc (v :: vs)) ++ String LF rest) =
    Some ((done ++ map Csv.field_text (v :: vs))%list, rest).
Proof.
  induction vs as [|w vs IH]; intros v done rest Hb;
    cbn [map forallb] in Hb; apply andb_true_iff in Hb as (Hv & Hb).
  - simpl. now apply parse_field_LF.
  - cbn [map]. rewrite join_cons, sapp_assoc, comma_app, (parse_field_comma _ _ _ Hv).
    change (Csv.esc w :: map Csv.esc vs) with (map Csv.esc (w :: vs)).
    rewrite (IH _ _ _ Hb). now rewrite <- app_assoc.
Qed.

End CsvFacts.

(** C6.  [esc] wraps a field in double quotes, with every inner double
    quote doubled, exactly when its text contains a comma, a double quote
    or a line feed, and leaves it as it is otherwise; [null] and
    [undefined] become the empty field; and a row of escaped fields, read
    back by an RFC-4180 record parser, yields the original texts, provided
    no text holds a carriage return that [esc] leaves outside quotes: each
    text either is quoted or holds no carriage return. *)
Theorem esc_quotes_exactly_and_round_trips :
  (forall v,
      (Csv.occurs comma (Csv.field_text v) \/ Csv.occurs dquote (Csv.field_text v)
       \/ Csv.occurs LF (Csv.field_text v)) ->
      Csv.esc v = Csv.quoted (Csv.field_text v))
  /\ (forall v,
      ~ (Csv.occurs comma (Csv.field_text v) \/ Csv.occurs dquote (Csv.field_text v)
         \/ Csv.occurs LF (Csv.field_text v)) ->
      Csv.esc v = Csv.field_text v)
  /\ (forall s, Csv.field_text (Js.Str s) = s)
  /\ Csv.esc Js.Null = EmptyString
  /\ Csv.esc Js.Undefined = EmptyString
  /\ (forall v vs rest,
      (forall t, In t (map Csv.field_text (v :: vs)) ->
                 Csv.occurs CR t ->
                 Csv.occurs comma t \/ Csv.occurs dquote t \/ Csv.occurs LF t) ->
      Csv.read_record (Js.join "," (map Csv.esc (v :: vs)) ++ String LF rest) =
      Some (map Csv.field_text (v :: vs), rest)).
Proof.
  repeat split.
  - intros v H. unfold Csv.esc. fold (Csv.field_text v).
    destruct (Js.class_test [dquote; comma; LF] (Csv.field_text v)) eqn:Ht.
    + now rewrite replaceAll_doubled.
    + exfalso. assert (Hn : Js.class_test [dquote; comma; LF] (Csv.field_text v) = true)
        by (apply class_test_occurs; tauto).
      congruence.
  - intros v H. unfold Csv.esc. fold (Csv.field_text v).
    destruct (Js.class_test [dquote; comma; LF] (Csv.field_text v)) eqn:Ht.
    + exfalso. apply H. apply class_test_occurs in Ht. tauto.
    + reflexivity.
  - intros v vs rest H. unfold Csv.read_record. apply parse_row.
    apply forallb_forall. intros t Ht. apply reads_back_occurs.
    intros Hcr. specialize (H t Ht Hcr). tauto.
Qed.

(** Not every text reads back: a text with a carriage return and no
    comma, double quote or line feed is written unquoted, and the reader
    ends the record at the carriage return, so that the text [x] followed
    by a carriage return reads back as [x]. *)
Lemma bare_carriage_return_does_not_read_back :
  let s := ("x" ++ str1 CR)%string in
  Csv.esc (Js.Str s) = s
  /\ Csv.read_record (Csv.esc (Js.Str s) ++ str1 LF) = Some (["x"%string], EmptyString)
  /\ Csv.read_record (Csv.esc (Js.Str s) ++ str1 LF)
     <> Some ([Csv.field_text (Js.Str s)], EmptyString).
Proof.
  cbv zeta. split; [reflexivity|]. split; [reflexivity|].
  vm_compute. discriminate.
Qed.

(** ** Payload values *)

Section PayloadFacts.

Lemma digits_no_dash (d : Decimal.uint) :
  Js.class_test [dash] (NilEmpty.string_of_uint d) = false.
Proof. induction d; simpl; auto. Qed.

Lemma dec_nat_no_dash (n : nat) :
  Js.class_test [dash] (Js.dec (Z.of_nat n)) = false.
Proof.
  unfold Js.dec. destruct (Z.of_nat n) as [|p|p] eqn:Hn.
  - reflexivity.
  - simpl. unfold NilZero.string_of_uint.
    pose proof (digits_no_dash (Pos.to_uint p)) as H.
    destruct (Pos.to_uint p); auto.
  - lia.
Qed.

Lemma dec_inj (a b : Z) : Js.dec a = Js.dec b -> a = b.
Proof.
  unfold Js.dec. intros H. apply DecimalZ.to_int_inj.
  assert (Hn : forall z, Z.to_int z <> Decimal.Pos Decimal.Nil /\
                         Z.to_int z <> Decimal.Neg Decimal.Nil).
  { intros [|p|p]; simpl; split; try discriminate;
      intros [= Hp]; now apply DecimalPos.Unsigned.to_uint_nonnil in Hp. }
  pose proof (NilZero.isi (Z.to_int a) (proj1 (Hn a)) (proj2 (Hn a))) as Ha.
  pose proof (NilZero.isi (Z.to_int b) (proj1 (Hn b)) (proj2 (Hn b))) as Hb.
  rewrite H in Ha. congruence.
Qed.

Lemma class_test_app_dash (a x : string) :
  Js.class_test [dash] (a ++ String dash x) = true.
Proof.
  induction a as [|c a IH]; simpl.
  - reflexivity.
  - rewrite IH. now rewrite orb_true_r.
Qed.

Lemma after_last_app (a x : string) :
  Js.class_test [dash] x = false ->
  Js.after_last dash (a ++ String dash x) = x.
Proof.
  intros Hx. induction a as [|c a IH].
  - simpl. now rewrite Hx.
  - cbn [String.append Js.after_last]. now rewrite class_test_app_dash.
Qed.

Lemma make_value_split (now : Z) (i : nat) :
  Experiment.make_value now i =
  (("pi-exp-" ++ Js.dec now) ++ String dash (Js.dec (Z.of_nat i)))%string.
Proof. unfold Experiment.make_value. now rewrite sapp_assoc. Qed.

Lemma make_value_index (now : Z) (i : nat) :
  Js.after_last dash (Experiment.make_value now i) = Js.dec (Z.of_nat i).
Proof.
  rewrite make_value_split. apply after_last_app, dec_nat_no_dash.
Qed.

End PayloadFacts.

(** C9.  The values generated for two distinct trial indices are distinct
    strings, whatever the two clock readings are; and generating a value
    always returns, performs no effect and lets no time pass. *)
Theorem payload_values_distinct :
  forall (E : Experiment.env) (i j : nat) (ci cj : Z),
    i <> j ->
    (exists vi vj,
        Experiment.payload E i ci = (inr vi, [], ci)
        /\ Experiment.payload E j cj = (inr vj, [], cj)
        /\ vi = Experiment.make_value (Experiment.wall E ci) i
        /\ vj = Experiment.make_value (Experiment.wall E cj) j
        /\ vi <> vj).
Proof.
  intros E i j ci cj Hij.
  exists (Experiment.make_value (Experiment.wall E ci) i),
         (Experiment.make_value (Experiment.wall E cj) j).
  repeat split.
  intros Heq. apply (f_equal (Js.after_last dash)) in Heq.
  rewrite !make_value_index in Heq.
  apply dec_inj in Heq. lia.
Qed.

(** ** The retry loop *)

Lemma reach_step (fuel a : nat) :
  (a <= 3)%nat -> Experiment.reach (S fuel) a = a :: Experiment.reach fuel (S a).
Proof.
  intros Ha. unfold Experiment.reach.
  replace (Nat.min (S fuel) (4 - a)) with (S (Nat.min fuel (4 - S a))) by lia.
  reflexivity.
Qed.

Lemma reach_done (fuel a : nat) : (3 < a)%nat -> Experiment.reach fuel a = [].
Proof.
  intros Ha. unfold Experiment.reach.
  now replace (Nat.min fuel (4 - a)) with O by lia.
Qed.

Section RetryFacts.
Variable E : Experiment.env.
Variable cfg : Experiment.config.

Lemma backoff_of_test (m : Js.value) (a : nat) :
  (if fst (Js.test (Experiment.sequence_pattern 0) (Js.to_string m))
   then 1200 * Z.of_nat a else 400 * Z.of_nat a)
  = Experiment.backoff_ms (Experiment.classify m) a.
Proof.
  unfold Experiment.classify, Experiment.classify_with.
  destruct (Js.test (Experiment.sequence_pattern 0) (Js.to_string m)) as [[|] r];
    reflexivity.
Qed.

Lemma sleep_of_test (m : Js.value) (a : nat) :
  (if fst (Js.test (Experiment.sequence_pattern 0) (Js.to_string m))
   then Experiment.sleep E (1200 * Z.of_nat a)
   else Experiment.sleep E (400 * Z.of_nat a))
  = Experiment.sleep E (Experiment.backoff_ms (Experiment.classify m) a).
Proof.
  rewrite <- backoff_of_test.
  now destruct (fst (Js.test (Experiment.sequence_pattern 0) (Js.to_string m))).
Qed.

Lemma attempts_made_failed i a e l :
  Experiment.net E i a = inl e ->
  Experiment.attempts_made E i (a :: l) = a :: Experiment.attempts_made E i l.
Proof. intros H. cbn. unfold Experiment.succeeds. now rewrite H. Qed.

Lemma attempts_made_succeeded i a r l :
  Experiment.net E i a = inr r ->
  Experiment.attempts_made E i (a :: l) = [a].
Proof. intros H. cbn. unfold Experiment.succeeds. now rewrite H. Qed.

Lemma attempt_events_failed i v a e :
  Experiment.net E i a = inl e ->
  Experiment.attempt_events E i v a =
  [Experiment.EvBroadcast i a v ("pi-exp #" ++ Js.dec (Z.of_nat i));
   Experiment.EvSleep
     (Experiment.backoff_ms (Experiment.classify (Experiment.err_message e)) a)].
Proof.
  intros H. unfold Experiment.attempt_events, Experiment.delay_after. now rewrite H.
Qed.

Lemma attempt_events_succeeded i v a r :
  Experiment.net E i a = inr r ->
  Experiment.attempt_events E i v a =
  [Experiment.EvBroadcast i a v ("pi-exp #" ++ Js.dec (Z.of_nat i))].
Proof.
  intros H. unfold Experiment.attempt_events, Experiment.delay_after. now rewrite H.
Qed.

Lemma attempt_ns_failed i a e :
  Experiment.net E i a = inl e ->
  Experiment.attempt_ns E i a =
  Experiment.latency E i a
  + Experiment.sleep_ns E
      (Experiment.backoff_ms (Experiment.classify (Experiment.err_message e)) a).
Proof.
  intros H. unfold Experiment.attempt_ns, Experiment.delay_after. now rewrite H.
Qed.

Lemma attempt_ns_succeeded i a r :
  Experiment.net E i a = inr r ->
  Experiment.attempt_ns E i a = Experiment.latency E i a.
Proof.
  intros H. unfold Experiment.attempt_ns, Experiment.delay_after. rewrite H. lia.
Qed.

Lemma retry_from_closed (i : nat) (v : string) (fuel : nat) :
  forall a res m c,
    Experiment.retry_from E i v fuel a res m c =
    (inr (Experiment.retry_result E i (Experiment.reach fuel a) res m),
     flat_map (Experiment.attempt_events E i v)
       (Experiment.attempts_made E i (Experiment.reach fuel a)),
     c + Experiment.total
           (map (Experiment.attempt_ns E i)
              (Experiment.attempts_made E i (Experiment.reach fuel a)))).
Proof.
  induction fuel as [|fuel IH]; intros a res m c.
  - unfold Experiment.reach. simpl. unfold Rt.ret. now rewrite Z.add_0_r.
  - cbn [Experiment.retry_from].
    destruct (a <=? 3)%nat eqn:Ha.
    + apply Nat.leb_le in Ha. rewrite (reach_step fuel a Ha).
      unfold Rt.bind at 1. unfold Rt.try_catch.
      unfold Rt.bind at 1. unfold Experiment.broadcast, Rt.await.
      destruct (Experiment.net E i a) as [e|r] eqn:Hnet.
      * rewrite sleep_of_test.
        unfold Rt.bind at 1. unfold Experiment.sleep at 1, Rt.await, Rt.ret.
        rewrite IH.
        rewrite (attempts_made_failed _ _ _ _ Hnet).
        cbn [Experiment.retry_result flat_map map Experiment.total fold_right].
        rewrite Hnet, (attempt_events_failed _ _ _ _ Hnet),
          (attempt_ns_failed _ _ _ Hnet).
        unfold Experiment.total. f_equal; try reflexivity; lia.
      * rewrite (attempts_made_succeeded _ _ _ _ Hnet).
        cbn [Experiment.retry_result flat_map map Experiment.total fold_right].
        rewrite Hnet, (attempt_events_succeeded _ _ _ _ Hnet),
          (attempt_ns_succeeded _ _ _ Hnet).
        unfold Rt.ret, Experiment.total. f_equal; try reflexivity; simpl; lia.
    + apply Nat.leb_gt in Ha. rewrite (reach_done (S fuel) a Ha).
      simpl. unfold Rt.ret. now rewrite Z.add_0_r.
Qed.

Lemma retry_loop_closed (i : nat) (v : string) (c : Z) :
  Experiment.retry_loop E i v c =
  (inr (Experiment.retry_result E i [1; 2; 3]%nat None (Js.Str EmptyString)),
   Experiment.retry_events E i v,
   c + Experiment.retry_ns E i).
Proof. unfold Experiment.retry_loop. now rewrite retry_from_closed. Qed.

End RetryFacts.

(** ** A trial and a run of trials *)

Section TrialFacts.
Variable E : Experiment.env.
Variable cfg : Experiment.config.

Lemma pause_closed (c : Z) :
  (if Experiment.SLEEP_MS cfg >? 0
   then Experiment.sleep E (Experiment.SLEEP_MS cfg) else Rt.ret tt) c =
  (inr tt, Experiment.pause_events cfg, c + Experiment.pause_ns E cfg).
Proof.
  unfold Experiment.pause_events, Experiment.pause_ns.
  destruct (Experiment.SLEEP_MS cfg >? 0).
  - reflexivity.
  - unfold Rt.ret. now rewrite Z.add_0_r.
Qed.

Lemma trial_closed (i : nat) (c : Z) :
  Experiment.trial E cfg i c =
  (inr tt, Experiment.trial_events E cfg i c, c + Experiment.trial_ns E cfg i).
Proof.
  unfold Experiment.trial, Experiment.payload, Experiment.date_now.
  unfold Rt.bind at 1. unfold Rt.bind at 1. unfold Rt.ret at 1.
  unfold Rt.bind at 1. unfold Rt.nowNs at 1.
  unfold Rt.bind at 1. rewrite retry_loop_closed.
  unfold Rt.bind at 1. unfold Rt.nowNs at 1.
  unfold Rt.bind at 1. unfold Experiment.appendFileSync, Rt.emit.
  unfold Rt.bind at 1. unfold Experiment.console_log, Rt.emit.
  rewrite pause_closed.
  replace (c + Experiment.retry_ns E i - c) with (Experiment.retry_ns E i) by lia.
  unfold Experiment.trial_events, Experiment.trial_ns, Experiment.trial_line,
    Experiment.trial_row, Experiment.trial_result.
  cbn [fst snd app].
  f_equal. lia.
Qed.

Lemma trials_from_closed (fuel : nat) :
  forall i c,
    Experiment.trials_from E cfg fuel i c =
    (inr tt,
     Experiment.trials_events E cfg c
       (seq i (Nat.min fuel (S (Experiment.N cfg) - i))),
     c + Experiment.trials_ns E cfg
           (seq i (Nat.min fuel (S (Experiment.N cfg) - i)))).
Proof.
  induction fuel as [|fuel IH]; intros i c.
  - simpl. unfold Rt.ret. now rewrite Z.add_0_r.
  - cbn [Experiment.trials_from].
    destruct (i <=? Experiment.N cfg)%nat eqn:Hi.
    + apply Nat.leb_le in Hi.
      replace (Nat.min (S fuel) (S (Experiment.N cfg) - i))
        with (S (Nat.min fuel (S (Experiment.N cfg) - S i))) by lia.
      cbn [seq Experiment.trials_events Experiment.trials_ns].
      unfold Rt.bind at 1. rewrite trial_closed, IH.
      f_equal. lia.
    + apply Nat.leb_gt in Hi.
      replace (Nat.min (S fuel) (S (Experiment.N cfg) - i)) with O by lia.
      simpl. unfold Rt.ret. now rewrite Z.add_0_r.
Qed.

Lemma main_body_closed (contract address : string) (c : Z) :
  Experiment.write_file E (Experiment.OUT cfg) Experiment.header_line = inr tt ->
  Experiment.main_body E cfg contract address c =
  (inr tt, Experiment.run_events E cfg contract address c,
   c + Experiment.trials_ns E cfg (seq 1 (Experiment.N cfg))).
Proof.
  intros Hw.
  unfold Experiment.main_body, Experiment.run_events, Experiment.banner.
  unfold Experiment.console_log, Experiment.writeFileSync, Rt.emit.
  fold Experiment.header_line. rewrite Hw.
  unfold Rt.bind at 1. unfold Rt.bind at 1. unfold Rt.bind at 1.
  unfold Rt.bind at 1. unfold Rt.bind at 1.
  rewrite trials_from_closed.
  replace (Nat.min (Experiment.N cfg) (S (Experiment.N cfg) - 1))
    with (Experiment.N cfg) by lia.
  reflexivity.
Qed.


Lemma run_closed (address : string) (start : Z) :
  Experiment.ready E cfg address ->
  Experiment.run E cfg start =
  (Experiment.run_events E cfg (Js.env_text (Experiment.CONTRACT cfg)) address start, 0).
Proof.
  intros (Hc & Hm & Hd & Hw). unfold Experiment.run, Experiment.main.
  rewrite Hc, Hm, Hd. cbn [orb]. now rewrite (main_body_closed _ _ _ Hw).
Qed.


End TrialFacts.

(** ** Classification of failures *)

Lemma test_sequence_pattern (li : nat) (s : string) :
  Js.test (Experiment.sequence_pattern li) s =
  (match Js.search true ["sequence"; "account sequence"; "incorrect"] s 0 with
   | Some _ => true
   | None => false
   end,
   Experiment.sequence_pattern li).
Proof.
  unfold Js.test, Experiment.sequence_pattern.
  cbn [Js.global Js.sticky Js.ignoreCase Js.alternatives Js.lastIndex orb Js.skip].
  now destruct (Js.search true ["sequence"; "account sequence"; "incorrect"] s 0).
Qed.

(** C8.  The kind of a failure is a function of its message alone: the
    regular expression carries no [g] or [y] flag, so [test] neither reads
    nor writes its [lastIndex], and classifying the same message from any
    two states of the pattern object gives the same kind, the kind the
    retry loop uses, and so the same delay for a given attempt number. *)
Theorem classification_depends_on_message_only :
  forall (msg : Js.value) (li1 li2 attempt : nat),
    fst (Experiment.classify_with (Experiment.sequence_pattern li1) msg)
    = fst (Experiment.classify_with (Experiment.sequence_pattern li2) msg)
    /\ fst (Experiment.classify_with (Experiment.sequence_pattern li1) msg)
       = Experiment.classify msg
    /\ snd (Experiment.classify_with (Experiment.sequence_pattern li1) msg)
       = Experiment.sequence_pattern li1
    /\ Experiment.backoff_ms
         (fst (Experiment.classify_with (Experiment.sequence_pattern li1) msg)) attempt
       = Experiment.backoff_ms
           (fst (Experiment.classify_with (Experiment.sequence_pattern li2) msg)) attempt
    /\ (if fst (Js.test (Experiment.sequence_pattern 0) (Js.to_string msg))
        then 1200 * Z.of_nat attempt else 400 * Z.of_nat attempt)
       = Experiment.backoff_ms (Experiment.classify msg) attempt.
Proof.
  intros msg li1 li2 attempt.
  unfold Experiment.classify, Experiment.classify_with.
  rewrite !test_sequence_pattern.
  destruct (Js.search true ["sequence"; "account sequence"; "incorrect"]
              (Js.to_string msg) 0); cbn; repeat split; reflexivity.
Qed.

(** ** The retry policy *)

Lemma attempts_made_shape (E : Experiment.env) (i : nat) :
  let made := Experiment.attempts_made E i [1; 2; 3]%nat in
  (made = [1]%nat /\ Experiment.succeeds E i 1 = true)
  \/ (made = [1; 2]%nat /\ Experiment.succeeds E i 1 = false
      /\ Experiment.succeeds E i 2 = true)
  \/ (made = [1; 2; 3]%nat /\ Experiment.succeeds E i 1 = false
      /\ Experiment.succeeds E i 2 = false).
Proof.
  cbn. destruct (Experiment.succeeds E i 1); [now left|].
  destruct (Experiment.succeeds E i 2); [right; now left|].
  right; right. now destruct (Experiment.succeeds E i 3).
Qed.

Lemma broadcasts_of_attempts (E : Experiment.env) (i : nat) (v : string) (l : list nat) :
  List.length (filter Experiment.is_broadcast (flat_map (Experiment.attempt_events E i v) l))
  = List.length l.
Proof.
  induction l as [|a l IH]; [reflexivity|].
  cbn [flat_map]. rewrite filter_app, length_app, IH.
  unfold Experiment.attempt_events.
  destruct (Experiment.delay_after E i a); reflexivity.
Qed.

(** C1, as the code has it.  A trial makes attempts 1, 2, 3 in order and
    stops at the first success, so at most three broadcasts are issued
    (however much the loop were allowed to run); each failed attempt [a] is
    followed by a sleep of [1200 * a] ms when the message matches the
    sequence pattern and of [400 * a] ms otherwise; nothing follows a
    successful attempt, whose response is the result. *)
Theorem retry_loop_attempts_and_backoff :
  forall (E : Experiment.env) (i : nat) (value : string) (c : Z),
    let made := Experiment.attempts_made E i [1; 2; 3]%nat in
    let run := Experiment.retry_loop E i value c in
    Rt.events run =
      flat_map
        (fun a =>
           Experiment.EvBroadcast i a value ("pi-exp #" ++ Js.dec (Z.of_nat i))
           :: match Experiment.net E i a with
              | inl e =>
                  [Experiment.EvSleep
                     (match Experiment.classify (Experiment.err_message e) with
                      | Experiment.TransientSequenceError => 1200 * Z.of_nat a
                      | Experiment.OtherTransientError => 400 * Z.of_nat a
                      end)]
              | inr _ => []
              end)
        made
    /\ List.length (filter Experiment.is_broadcast (Rt.events run)) = List.length made
    /\ (List.length made <= 3)%nat
    /\ (forall fuel, (3 <= fuel)%nat ->
          Experiment.retry_from E i value fuel 1 None (Js.Str EmptyString) c = run)
    /\ (forall a r, In a made -> Experiment.net E i a = inr r ->
          last made O = a
          /\ Rt.outcome run = inr (Some r, Js.Str EmptyString))
    /\ (forall a, In a made -> Experiment.succeeds E i a = false ->
          forall b, (b < a)%nat -> In b made -> Experiment.succeeds E i b = false).
Proof.
  intros E i value c made run. subst run.
  rewrite retry_loop_closed. unfold Rt.events, Rt.outcome. cbn [fst snd].
  split; [|split; [|split; [|split; [|split]]]].
  - unfold Experiment.retry_events. fold made.
    apply flat_map_ext. intros a. unfold Experiment.attempt_events,
      Experiment.delay_after, Experiment.backoff_ms.
    destruct (Experiment.net E i a); [|reflexivity].
    now destruct (Experiment.classify (Experiment.err_message e)).
  - apply broadcasts_of_attempts.
  - destruct (attempts_made_shape E i) as [(H & _)|[(H & _)|(H & _)]];
      fold made in H; rewrite H; simpl; lia.
  - intros fuel Hf. rewrite retry_from_closed.
    unfold Experiment.reach, Experiment.retry_events, Experiment.retry_ns.
    replace (Nat.min fuel (4 - 1)) with 3%nat by lia. reflexivity.
  - intros a r Ha Hnet.
    assert (Hs : Experiment.succeeds E i a = true)
      by (unfold Experiment.succeeds; now rewrite Hnet).
    destruct (attempts_made_shape E i) as [(H & H1)|[(H & H1 & H2)|(H & H1 & H2)]];
      fold made in H; rewrite H in Ha |- *; cbn in Ha.
    + destruct Ha as [<-|[]]. split; [reflexivity|].
      cbn. now rewrite Hnet.
    + destruct Ha as [<-|[<-|[]]]; [congruence|]. split; [reflexivity|].
      unfold Experiment.succeeds in H1. cbn.
      destruct (Experiment.net E i 1); [|discriminate]. now rewrite Hnet.
    + destruct Ha as [<-|[<-|[<-|[]]]]; [congruence|congruence|].
      split; [reflexivity|].
      unfold Experiment.succeeds in H1, H2. cbn.
      destruct (Experiment.net E i 1); [|discriminate].
      destruct (Experiment.net E i 2); [|discriminate]. now rewrite Hnet.
  - intros a Ha Hfa b Hb Hbm.
    destruct (attempts_made_shape E i) as [(H & H1)|[(H & H1 & H2)|(H & H1 & H2)]];
      fold made in H; rewrite H in Ha, Hbm; cbn in Ha, Hbm;
      repeat match goal with
             | H : _ \/ _ |- _ => destruct H
             | H : False |- _ => destruct H
             end; subst; try lia; congruence.
Qed.

(** No rule spares the last attempt its delay: when all three attempts are
    rejected, the loop sleeps once more, for 1200 ms, after the third. *)
Lemma retry_loop_sleeps_after_third_failure :
  Rt.events (Experiment.retry_loop (Experiment.sample_env Experiment.always_timeout)
               1 "pi-exp-1700000000000-1" 0)
  = [ Experiment.EvBroadcast 1 1 "pi-exp-1700000000000-1" "pi-exp #1";
      Experiment.EvSleep 400;
      Experiment.EvBroadcast 1 2 "pi-exp-1700000000000-1" "pi-exp #1";
      Experiment.EvSleep 800;
      Experiment.EvBroadcast 1 3 "pi-exp-1700000000000-1" "pi-exp #1";
      Experiment.EvSleep 1200 ]
  /\ ~ Experiment.quiet_after_third
         (Rt.events (Experiment.retry_loop
                       (Experiment.sample_env Experiment.always_timeout)
                       1 "pi-exp-1700000000000-1" 0)).
Proof.
  split; [reflexivity|].
  intros H.
  apply (H [ Experiment.EvBroadcast 1 1 "pi-exp-1700000000000-1" "pi-exp #1";
             Experiment.EvSleep 400;
             Experiment.EvBroadcast 1 2 "pi-exp-1700000000000-1" "pi-exp #1";
             Experiment.EvSleep 800 ]
           [Experiment.EvSleep 1200] 1%nat "pi-exp-1700000000000-1" "pi-exp #1"
           eq_refl 1200).
  now left.
Qed.

(** ** Traces and the output file *)

Local Open Scope list_scope.

Section TraceFacts.
Variable E : Experiment.env.
Variable cfg : Experiment.config.

Let out := Experiment.OUT cfg.

Lemma forallb_firstn {A} (f : A -> bool) (l : list A) (n : nat) :
  forallb f l = true -> forallb f (firstn n l) = true.
Proof.
  revert n. induction l as [|x l IH]; intros [|n] H; try reflexivity.
  cbn in *. apply andb_true_iff in H as (Hx & Hl).
  now rewrite Hx, IH.
Qed.

Lemma file_after_app (p : string) (a b : list Experiment.event) (content : option string) :
  Experiment.file_after p (a ++ b) content =
  Experiment.file_after p b (Experiment.file_after p a content).
Proof.
  revert content. induction a as [|e a IH]; intros content; [reflexivity|].
  destruct e; cbn; apply IH.
Qed.

Lemma file_after_quiet (p : string) (l : list Experiment.event) (content : option string) :
  forallb (fun e => negb (Experiment.touches_file e)) l = true ->
  Experiment.file_after p l content = content.
Proof.
  induction l as [|e l IH]; intros H; [reflexivity|].
  cbn in H. apply andb_true_iff in H as (He & Hl).
  destruct e; cbn in *; try discriminate; now apply IH.
Qed.

Lemma appended_quiet (p : string) (l : list Experiment.event) :
  forallb (fun e => negb (Experiment.touches_file e)) l = true ->
  Experiment.appended p l = [].
Proof.
  induction l as [|e l IH]; intros H; [reflexivity|].
  cbn in H. apply andb_true_iff in H as (He & Hl).
  destruct e; cbn in *; try discriminate; now apply IH.
Qed.

Lemma appended_app (p : string) (a b : list Experiment.event) :
  Experiment.appended p (a ++ b) = Experiment.appended p a ++ Experiment.appended p b.
Proof.
  induction a as [|e a IH]; [reflexivity|].
  destruct e; cbn; rewrite ?IH; try reflexivity.
  now destruct (String.eqb path p).
Qed.

Lemma broadcast_trials_app (a b : list Experiment.event) :
  Experiment.broadcast_trials (a ++ b) =
  Experiment.broadcast_trials a ++ Experiment.broadcast_trials b.
Proof.
  induction a as [|e a IH]; [reflexivity|].
  destruct e; cbn; now rewrite ?IH.
Qed.

Lemma broadcast_trials_firstn (l : list Experiment.event) (n j : nat) :
  In j (Experiment.broadcast_trials (firstn n l)) ->
  In j (Experiment.broadcast_trials l).
Proof.
  revert n. induction l as [|e l IH]; intros [|n] H; try (now destruct H).
  destruct e; cbn in *; try (now apply (IH n)).
  destruct H as [H|H]; [now left | right; now apply (IH n)].
Qed.

Lemma retry_events_quiet (i : nat) (v : string) :
  forallb (fun e => negb (Experiment.touches_file e)) (Experiment.retry_events E i v) = true.
Proof.
  unfold Experiment.retry_events.
  induction (Experiment.attempts_made E i [1; 2; 3]%nat) as [|a l IH]; [reflexivity|].
  cbn [flat_map]. rewrite forallb_app, IH, andb_true_r.
  unfold Experiment.attempt_events.
  now destruct (Experiment.delay_after E i a).
Qed.

Lemma retry_events_trials (i : nat) (v : string) (j : nat) :
  In j (Experiment.broadcast_trials (Experiment.retry_events E i v)) -> j = i.
Proof.
  unfold Experiment.retry_events.
  induction (Experiment.attempts_made E i [1; 2; 3]%nat) as [|a l IH]; [now intros []|].
  cbn [flat_map]. rewrite broadcast_trials_app. intros H.
  apply in_app_or in H as [H|H]; [|now apply IH].
  unfold Experiment.attempt_events in H.
  destruct (Experiment.delay_after E i a); cbn in H; intuition.
Qed.

Lemma pause_events_quiet :
  forallb (fun e => negb (Experiment.touches_file e)) (Experiment.pause_events cfg) = true.
Proof.
  unfold Experiment.pause_events. now destruct (Experiment.SLEEP_MS cfg >? 0).
Qed.

Lemma pause_events_trials :
  Experiment.broadcast_trials (Experiment.pause_events cfg) = [].
Proof.
  unfold Experiment.pause_events. now destruct (Experiment.SLEEP_MS cfg >? 0).
Qed.

Lemma trial_events_trials (i : nat) (c : Z) (j : nat) :
  In j (Experiment.broadcast_trials (Experiment.trial_events E cfg i c)) -> j = i.
Proof.
  unfold Experiment.trial_events. rewrite !broadcast_trials_app.
  cbn [Experiment.broadcast_trials]. rewrite pause_events_trials.
  cbn [app]. rewrite app_nil_r. apply retry_events_trials.
Qed.

(** The file after a whole trial: its row has been added. *)
Lemma file_after_trial (i : nat) (c : Z) (x : string) :
  Experiment.file_after out (Experiment.trial_events E cfg i c) (Some x) =
  Some (x ++ Experiment.trial_line E i c)%string.
Proof.
  unfold Experiment.trial_events.
  rewrite file_after_app, (file_after_quiet _ _ _ (retry_events_quiet _ _)).
  cbn [app Experiment.file_after]. subst out. rewrite String.eqb_refl.
  apply file_after_quiet, pause_events_quiet.
Qed.

(** Any initial part of a trial either has not appended yet, or has
    appended the trial's row and nothing else. *)
Lemma trial_prefix (i : nat) (c : Z) (x : string) (n : nat) :
  (Experiment.file_after out (firstn n (Experiment.trial_events E cfg i c)) (Some x)
   = Some x
   /\ Experiment.appended out (firstn n (Experiment.trial_events E cfg i c)) = [])
  \/ (Experiment.file_after out (firstn n (Experiment.trial_events E cfg i c)) (Some x)
      = Some (x ++ Experiment.trial_line E i c)%string
      /\ Experiment.appended out (firstn n (Experiment.trial_events E cfg i c))
         = [Experiment.trial_line E i c]).
Proof.
  unfold Experiment.trial_events. rewrite firstn_app, file_after_app, appended_app.
  pose proof (forallb_firstn _ _ n
                (retry_events_quiet i (Experiment.make_value (Experiment.wall E c) i)))
    as Hq.
  rewrite (file_after_quiet _ _ _ Hq), (appended_quiet _ _ Hq).
  destruct (n - List.length
                  (Experiment.retry_events E i
                     (Experiment.make_value (Experiment.wall E c) i)))%nat as [|m].
  - left. split; reflexivity.
  - right. cbn [app firstn Experiment.file_after Experiment.appended]. subst out.
    rewrite String.eqb_refl.
    match goal with
    | |- context [firstn m ?tail] =>
        assert (Hq2 : forallb (fun e => negb (Experiment.touches_file e))
                        (firstn m tail) = true)
          by (apply forallb_firstn; cbn [forallb]; apply pause_events_quiet)
    end.
    rewrite (file_after_quiet _ _ _ Hq2), (appended_quiet _ _ Hq2).
    split; reflexivity.
Qed.

Lemma appended_trial (i : nat) (c : Z) :
  Experiment.appended out (Experiment.trial_events E cfg i c) =
  [Experiment.trial_line E i c].
Proof.
  unfold Experiment.trial_events.
  rewrite appended_app, (appended_quiet _ _ (retry_events_quiet _ _)).
  cbn [app Experiment.appended]. subst out. rewrite String.eqb_refl.
  now rewrite (appended_quiet _ _ pause_events_quiet).
Qed.

Lemma appended_trials (indices : list nat) :
  forall c,
    Experiment.appended out (Experiment.trials_events E cfg c indices) =
    Experiment.trials_lines E cfg c indices.
Proof.
  induction indices as [|i rest IH]; intros c; [reflexivity|].
  cbn [Experiment.trials_events Experiment.trials_lines].
  now rewrite appended_app, appended_trial, IH.
Qed.

Lemma file_after_trials (indices : list nat) :
  forall c x,
    Experiment.file_after out (Experiment.trials_events E cfg c indices) (Some x) =
    Some (x ++ Experiment.sconcat (Experiment.trials_lines E cfg c indices))%string.
Proof.
  induction indices as [|i rest IH]; intros c x.
  - cbn. now rewrite sapp_nil_r.
  - cbn [Experiment.trials_events Experiment.trials_lines Experiment.sconcat].
    rewrite file_after_app, file_after_trial, IH. now rewrite sapp_assoc.
Qed.


(** Any initial part of a run of trials leaves the rows of the first [k]
    trials in the file, and has broadcast for the first [k + 1] trials at
    most. *)
Lemma trials_prefix (indices : list nat) :
  forall c n x,
  exists k,
    (k <= List.length indices)%nat
    /\ Experiment.file_after out (firstn n (Experiment.trials_events E cfg c indices))
         (Some x)
       = Some (x ++ Experiment.sconcat
                      (firstn k (Experiment.trials_lines E cfg c indices)))%string
    /\ Experiment.appended out (firstn n (Experiment.trials_events E cfg c indices))
       = firstn k (Experiment.trials_lines E cfg c indices)
    /\ (forall j,
          In j (Experiment.broadcast_trials
                  (firstn n (Experiment.trials_events E cfg c indices))) ->
          In j (firstn (S k) indices)).
Proof.
  induction indices as [|i rest IH]; intros c n x.
  - exists O. cbn. rewrite firstn_nil. cbn. rewrite sapp_nil_r. auto.
  - cbn [Experiment.trials_events Experiment.trials_lines].
    set (T := Experiment.trial_events E cfg i c).
    rewrite firstn_app.
    destruct (Nat.le_gt_cases n (List.length T)) as [Hn|Hn].
    + replace (n - List.length T)%nat with O by lia.
      rewrite firstn_0, app_nil_r.
      assert (Hb : forall j, In j (Experiment.broadcast_trials (firstn n T)) -> j = i).
      { intros j Hj. apply broadcast_trials_firstn in Hj.
        now apply trial_events_trials in Hj. }
      destruct (trial_prefix i c x n) as [(Hf & Ha)|(Hf & Ha)]; fold T in Hf, Ha.
      * exists O. rewrite Hf, Ha. cbn [firstn Experiment.sconcat List.length].
        rewrite sapp_nil_r. repeat split; try lia.
        intros j Hj. left. symmetry. now apply Hb.
      * exists 1%nat. rewrite Hf, Ha. cbn [firstn Experiment.sconcat List.length].
        rewrite sapp_nil_r. repeat split; try lia.
        intros j Hj. left. symmetry. now apply Hb.
    + rewrite (firstn_all2 T) by lia.
      rewrite file_after_app, appended_app, broadcast_trials_app.
      subst T. rewrite file_after_trial, appended_trial.
      destruct (IH (c + Experiment.trial_ns E cfg i)
                  (n - List.length (Experiment.trial_events E cfg i c))%nat
                  (x ++ Experiment.trial_line E i c)%string)
        as (k & Hk & Hf & Ha & Hb).
      exists (S k). rewrite Hf, Ha.
      cbn [firstn Experiment.sconcat List.length app].
      rewrite sapp_assoc. repeat split; try lia.
      intros j Hj. apply in_app_or in Hj as [Hj|Hj].
      * left. symmetry. now apply trial_events_trials in Hj.
      * right. now apply Hb.
Qed.

End TraceFacts.

(** ** A whole run *)

Lemma In_firstn_seq (m : nat) :
  forall a len x, In x (firstn m (seq a len)) -> (a <= x < a + m)%nat.
Proof.
  induction m as [|m IH]; intros a len x H.
  - now rewrite firstn_0 in H.
  - destruct len as [|len]; [now destruct H|].
    cbn in H. destruct H as [<-|H]; [lia|].
    apply IH in H. lia.
Qed.

(** *** The first fields of a row *)

Lemma class_test_app (cs : list ascii) (a b : string) :
  Js.class_test cs (a ++ b) = Js.class_test cs a || Js.class_test cs b.
Proof.
  induction a as [|x a IH]; simpl; [reflexivity|].
  rewrite IH. now rewrite orb_assoc.
Qed.

Lemma digits_plain (d : Decimal.uint) :
  Js.class_test [dquote; comma; LF] (NilEmpty.string_of_uint d) = false.
Proof. induction d; simpl; auto. Qed.

Lemma dec_plain (z : Z) : Js.class_test [dquote; comma; LF] (Js.dec z) = false.
Proof.
  unfold Js.dec. destruct z as [|p|p]; [reflexivity| |].
  - simpl. unfold NilZero.string_of_uint.
    pose proof (digits_plain (Pos.to_uint p)) as H.
    destruct (Pos.to_uint p); auto.
  - simpl. unfold NilZero.string_of_uint.
    pose proof (digits_plain (Pos.to_uint p)) as H.
    destruct (Pos.to_uint p); auto.
Qed.

Lemma make_value_plain (now : Z) (i : nat) :
  Js.class_test [dquote; comma; LF] (Experiment.make_value now i) = false.
Proof.
  unfold Experiment.make_value. now rewrite !class_test_app, !dec_plain.
Qed.

Lemma esc_plain (v : Js.value) :
  Js.class_test [dquote; comma; LF] (Csv.field_text v) = false ->
  Csv.esc v = Csv.field_text v.
Proof. intros H. unfold Csv.esc. fold (Csv.field_text v). now rewrite H. Qed.


(** A row starts with the trial index, the value sent and the time
    measured, in this order, each followed by a comma. *)
Lemma make_line_fields (E : Experiment.env) (i : nat) (value : string) (ns : Z)
      (res : option Sdk.response) (errMsg : Js.value) :
  Js.class_test [dquote; comma; LF] value = false ->
  exists rest,
    Experiment.make_line (Experiment.make_row E i value ns res errMsg) =
    (Js.dec (Z.of_nat i) ++ "," ++ value ++ ","
     ++ Csv.esc (Js.Str (Experiment.toFixed E 3 ns)) ++ "," ++ rest)%string.
Proof.
  intros Hv. unfold Experiment.make_line, Experiment.header.
  set (row := Experiment.make_row E i value ns res errMsg).
  cbn [map]. do 3 rewrite join_cons.
  change (Experiment.row_get row "i") with (Js.Num (Z.of_nat i)).
  change (Experiment.row_get row "value") with (Js.Str value).
  change (Experiment.row_get row "broadcast_ms")
    with (Js.Str (Experiment.toFixed E 3 ns)).
  rewrite (esc_plain (Js.Num (Z.of_nat i))) by apply dec_plain.
  rewrite (esc_plain (Js.Str value)) by exact Hv.
  eexists. rewrite !sapp_assoc. reflexivity.
Qed.

Section RunFacts.
Variable E : Experiment.env.
Variable cfg : Experiment.config.

Let out := Experiment.OUT cfg.

Lemma trial_line_fields (i : nat) (c : Z) :
  exists rest,
    Experiment.trial_line E i c =
    (Js.dec (Z.of_nat i) ++ "," ++ Experiment.make_value (Experiment.wall E c) i ++ ","
     ++ Csv.esc (Js.Str (Experiment.toFixed E 3 (Experiment.retry_ns E i)))
     ++ "," ++ rest)%string.
Proof.
  unfold Experiment.trial_line, Experiment.trial_row.
  apply make_line_fields, make_value_plain.
Qed.



Variable contract address : string.
Variable start : Z.

Let evs := Experiment.run_events E cfg contract address start.
Let lines := Experiment.trials_lines E cfg start (seq 1 (Experiment.N cfg)).


Lemma file_after_run (init : option string) :
  Experiment.file_after out evs init =
  Some (Experiment.header_line ++ Experiment.sconcat lines)%string.
Proof.
  subst evs lines. unfold Experiment.run_events, Experiment.banner.
  cbn [app Experiment.file_after]. subst out. rewrite String.eqb_refl.
  rewrite file_after_app, file_after_trials. reflexivity.
Qed.

(** Before the header write, nothing has happened to the file or on the
    network. *)
Lemma run_prefix_early (init : option string) (n : nat) :
  (n <= 3)%nat ->
  Experiment.file_after out (firstn n evs) init = init
  /\ Experiment.appended out (firstn n evs) = []
  /\ Experiment.broadcast_trials (firstn n evs) = [].
Proof.
  intros Hn. subst evs lines. unfold Experiment.run_events, Experiment.banner.
  destruct n as [|[|[|[|m]]]]; try lia; repeat split; reflexivity.
Qed.

(** From the header write on, the file is the header and the rows of the
    trials gone through. *)
Lemma run_prefix_late (init : option string) (n : nat) :
  (3 < n)%nat ->
  exists k,
    (k <= Experiment.N cfg)%nat
    /\ Experiment.file_after out (firstn n evs) init
       = Some (Experiment.header_line ++ Experiment.sconcat (firstn k lines))%string
    /\ Experiment.appended out (firstn n evs) = firstn k lines
    /\ (forall j, In j (Experiment.broadcast_trials (firstn n evs)) ->
                  (1 <= j <= S k)%nat).
Proof.
  intros Hn. subst evs lines. unfold Experiment.run_events, Experiment.banner.
  destruct n as [|[|[|[|m]]]]; try lia.
  cbn [app firstn Experiment.file_after Experiment.appended
           Experiment.broadcast_trials].
  subst out. rewrite String.eqb_refl.
  rewrite firstn_app, file_after_app, appended_app, broadcast_trials_app.
  destruct (trials_prefix E cfg (seq 1 (Experiment.N cfg)) start m
              Experiment.header_line) as (k & Hk & Hf & Ha & Hb).
  rewrite length_seq in Hk.
  exists k. rewrite Hf, Ha.
  set (q := (m - _)%nat).
  assert (Hq : firstn q [Experiment.EvLog ("wrote: " ++ Experiment.OUT cfg)%string] = []
               \/ firstn q [Experiment.EvLog ("wrote: " ++ Experiment.OUT cfg)%string]
                  = [Experiment.EvLog ("wrote: " ++ Experiment.OUT cfg)%string]).
  { destruct q as [|[|q]]; [left|right|right]; reflexivity. }
  destruct Hq as [-> | ->]; cbn [Experiment.file_after Experiment.appended
                                   Experiment.broadcast_trials];
    rewrite !app_nil_r;
    (split; [exact Hk | split; [reflexivity | split; [reflexivity|]]]);
    intros j Hj; apply Hb, In_firstn_seq in Hj; lia.
Qed.


End RunFacts.


(** C5.  A run that gets past start-up and whose header write succeeds
    prints its three lines, none of which touches a file or the network,
    and then writes the header line, the ten column names, to the output
    file; everything else, every broadcast and every append, comes after.
    Cut within the first three events, the run has left the file as it
    was and has broadcast and appended nothing; cut anywhere later, it has
    left the header line followed by the rows of the first [k] trials, for
    some [k <= N], and nothing else, and has broadcast for trials
    [1 .. k + 1] at most. *)
Theorem header_first_then_completed_rows :
  forall (E : Experiment.env) (cfg : Experiment.config) (address : string)
         (start : Z),
    Experiment.ready E cfg address ->
    let evs := fst (Experiment.run E cfg start) in
    let lines := Experiment.trials_lines E cfg start (seq 1 (Experiment.N cfg)) in
    let head := Experiment.banner cfg (Js.env_text (Experiment.CONTRACT cfg)) address in
    Experiment.header_line
    = ("i,value,broadcast_ms,txhash,code,height,gasWanted,gasUsed,timestamp,error"
       ++ str1 LF)%string
    /\ List.length head = 3%nat
    /\ forallb (fun e => negb (Experiment.touches_file e || Experiment.is_broadcast e))
         head = true
    /\ (exists rest,
          evs = (head ++ Experiment.EvWriteFile (Experiment.OUT cfg) Experiment.header_line
                      :: rest)%list
          /\ Experiment.appended (Experiment.OUT cfg) rest = lines)
    /\ (forall init n,
          (n <= 3)%nat ->
          Experiment.file_after (Experiment.OUT cfg) (firstn n evs) init = init
          /\ Experiment.appended (Experiment.OUT cfg) (firstn n evs) = []
          /\ Experiment.broadcast_trials (firstn n evs) = [])
    /\ (forall init n,
          (3 < n)%nat ->
          exists k,
            (k <= Experiment.N cfg)%nat
            /\ Experiment.file_after (Experiment.OUT cfg) (firstn n evs) init
               = Some (Experiment.header_line
                       ++ Experiment.sconcat (firstn k lines))%string
            /\ Experiment.appended (Experiment.OUT cfg) (firstn n evs) = firstn k lines
            /\ (forall j, In j (Experiment.broadcast_trials (firstn n evs)) ->
                          (1 <= j <= S k)%nat)).
Proof.
  intros E cfg address start Hready evs lines head. subst evs.
  rewrite (run_closed E cfg address start Hready). cbn [fst].
  split; [reflexivity|].
  split; [reflexivity|].
  split; [reflexivity|].
  split.
  - unfold Experiment.run_events. fold head. eexists. split; [reflexivity|].
    rewrite appended_app, appended_trials. cbn. now rewrite app_nil_r.
  - split.
    + intros init n Hn. now apply run_prefix_early.
    + intros init n Hn. now apply run_prefix_late.
Qed.

(** C10.  The row a trial appends carries, as its third field, under the
    column [broadcast_ms], the difference between the clock after the
    retry loop and the clock before it, formatted to three decimals; this
    difference is the time of every attempt made plus every back-off
    sleep, not the time of the successful call alone. *)
Theorem broadcast_ms_spans_the_retry_loop :
  forall (E : Experiment.env) (cfg : Experiment.config) (i : nat) (c : Z),
    let value := Experiment.make_value (Experiment.wall E c) i in
    let loop := Experiment.retry_loop E i value c in
    nth 2 Experiment.header EmptyString = "broadcast_ms"%string
    /\ (exists line rest tail,
          line = (Js.dec (Z.of_nat i) ++ "," ++ value ++ ","
                  ++ Csv.esc (Js.Str (Experiment.toFixed E 3 (Rt.clock loop - c)))
                  ++ "," ++ rest)%string
          /\ Rt.events (Experiment.trial E cfg i c)
             = (Rt.events loop
                ++ Experiment.EvAppendFile (Experiment.OUT cfg) line :: tail)%list
          /\ Experiment.appended (Experiment.OUT cfg)
               (Rt.events (Experiment.trial E cfg i c)) = [line])
    /\ Rt.clock loop - c
       = Experiment.total
           (map (fun a =>
                   Experiment.latency E i a
                   + match Experiment.net E i a with
                     | inl e =>
                         Experiment.sleep_ns E
                           (Experiment.backoff_ms
                              (Experiment.classify (Experiment.err_message e)) a)
                     | inr _ => 0
                     end)
              (Experiment.attempts_made E i [1; 2; 3]%nat)).
Proof.
  intros E cfg i c value loop. subst loop.
  rewrite trial_closed, retry_loop_closed. unfold Rt.events, Rt.clock. cbn [fst snd].
  replace (c + Experiment.retry_ns E i - c) with (Experiment.retry_ns E i) by lia.
  split; [reflexivity|].
  split.
  - destruct (trial_line_fields E i c) as (rest & Hline).
    exists (Experiment.trial_line E i c), rest. eexists.
    split; [exact Hline|].
    split; [unfold Experiment.trial_events; reflexivity|].
    apply appended_trial.
  - unfold Experiment.retry_ns. f_equal. apply map_ext. intros a.
    unfold Experiment.attempt_ns, Experiment.delay_after.
    now destruct (Experiment.net E i a).
Qed.

(** ** The broadcast worker *)

Section WorkerFacts.
Variable E : Worker.env.
Variable cfg : Worker.config.
Variable stdin : string.
Variable start : Z.

Let contract := Js.env_text (Worker.CONTRACT cfg).
Let mnemonic := Js.env_text (Worker.MNEMONIC cfg).
Let configured :=
  Js.env_missing (Worker.CONTRACT cfg) || Js.env_missing (Worker.MNEMONIC cfg) = false.

(** [readStdin] throws on empty input and on input that does not parse. *)
Lemma readStdin_cases :
  (Js.trim stdin = EmptyString
   /\ Worker.readStdin E stdin start
      = (inl (Js.Error "stdin is empty (expected JSON)"), [], start))
  \/ (Js.trim stdin <> EmptyString
      /\ exists e, Worker.json_parse E (Js.trim stdin) = inl e
                   /\ Worker.readStdin E stdin start = (inl e, [], start))
  \/ (Js.trim stdin <> EmptyString
      /\ exists j, Worker.json_parse E (Js.trim stdin) = inr j
                   /\ Worker.readStdin E stdin start = (inr j, [], start)).
Proof.
  unfold Worker.readStdin.
  destruct (Js.trim stdin) as [|a s] eqn:Ht; cbn [Js.is_empty].
  - left. split; reflexivity.
  - right. destruct (Worker.json_parse E (String a s)) as [e|j] eqn:Hp.
    + left. split; [discriminate|]. exists e. split; reflexivity.
    + right. split; [discriminate|]. exists j. split; reflexivity.
Qed.

(** The four ways an invocation can go. *)
Lemma worker_run_cases :
  (configured -> False) /\ Worker.run E cfg stdin start
    = ([Worker.EvStderr "Error: Missing env: CONTRACT, MNEMONIC"], 1)
  \/ configured /\ (exists e,
       Worker.run E cfg stdin start
       = ([Worker.EvStdout (Worker.failure_document e)], 1))
  \/ configured /\ (exists value memo e,
       Worker.net E value memo = inl e
       /\ Worker.run E cfg stdin start
          = ([Worker.EvBroadcast value memo;
              Worker.EvStdout (Worker.failure_document e)], 1))
  \/ configured /\ (exists value memo address res,
       Worker.net E value memo = inr res
       /\ Worker.run E cfg stdin start
          = ([Worker.EvBroadcast value memo;
              Worker.EvStdout
                (Worker.success_document E contract address value res
                   (Worker.latency E value memo))], 0)).
Proof.
  subst configured contract mnemonic.
  remember (Worker.run E cfg stdin start) as r eqn:Hrun.
  unfold Worker.run in Hrun.
  destruct (Js.env_missing (Worker.CONTRACT cfg)
            || Js.env_missing (Worker.MNEMONIC cfg)).
  { left. split; [discriminate | assumption]. }
  right. unfold Worker.main_caught, Worker.main in Hrun.
  unfold Rt.bind at 1 in Hrun.
  destruct readStdin_cases as [(_ & Hr)|[(_ & e & _ & Hr)|(_ & j & _ & Hr)]];
    rewrite Hr in Hrun.
  - left. split; [reflexivity|]. subst r. now eexists.
  - left. split; [reflexivity|]. subst r. now eexists.
  - destruct j as [|v m].
    + left. split; [reflexivity|]. subst r. unfold Rt.bind, Rt.throw. now eexists.
    + unfold Rt.bind at 1 in Hrun. unfold Rt.ret at 1 in Hrun. cbn [fst snd] in Hrun.
      destruct v as [| |b|z|value|t];
        try (left; split; [reflexivity|]; subst r; unfold Rt.throw; now eexists).
      destruct (Js.utf16_length value =? 0).
      { left. split; [reflexivity|]. subst r. unfold Rt.throw. now eexists. }
      unfold Rt.bind at 1 in Hrun.
      destruct (Worker.derive E (Js.env_text (Worker.MNEMONIC cfg))) as [e|address].
      { left. split; [reflexivity|]. subst r. unfold Rt.throw. now eexists. }
      unfold Rt.ret at 1 in Hrun. unfold Rt.bind at 1 in Hrun.
      unfold Rt.nowNs at 1 in Hrun.
      unfold Rt.bind at 1 in Hrun. unfold Worker.broadcast, Rt.await in Hrun.
      destruct (Worker.net E value
                  (Js.nullish m (Js.Str "set_value from python"))) as [e|res] eqn:Hnet.
      * right; left. split; [reflexivity|].
        exists value, (Js.nullish m (Js.Str "set_value from python")), e.
        split; [assumption | subst r; reflexivity].
      * right; right. split; [reflexivity|].
        exists value, (Js.nullish m (Js.Str "set_value from python")), address, res.
        split; [assumption|]. subst r.
        unfold Rt.bind, Rt.nowNs, Worker.stdout_write, Rt.emit. cbn [app].
        replace (start + Worker.latency E value
                           (Js.nullish m (Js.Str "set_value from python")) - start)
          with (Worker.latency E value (Js.nullish m (Js.Str "set_value from python")))
          by lia.
        reflexivity.
Qed.

End WorkerFacts.

Lemma failure_document_not_ok (e : Js.exn) :
  Worker.get (Worker.failure_document e) "ok" = Js.Bool false.
Proof. reflexivity. Qed.

Lemma truthy_or_else (a b : Js.value) :
  Js.truthy (Js.or_else a b) = Js.truthy a || Js.truthy b.
Proof. unfold Js.or_else. now destruct (Js.truthy a) eqn:Ha. Qed.

(** C2, as the code has it.  With the configuration present, an empty or
    unparseable input is a handled failure: the worker writes exactly one
    [{ok: false, error}] document, whose [error] is the message of what
    [readStdin] threw, and exits with status 1.  A non-zero exit without
    any output happens only when the start-up check on the configuration
    fails; every other non-zero exit comes with one [{ok: false, ...}]
    document. *)
Theorem unusable_input_is_a_handled_failure :
  forall (E : Worker.env) (cfg : Worker.config) (stdin : string) (start : Z),
    Js.env_missing (Worker.CONTRACT cfg) || Js.env_missing (Worker.MNEMONIC cfg) = false ->
    Worker.unusable E stdin ->
    (exists e,
        Worker.run E cfg stdin start = ([Worker.EvStdout (Worker.failure_document e)], 1)
        /\ Worker.stdout_of (fst (Worker.run E cfg stdin start))
           = [Worker.failure_document e]
        /\ Worker.get (Worker.failure_document e) "ok" = Js.Bool false
        /\ (Js.trim stdin = EmptyString -> e = Js.Error "stdin is empty (expected JSON)")
        /\ (Js.trim stdin <> EmptyString ->
            Worker.json_parse E (Js.trim stdin) = inl e))
    /\ (forall cfg' stdin' start',
          snd (Worker.run E cfg' stdin' start') <> 0 ->
          (Worker.stdout_of (fst (Worker.run E cfg' stdin' start')) = []
           /\ Js.env_missing (Worker.CONTRACT cfg')
              || Js.env_missing (Worker.MNEMONIC cfg') = true)
          \/ (exists e,
                Worker.stdout_of (fst (Worker.run E cfg' stdin' start'))
                = [Worker.failure_document e]
                /\ Js.env_missing (Worker.CONTRACT cfg')
                   || Js.env_missing (Worker.MNEMONIC cfg') = false)).
Proof.
  intros E cfg stdin start Hcfg Hbad. split.
  - assert (H : exists e,
               Worker.run E cfg stdin start
               = ([Worker.EvStdout (Worker.failure_document e)], 1)
               /\ (Js.trim stdin = EmptyString ->
                   e = Js.Error "stdin is empty (expected JSON)")
               /\ (Js.trim stdin <> EmptyString ->
                   Worker.json_parse E (Js.trim stdin) = inl e)).
    { unfold Worker.run. rewrite Hcfg. unfold Worker.main_caught, Worker.main.
      unfold Rt.bind at 1.
      destruct (readStdin_cases E stdin start)
        as [(Ht & Hr)|[(Ht & e & Hp & Hr)|(Ht & j & Hp & Hr)]]; rewrite Hr.
      + exists (Js.Error "stdin is empty (expected JSON)").
        split; [reflexivity|]. split; [reflexivity|]. intros H. now destruct H.
      + exists e. split; [reflexivity|].
        split; [|intros _; assumption]. intros H. now destruct Ht.
      + exfalso. destruct Hbad as [H|(e & H)]; [now apply Ht | congruence]. }
    destruct H as (e & Hrun & H1 & H2). exists e. rewrite Hrun.
    split; [reflexivity|]. split; [reflexivity|]. split; [reflexivity|].
    split; assumption.
  - intros cfg' stdin' start' Hexit.
    destruct (worker_run_cases E cfg' stdin' start')
      as [(Hc & Hr)|[(Hc & e & Hr)|[(Hc & v & m & e & _ & Hr)|(Hc & v & m & a & r & _ & Hr)]]];
      rewrite Hr in Hexit |- *; cbn [fst snd Worker.stdout_of] in *.
    + left. split; [reflexivity|].
      destruct (Js.env_missing (Worker.CONTRACT cfg')
                || Js.env_missing (Worker.MNEMONIC cfg')); [reflexivity|].
      exfalso. now apply Hc.
    + right. exists e. now split.
    + right. exists e. now split.
    + now destruct Hexit.
Qed.

(** On empty input, and on input that does not parse, the worker does
    write a document before it exits. *)
Lemma empty_input_is_answered_on_stdout :
  Worker.run (Worker.sample_env Worker.hashless_response) Worker.sample_config
    EmptyString 0
  = ([Worker.EvStdout [ ("ok", Js.Bool false);
                        ("error", Js.Str "stdin is empty (expected JSON)") ]], 1)
  /\ Worker.run (Worker.sample_env Worker.hashless_response) Worker.sample_config
       "{" 0
     = ([Worker.EvStdout [ ("ok", Js.Bool false);
                           ("error", Js.Str "Unexpected end of JSON input") ]], 1)
  /\ Worker.stdout_of
       (fst (Worker.run (Worker.sample_env Worker.hashless_response)
               Worker.sample_config EmptyString 0)) <> [].
Proof. repeat split. discriminate. Qed.

(** C3, as the code has it.  A document with [ok = true] comes from a
    broadcast that resolved, and its [txhash] is the response's [txhash]
    when that is truthy, else its [txHash] when that is truthy, else the
    empty string; so it is non-empty exactly when the response carried a
    hash under one of the two names. *)
Theorem ok_document_txhash :
  forall (E : Worker.env) (cfg : Worker.config) (stdin : string) (start : Z)
         (doc : Worker.document),
    In doc (Worker.stdout_of (fst (Worker.run E cfg stdin start))) ->
    Worker.get doc "ok" = Js.Bool true ->
    exists value memo res,
      Worker.net E value memo = inr res
      /\ snd (Worker.run E cfg stdin start) = 0
      /\ Worker.get doc "txhash"
         = Js.or_else (Js.or_else (Sdk.r_txhash res) (Sdk.r_txHash res))
             (Js.Str EmptyString)
      /\ Js.truthy (Worker.get doc "txhash")
         = Js.truthy (Sdk.r_txhash res) || Js.truthy (Sdk.r_txHash res).
Proof.
  intros E cfg stdin start doc Hin Hok.
  destruct (worker_run_cases E cfg stdin start)
    as [(Hc & Hr)|[(Hc & e & Hr)|[(Hc & v & m & e & _ & Hr)|(Hc & v & m & a & r & Hn & Hr)]]];
    rewrite Hr in Hin |- *; cbn [fst snd Worker.stdout_of] in Hin |- *.
  - now destruct Hin.
  - destruct Hin as [<-|[]]. rewrite failure_document_not_ok in Hok. discriminate.
  - destruct Hin as [<-|[]]. rewrite failure_document_not_ok in Hok. discriminate.
  - destruct Hin as [<-|[]]. exists v, m, r.
    split; [assumption|]. split; [reflexivity|]. split; [reflexivity|].
    change (Worker.get (Worker.success_document E _ a v r _) "txhash")
      with (Js.or_else (Js.or_else (Sdk.r_txhash r) (Sdk.r_txHash r)) (Js.Str EmptyString)).
    rewrite !truthy_or_else. cbn. now rewrite orb_false_r.
Qed.

(** A response without a hash still yields [ok = true], with an empty
    [txhash]. *)
Lemma ok_document_with_empty_txhash :
  Worker.stdout_of
    (fst (Worker.run (Worker.sample_env Worker.hashless_response) Worker.sample_config
            Worker.sample_request 0))
  = [ Worker.success_document (Worker.sample_env Worker.hashless_response)
        "inj1contract" "inj1sample" "pi-exp-1700000000-1"
        Worker.hashless_response 842100000 ]
  /\ Worker.get
       (Worker.success_document (Worker.sample_env Worker.hashless_response)
          "inj1contract" "inj1sample" "pi-exp-1700000000-1"
          Worker.hashless_response 842100000) "ok" = Js.Bool true
  /\ Worker.get
       (Worker.success_document (Worker.sample_env Worker.hashless_response)
          "inj1contract" "inj1sample" "pi-exp-1700000000-1"
          Worker.hashless_response 842100000) "txhash" = Js.Str EmptyString.
Proof. repeat split. Qed.

(** ** Confirmation polling *)

Section PollFacts.
Variable E : Execute.env.
Variable newValue : string.

Lemma poll_from_closed (fuel : nat) :
  forall i c,
    Execute.poll_from E newValue fuel i c =
    (Execute.poll_result E newValue (seq i (Nat.min fuel (45 - i))),
     flat_map (Execute.poll_step_events E newValue)
       (Execute.polls_made E newValue (seq i (Nat.min fuel (45 - i)))),
     c + Execute.total
           (map (Execute.poll_step_ns E newValue)
              (Execute.polls_made E newValue (seq i (Nat.min fuel (45 - i)))))).
Proof.
  induction fuel as [|fuel IH]; intros i c.
  - simpl. unfold Rt.ret. now rewrite Z.add_0_r.
  - cbn [Execute.poll_from].
    destruct (i <? 45)%nat eqn:Hi.
    + apply Nat.ltb_lt in Hi.
      replace (Nat.min (S fuel) (45 - i)) with (S (Nat.min fuel (45 - S i))) by lia.
      cbn [seq Execute.poll_result Execute.polls_made].
      unfold Execute.stops.
      unfold Rt.bind at 1. unfold Execute.queryValue, Rt.await.
      destruct (Execute.query E i) as [e|v] eqn:Hq.
      * cbn [flat_map map Execute.total app].
        unfold Execute.poll_step_events, Execute.poll_step_ns, Execute.stops.
        rewrite Hq. cbn [app]. f_equal. lia.
      * destruct (Js.strict_eq_str (Execute.observed v) newValue) eqn:Hm.
        -- unfold Rt.bind, Execute.console_log, Rt.emit, Rt.ret.
           cbn [flat_map map Execute.total app].
           unfold Execute.poll_step_events, Execute.poll_step_ns, Execute.stops.
           rewrite Hq, Hm. cbn [app]. f_equal. lia.
        -- unfold Rt.bind at 1. unfold Execute.console_log, Rt.emit.
           unfold Rt.bind at 1. unfold Execute.sleep at 1, Rt.await.
           rewrite IH.
           cbn [flat_map map Execute.total app].
           unfold Execute.poll_step_events at 2, Execute.poll_step_ns at 2, Execute.stops.
           rewrite Hq, Hm. cbn [app]. f_equal. lia.
    + apply Nat.ltb_ge in Hi.
      replace (Nat.min (S fuel) (45 - i)) with O by lia.
      simpl. unfold Rt.ret. now rewrite Z.add_0_r.
Qed.

Lemma polls_made_short (l : list nat) :
  (List.length (Execute.polls_made E newValue l) <= List.length l)%nat.
Proof.
  induction l as [|i l IH]; [reflexivity|].
  cbn. destruct (Execute.stops E newValue i); cbn; lia.
Qed.

Lemma queries_of_polls (l : list nat) :
  List.length (filter Execute.is_query
                 (flat_map (Execute.poll_step_events E newValue) l))
  = List.length l.
Proof.
  induction l as [|i l IH]; [reflexivity|].
  cbn [flat_map]. rewrite filter_app, length_app, IH.
  unfold Execute.poll_step_events.
  destruct (Execute.query E i) as [e|v]; [reflexivity|].
  now destruct (Js.strict_eq_str (Execute.observed v) newValue).
Qed.

Lemma polls_are_reads (l : list nat) :
  forallb (fun e => negb (Execute.is_broadcast e) && Execute.sleeps_2000 e)
    (flat_map (Execute.poll_step_events E newValue) l) = true.
Proof.
  induction l as [|i l IH]; [reflexivity|].
  cbn [flat_map]. rewrite forallb_app, IH, andb_true_r.
  unfold Execute.poll_step_events.
  destruct (Execute.query E i) as [e|v]; [reflexivity|].
  now destruct (Js.strict_eq_str (Execute.observed v) newValue).
Qed.

(** [===] against a string holds of that string and of nothing else. *)
Lemma strict_eq_str_spec (v : Js.value) (s : string) :
  Js.strict_eq_str v s = true <-> v = Js.Str s.
Proof.
  destruct v as [| |b|z|t|t]; cbn; try (split; [discriminate | discriminate]).
  rewrite String.eqb_eq. split; [now intros -> | now intros [= ->]].
Qed.

Lemma misses_test (i : nat) :
  Execute.misses E newValue i ->
  exists v, Execute.query E i = inr v
            /\ Js.strict_eq_str (Execute.observed v) newValue = false.
Proof.
  intros (v & Hq & Hv). exists v. split; [exact Hq|].
  destruct (Js.strict_eq_str (Execute.observed v) newValue) eqn:Ht; [|reflexivity].
  now apply strict_eq_str_spec in Ht.
Qed.

Lemma hits_test (i : nat) :
  Execute.hits E newValue i ->
  exists v, Execute.query E i = inr v
            /\ Js.strict_eq_str (Execute.observed v) newValue = true.
Proof.
  intros (v & Hq & Hv). exists v. split; [exact Hq|].
  now apply strict_eq_str_spec.
Qed.

(** Misses all along: every iteration is made and the verdict is open. *)
Lemma polls_all_miss (l : list nat) :
  (forall i, In i l -> Execute.misses E newValue i) ->
  Execute.polls_made E newValue l = l
  /\ Execute.poll_result E newValue l = inr Execute.NotConfirmed.
Proof.
  induction l as [|i l IH]; intros H; [split; reflexivity|].
  destruct (misses_test i (H i (or_introl eq_refl))) as (v & Hq & Hm).
  destruct IH as (IH1 & IH2); [intros j Hj; apply H; now right|].
  cbn. unfold Execute.stops. rewrite Hq, Hm, IH1, IH2. now split.
Qed.

(** Misses, then a hit: the loop stops there, confirmed. *)
Lemma polls_until_hit (l : list nat) (k : nat) (rest : list nat) :
  (forall i, In i l -> Execute.misses E newValue i) ->
  Execute.hits E newValue k ->
  Execute.polls_made E newValue (l ++ k :: rest) = l ++ [k]
  /\ Execute.poll_result E newValue (l ++ k :: rest) = inr Execute.Confirmed.
Proof.
  intros Hl Hk. destruct (hits_test k Hk) as (v & Hq & Hm).
  induction l as [|i l IH].
  - cbn. unfold Execute.stops. rewrite Hq, Hm. now split.
  - destruct (misses_test i (Hl i (or_introl eq_refl))) as (w & Hqi & Hmi).
    destruct IH as (IH1 & IH2); [intros j Hj; apply Hl; now right|].
    cbn. unfold Execute.stops. rewrite Hqi, Hmi, IH1, IH2. now split.
Qed.

End PollFacts.

(** C7.  The confirmation loop makes at most 45 queries, however long it
    were allowed to run; it only queries, logs and sleeps, each sleep being
    one of 2000 ms, and never broadcasts; when the values read by the first
    [k] queries are not the expected string and the value read by the next
    one is, the loop stops there, confirmed, after [k + 1] queries; and
    when none of the 45 values read is the expected string it ends, not
    confirmed and without an exception, after 45 queries. *)
Theorem confirmation_poll_is_bounded_and_read_only :
  forall (E : Execute.env) (newValue : string) (c : Z),
    let run := Execute.poll E newValue c in
    (List.length (filter Execute.is_query (Rt.events run)) <= 45)%nat
    /\ forallb (fun e => negb (Execute.is_broadcast e) && Execute.sleeps_2000 e)
         (Rt.events run) = true
    /\ (forall fuel, (45 <= fuel)%nat -> Execute.poll_from E newValue fuel 0 c = run)
    /\ (forall k,
          (k < 45)%nat ->
          (forall i, (i < k)%nat -> Execute.misses E newValue i) ->
          Execute.hits E newValue k ->
          Rt.outcome run = inr Execute.Confirmed
          /\ Rt.events run
             = flat_map (Execute.poll_step_events E newValue) (seq 0 (S k))
          /\ List.length (filter Execute.is_query (Rt.events run)) = S k)
    /\ ((forall i, (i < 45)%nat -> Execute.misses E newValue i) ->
        Rt.outcome run = inr Execute.NotConfirmed
        /\ Rt.events run = flat_map (Execute.poll_step_events E newValue) (seq 0 45)
        /\ List.length (filter Execute.is_query (Rt.events run)) = 45%nat).
Proof.
  intros E newValue c run. subst run. unfold Execute.poll.
  rewrite poll_from_closed. unfold Rt.events, Rt.outcome. cbn [fst snd].
  replace (Nat.min 45 (45 - 0)) with 45%nat by reflexivity.
  split; [|split; [|split; [|split]]].
  - rewrite queries_of_polls.
    pose proof (polls_made_short E newValue (seq 0 45)) as H.
    rewrite length_seq in H. exact H.
  - apply polls_are_reads.
  - intros fuel Hf. rewrite poll_from_closed.
    now replace (Nat.min fuel (45 - 0)) with 45%nat by lia.
  - intros k Hk Hmiss Hhit.
    replace 45%nat with (k + S (44 - k))%nat by lia.
    rewrite seq_app. cbn [seq Nat.add].
    destruct (polls_until_hit E newValue (seq 0 k) k (seq (S k) (44 - k))) as (H1 & H2).
    { intros i Hi. apply in_seq in Hi. apply Hmiss. lia. }
    { exact Hhit. }
    rewrite H1, H2.
    replace (seq 0 k ++ [k]) with (seq 0 (S k)) by (now rewrite seq_S).
    split; [reflexivity|]. split; [reflexivity|].
    now rewrite queries_of_polls, length_seq.
  - intros Hmiss.
    destruct (polls_all_miss E newValue (seq 0 45)) as (H1 & H2).
    { intros i Hi. apply in_seq in Hi. apply Hmiss. lia. }
    rewrite H1, H2.
    split; [reflexivity|]. split; [reflexivity|].
    now rewrite queries_of_polls, length_seq.
Qed.

(** ** Worked scenarios *)

(** The broadcast succeeds at once: one row, no error text. *)
Example first_attempt_success_row :
  Experiment.appended "timings.csv"
    (fst (Experiment.run
            (Experiment.sample_env (fun _ _ => inr Experiment.sample_response))
            (Experiment.sample_config 1) 0))
  = [ ("1,pi-exp-1700000000000-1,842.100,ABC123,0,51234,200000,151234,"
       ++ "2024-01-01T00:00:00Z," ++ str1 LF)%string ].
Proof. reflexivity. Qed.

(** Two sequence mismatches, then success: 1200 ms and 2400 ms of back-off. *)
Example sequence_mismatch_backs_off :
  Experiment.retry_loop (Experiment.sample_env Experiment.third_time_lucky)
    1 "pi-exp-1700000000000-1" 0
  = (inr (Some Experiment.sample_response, Js.Str EmptyString),
     [ Experiment.EvBroadcast 1 1 "pi-exp-1700000000000-1" "pi-exp #1";
       Experiment.EvSleep 1200;
       Experiment.EvBroadcast 1 2 "pi-exp-1700000000000-1" "pi-exp #1";
       Experiment.EvSleep 2400;
       Experiment.EvBroadcast 1 3 "pi-exp-1700000000000-1" "pi-exp #1" ],
     3 * 842100000 + 3600 * 1000000).
Proof. reflexivity. Qed.

(** An output path that cannot be opened: the three start-up lines, then
    the error; no trial is run. *)
Example empty_output_path_stops_the_run :
  Experiment.run (Experiment.sample_env Experiment.third_time_lucky)
    {| Experiment.CONTRACT := Some "inj1contract";
       Experiment.MNEMONIC := Some "word word word";
       Experiment.N := 1; Experiment.SLEEP_MS := 0; Experiment.OUT := EmptyString |} 0
  = ([ Experiment.EvLog "injectiveAddress: inj1sample";
       Experiment.EvLog "contract: inj1contract";
       Experiment.EvLog "N=1 SLEEP_MS=0 OUT=";
       Experiment.EvError "Error: ENOENT: no such file or directory, open ''" ], 1).
Proof. reflexivity. Qed.

(** Three timeouts: the row carries the last message and empty fields, and
    the measured time includes the three sleeps. *)
Example all_timeouts_row :
  Experiment.appended "timings.csv"
    (fst (Experiment.run (Experiment.sample_env Experiment.always_timeout)
            (Experiment.sample_config 1) 0))
  = [ ("1,pi-exp-1700000000000-1,4926.300,,,,,,,timeout" ++ str1 LF)%string ].
Proof. reflexivity. Qed.

Example classify_samples :
  Experiment.classify (Js.Str "Account Sequence mismatch, expected 12")
  = Experiment.TransientSequenceError
  /\ Experiment.classify (Js.Str "signature is INCORRECT")
     = Experiment.TransientSequenceError
  /\ Experiment.classify (Js.Str "timeout") = Experiment.OtherTransientError
  /\ Experiment.classify (Experiment.err_message (Js.ExnPrim Js.Null))
     = Experiment.OtherTransientError.
Proof. repeat split. Qed.

(** With the [g] flag the same pattern would answer differently the second
    time: the flags of the source pattern matter. *)
Example global_pattern_is_stateful :
  let r := Js.with_lastIndex
             {| Js.alternatives := ["sequence"]; Js.ignoreCase := true;
                Js.global := true; Js.sticky := false; Js.lastIndex := 0 |} 0 in
  fst (Js.test r "sequence") = true
  /\ fst (Js.test (snd (Js.test r "sequence")) "sequence") = false.
Proof. split; reflexivity. Qed.

Example esc_samples :
  Csv.esc (Js.Str "plain") = "plain"
  /\ Csv.esc (Js.Str "a,b") = (str1 dquote ++ "a,b" ++ str1 dquote)%string
  /\ Csv.esc (Js.Str ("say " ++ str1 dquote ++ "hi" ++ str1 dquote))
     = (str1 dquote ++ "say " ++ str1 dquote ++ str1 dquote ++ "hi"
        ++ str1 dquote ++ str1 dquote ++ str1 dquote)%string
  /\ Csv.esc (Js.Num 51234) = "51234"
  /\ Csv.esc Js.Undefined = EmptyString.
Proof. repeat split. Qed.

Example trim_samples :
  Js.trim (Js.bytes [32; 9; 123; 125; 13; 10]%nat) = "{}"
  /\ Js.trim (Js.bytes [239; 187; 191; 32; 226; 128; 168]%nat) = EmptyString.
Proof. split; reflexivity. Qed.

(** The new value shows at the fourth query: confirmed after four queries
    and three sleeps. *)
Example poll_confirms_at_fourth_query :
  let run := Execute.poll (Execute.sample_env (Execute.there_at 3 "new")) "new" 0 in
  Rt.outcome run = inr Execute.Confirmed
  /\ List.length (filter Execute.is_query (Rt.events run)) = 4%nat
  /\ Rt.clock run = 4 * 150000000 + 3 * 2000 * 1000000.
Proof. repeat split. Qed.

Example poll_gives_up_after_45_queries :
  let run := Execute.poll (Execute.sample_env Execute.never_there) "new" 0 in
  Rt.outcome run = inr Execute.NotConfirmed
  /\ List.length (filter Execute.is_query (Rt.events run)) = 45%nat
  /\ Rt.clock run = 45 * (150000000 + 2000 * 1000000).
Proof. repeat split. Qed.

(** ** The theorems at concrete inputs *)

Lemma payload_values_distinct_witness :
  1%nat <> 2%nat
  /\ Experiment.make_value 1700000000000 1 <> Experiment.make_value 1700000000000 2.
Proof.
  assert (H : 1%nat <> 2%nat) by discriminate.
  split; [exact H|].
  destruct (payload_values_distinct
              (Experiment.sample_env Experiment.always_timeout) 1 2 0 0 H)
    as (vi & vj & _ & _ & Hi & Hj & Hd).
  rewrite Hi, Hj in Hd. exact Hd.
Defined.


Lemma header_first_then_completed_rows_witness :
  let E := Experiment.sample_env Experiment.third_time_lucky in
  let cfg := Experiment.sample_config 2 in
  Experiment.ready E cfg "inj1sample"
  /\ (exists rest,
        fst (Experiment.run E cfg 0)
        = (Experiment.banner cfg "inj1contract" "inj1sample"
           ++ Experiment.EvWriteFile "timings.csv" Experiment.header_line :: rest)%list)
  /\ (forall init n,
        (3 < n)%nat ->
        exists k,
          (k <= 2)%nat
          /\ Experiment.file_after "timings.csv" (firstn n (fst (Experiment.run E cfg 0))) init
             = Some (Experiment.header_line
                     ++ Experiment.sconcat
                          (firstn k (Experiment.trials_lines E cfg 0 [1; 2]%nat)))%string).
Proof.
  intros E cfg.
  assert (H : Experiment.ready E cfg "inj1sample") by (repeat split; reflexivity).
  split; [exact H|].
  destruct (header_first_then_completed_rows E cfg "inj1sample" 0 H)
    as (_ & _ & _ & (rest & Hevs & _) & _ & Hlate).
  split; [exists rest; exact Hevs|].
  intros init n Hn. destruct (Hlate init n Hn) as (k & Hk & Hf & _).
  exists k. split; [exact Hk | exact Hf].
Defined.

Lemma esc_quotes_exactly_and_round_trips_witness :
  let texts := ["a,b"; "x" ++ str1 CR ++ str1 LF; EmptyString]%string in
  (forall t, In t texts ->
             Csv.occurs CR t ->
             Csv.occurs comma t \/ Csv.occurs dquote t \/ Csv.occurs LF t)
  /\ Csv.read_record
       (Js.join "," (map Csv.esc [Js.Str "a,b"; Js.Str ("x" ++ str1 CR ++ str1 LF); Js.Null])
        ++ String LF "rest")
     = Some (texts, "rest"%string).
Proof.
  intros texts.
  assert (H : forall t, In t texts ->
                        Csv.occurs CR t ->
                        Csv.occurs comma t \/ Csv.occurs dquote t \/ Csv.occurs LF t).
  { intros t Ht Hcr. cbn in Ht. destruct Ht as [<-|[<-|[<-|[]]]].
    - left. cbn. right. now left.
    - right. right. cbn. right. right. now left.
    - now cbn in Hcr. }
  split; [exact H|].
  exact (proj2 (proj2 (proj2 (proj2 (proj2 esc_quotes_exactly_and_round_trips))))
           (Js.Str "a,b") [Js.Str ("x" ++ str1 CR ++ str1 LF); Js.Null] "rest"%string H).
Defined.

Lemma confirmation_poll_is_bounded_and_read_only_witness :
  let E := Execute.sample_env (Execute.there_at 3 "new") in
  (3 < 45)%nat
  /\ (forall i, (i < 3)%nat -> Execute.misses E "new" i)
  /\ Execute.hits E "new" 3
  /\ Rt.outcome (Execute.poll E "new" 0) = inr Execute.Confirmed
  /\ List.length (filter Execute.is_query (Rt.events (Execute.poll E "new" 0))) = 4%nat.
Proof.
  intros E.
  assert (Hk : (3 < 45)%nat) by lia.
  assert (Hm : forall i, (i < 3)%nat -> Execute.misses E "new" i).
  { intros [|[|[|i]]] Hi; try lia; eexists; (split; [reflexivity | discriminate]). }
  assert (Hh : Execute.hits E "new" 3) by (eexists; split; reflexivity).
  split; [exact Hk|]. split; [exact Hm|]. split; [exact Hh|].
  destruct (proj1 (proj2 (proj2 (proj2 (confirmation_poll_is_bounded_and_read_only
                                          E "new" 0)))) 3%nat Hk Hm Hh)
    as (Hout & _ & Hlen).
  split; [exact Hout | exact Hlen].
Defined.

Lemma unusable_input_is_a_handled_failure_witness :
  Js.env_missing (Worker.CONTRACT Worker.sample_config)
  || Js.env_missing (Worker.MNEMONIC Worker.sample_config) = false
  /\ Worker.unusable (Worker.sample_env Worker.hashless_response) "{"
  /\ exists e,
       Worker.run (Worker.sample_env Worker.hashless_response) Worker.sample_config "{" 0
       = ([Worker.EvStdout (Worker.failure_document e)], 1).
Proof.
  assert (Hc : Js.env_missing (Worker.CONTRACT Worker.sample_config)
               || Js.env_missing (Worker.MNEMONIC Worker.sample_config) = false)
    by reflexivity.
  assert (Hu : Worker.unusable (Worker.sample_env Worker.hashless_response) "{")
    by (right; exists Worker.syntax_error; reflexivity).
  split; [exact Hc|]. split; [exact Hu|].
  destruct (proj1 (unusable_input_is_a_handled_failure
                     (Worker.sample_env Worker.hashless_response)
                     Worker.sample_config "{" 0 Hc Hu)) as (e & He & _).
  exists e. exact He.
Defined.

Lemma ok_document_txhash_witness :
  let E := Worker.sample_env Experiment.sample_response in
  let doc := Worker.success_document E "inj1contract" "inj1sample"
               "pi-exp-1700000000-1" Experiment.sample_response 842100000 in
  In doc (Worker.stdout_of (fst (Worker.run E Worker.sample_config
                                   Worker.sample_request 0)))
  /\ Worker.get doc "ok" = Js.Bool true
  /\ Js.truthy (Worker.get doc "txhash") = true.
Proof.
  intros E doc.
  assert (Hin : In doc (Worker.stdout_of (fst (Worker.run E Worker.sample_config
                                                 Worker.sample_request 0))))
    by (left; reflexivity).
  assert (Hok : Worker.get doc "ok" = Js.Bool true) by reflexivity.
  split; [exact Hin|]. split; [exact Hok|].
  destruct (ok_document_txhash E Worker.sample_config Worker.sample_request 0 doc Hin Hok)
    as (value & memo & res & Hnet & _ & _ & Ht).
  rewrite Ht. injection Hnet as <-. reflexivity.
Defined.

(** * Further properties of the scripts *)

(** ** The output file as a CSV document *)

Section FileFacts.
Variable E : Experiment.env.
Variable cfg : Experiment.config.

Lemma read_record_line (row : list (string * Js.value)) (rest : string) :
  forallb Csv.reads_back (Experiment.row_texts row) = true ->
  Csv.read_record (Experiment.make_line row ++ rest)%string =
  Some (Experiment.row_texts row, rest).
Proof.
  unfold Experiment.make_line, Experiment.row_texts, Csv.read_record.
  intros Hb.
  change (map (fun k => Csv.esc (Experiment.row_get row k)) Experiment.header)
    with (map Csv.esc (Experiment.row_get row "i"
                         :: map (Experiment.row_get row) (tl Experiment.header))).
  rewrite sapp_assoc. change (str1 LF ++ rest)%string with (String LF rest).
  rewrite parse_row; [reflexivity | exact Hb].
Qed.

Lemma read_record_header (rest : string) :
  Csv.read_record (Experiment.header_line ++ rest)%string =
  Some (Experiment.header, rest).
Proof.
  unfold Experiment.header_line, Csv.read_record.
  change (Js.join "," Experiment.header)
    with (Js.join "," (map Csv.esc (Js.Str "i" :: map Js.Str (tl Experiment.header)))).
  rewrite sapp_assoc. change (str1 LF ++ rest)%string with (String LF rest).
  rewrite parse_row; reflexivity.
Qed.

Lemma line_starts (x rest : string) :
  exists a t, ((x ++ str1 LF) ++ rest)%string = String a t.
Proof. destruct x as [|a x]; cbn; eauto. Qed.

Lemma read_all_lines (indices : list nat) :
  forall c,
    forallb (forallb Csv.reads_back) (Experiment.trials_rows E cfg c indices) = true ->
    Csv.read_all (List.length indices)
      (Experiment.sconcat (Experiment.trials_lines E cfg c indices)) =
    Some (Experiment.trials_rows E cfg c indices).
Proof.
  induction indices as [|i rest IH]; intros c Hb; [reflexivity|].
  cbn [Experiment.trials_rows forallb] in Hb. apply andb_true_iff in Hb as (Hrow & Hb).
  cbn [Experiment.trials_lines Experiment.sconcat Experiment.trials_rows List.length].
  unfold Experiment.trial_line at 1.
  destruct (line_starts
              (Js.join "," (map (fun k => Csv.esc (Experiment.row_get
                                                      (Experiment.trial_row E i c) k))
                              Experiment.header))
              (Experiment.sconcat
                 (Experiment.trials_lines E cfg (c + Experiment.trial_ns E cfg i) rest)))
    as (a & t & Hat).
  fold (Experiment.make_line (Experiment.trial_row E i c)) in Hat.
  cbn [Csv.read_all]. rewrite Hat. rewrite <- Hat.
  rewrite (read_record_line _ _ Hrow), (IH _ Hb). reflexivity.
Qed.

Lemma trials_rows_length (indices : list nat) :
  forall c, List.length (Experiment.trials_rows E cfg c indices) = List.length indices.
Proof.
  induction indices as [|i rest IH]; intros c; [reflexivity|].
  cbn. now rewrite IH.
Qed.

Lemma trials_rows_width (indices : list nat) :
  forall c,
    Forall (fun r => List.length r = List.length Experiment.header)
      (Experiment.trials_rows E cfg c indices).
Proof.
  induction indices as [|i rest IH]; intros c; constructor.
  - unfold Experiment.row_texts. now rewrite length_map.
  - apply IH.
Qed.

End FileFacts.

(** X1.  The file left by a run that gets past start-up and writes its
    header is a well-formed CSV document, provided no field of a row holds
    a carriage return that [esc] leaves outside quotes: read record by
    record, by a reader for which a carriage return outside quotes ends the
    record, it gives the header and then, for each trial in order, the
    texts of that trial's ten fields, whatever commas, quotes or line feeds
    an error message or a response field contains. *)
Theorem output_file_parses_back :
  forall (E : Experiment.env) (cfg : Experiment.config) (address : string)
         (start : Z) (init : option string),
    Experiment.ready E cfg address ->
    forallb (forallb Csv.reads_back)
      (Experiment.trials_rows E cfg start (seq 1 (Experiment.N cfg))) = true ->
    exists content,
      Experiment.file_after (Experiment.OUT cfg) (fst (Experiment.run E cfg start)) init
      = Some content
      /\ Csv.read_all (S (Experiment.N cfg)) content
         = Some (Experiment.header
                 :: Experiment.trials_rows E cfg start (seq 1 (Experiment.N cfg)))
      /\ List.length (Experiment.trials_rows E cfg start (seq 1 (Experiment.N cfg)))
         = Experiment.N cfg
      /\ Forall (fun r => List.length r = 10%nat)
           (Experiment.trials_rows E cfg start (seq 1 (Experiment.N cfg))).
Proof.
  intros E cfg address start init Hready Hback.
  rewrite (run_closed E cfg address start Hready). cbn [fst].
  rewrite file_after_run. eexists. split; [reflexivity|].
  split; [|split].
  - destruct (line_starts (Js.join "," Experiment.header)
                (Experiment.sconcat
                   (Experiment.trials_lines E cfg start (seq 1 (Experiment.N cfg)))))
      as (a & t & Hat).
    fold Experiment.header_line in Hat.
    cbn [Csv.read_all]. rewrite Hat. rewrite <- Hat.
    rewrite read_record_header.
    pose proof (read_all_lines E cfg (seq 1 (Experiment.N cfg)) start Hback) as H.
    rewrite length_seq in H. now rewrite H.
  - now rewrite trials_rows_length, length_seq.
  - apply (trials_rows_width E cfg).
Qed.

(** X18.  Escaping loses nothing: two values are escaped to the same field
    exactly when they stand for the same text. *)
Theorem esc_is_injective_on_texts :
  forall v w : Js.value, Csv.esc v = Csv.esc w <-> Csv.field_text v = Csv.field_text w.
Proof.
  intros v w. split; intros H.
  - revert H. unfold Csv.esc. fold (Csv.field_text v) (Csv.field_text w).
    set (t := Csv.field_text v). set (u := Csv.field_text w).
    destruct (Js.class_test [dquote; comma; LF] t) eqn:Ht;
      destruct (Js.class_test [dquote; comma; LF] u) eqn:Hu; intros H.
    + rewrite !replaceAll_doubled in H. injection H as H.
      pose proof (parse_quoted_run t EmptyString [] EmptyString) as Pt.
      pose proof (parse_quoted_run u EmptyString [] EmptyString) as Pu.
      change (String dquote EmptyString) with (str1 dquote) in Pt, Pu.
      rewrite H in Pt. rewrite Pt in Pu. cbn in Pu. now injection Pu.
    + rewrite <- H in Hu. cbn in Hu. discriminate.
    + rewrite H in Ht. cbn in Ht. discriminate.
    + exact H.
  - unfold Csv.esc. fold (Csv.field_text v) (Csv.field_text w). now rewrite H.
Qed.

(** ** What a trial records *)

Section OutcomeFacts.
Variable E : Experiment.env.
Variable cfg : Experiment.config.

Lemma err_message_truthy (e : Js.exn) : Js.truthy (Experiment.err_message e) = true.
Proof.
  unfold Experiment.err_message, Experiment.and_then, Js.or_else.
  destruct e as [v|m t]; cbn [Experiment.exn_value Js.exn_message Js.exn_text].
  - destruct (Js.truthy v) eqn:Hv.
    + cbn [Js.truthy]. destruct (negb (Js.is_empty (Js.to_string v))) eqn:Ht;
        cbn [Js.truthy]; now rewrite ?Ht.
    + now rewrite Hv.
  - cbn [Js.truthy]. destruct (Js.truthy m) eqn:Hm.
    + now rewrite Hm.
    + cbn [Js.truthy]. destruct (negb (Js.is_empty t)) eqn:Ht;
        cbn [Js.truthy]; now rewrite ?Ht.
Qed.

Lemma retry_result_succeeded (i a : nat) (r : Sdk.response) :
  In a (Experiment.attempts_made E i [1; 2; 3]%nat) ->
  Experiment.net E i a = inr r ->
  Experiment.trial_result E i = (Some r, Js.Str EmptyString).
Proof.
  intros Ha Hnet. unfold Experiment.trial_result.
  assert (Hs : Experiment.succeeds E i a = true)
    by (unfold Experiment.succeeds; now rewrite Hnet).
  destruct (attempts_made_shape E i) as [(H & H1)|[(H & H1 & H2)|(H & H1 & H2)]];
    rewrite H in Ha; cbn in Ha.
  - destruct Ha as [<-|[]]. cbn. now rewrite Hnet.
  - destruct Ha as [<-|[<-|[]]]; [congruence|].
    unfold Experiment.succeeds in H1. cbn.
    destruct (Experiment.net E i 1); [|discriminate]. now rewrite Hnet.
  - destruct Ha as [<-|[<-|[<-|[]]]]; [congruence|congruence|].
    unfold Experiment.succeeds in H1, H2. cbn.
    destruct (Experiment.net E i 1); [|discriminate].
    destruct (Experiment.net E i 2); [|discriminate]. now rewrite Hnet.
Qed.

Lemma retry_result_exhausted (i : nat) (e1 e2 e3 : Js.exn) :
  Experiment.net E i 1 = inl e1 ->
  Experiment.net E i 2 = inl e2 ->
  Experiment.net E i 3 = inl e3 ->
  Experiment.trial_result E i = (None, Experiment.err_message e3)
  /\ Experiment.attempts_made E i [1; 2; 3]%nat = [1; 2; 3]%nat.
Proof.
  intros H1 H2 H3. unfold Experiment.trial_result. cbn.
  unfold Experiment.succeeds. now rewrite H1, H2, H3.
Qed.





End OutcomeFacts.

(** X2.  When all three attempts of a trial are rejected, the trial still
    appends its one row: the transaction fields are empty, the error field
    holds the message of the third rejection, which is never an empty or
    missing value, and exactly three broadcasts were made. *)
Theorem exhausted_trial_row :
  forall (E : Experiment.env) (cfg : Experiment.config) (i : nat) (c : Z)
         (e1 e2 e3 : Js.exn),
    Experiment.net E i 1 = inl e1 ->
    Experiment.net E i 2 = inl e2 ->
    Experiment.net E i 3 = inl e3 ->
    let evs := Rt.events (Experiment.trial E cfg i c) in
    Rt.outcome (Experiment.trial E cfg i c) = inr tt
    /\ List.length (filter Experiment.is_broadcast evs) = 3%nat
    /\ (exists ms,
          Experiment.appended (Experiment.OUT cfg) evs
          = [Experiment.make_line
               (Experiment.failed_row i (Experiment.make_value (Experiment.wall E c) i)
                  ms e3)])
    /\ Js.truthy (Experiment.err_message e3) = true.
Proof.
  intros E cfg i c e1 e2 e3 H1 H2 H3 evs. subst evs.
  rewrite trial_closed. unfold Rt.events, Rt.outcome. cbn [fst snd].
  destruct (retry_result_exhausted E i e1 e2 e3 H1 H2 H3) as (Hres & Hmade).
  split; [reflexivity|]. split; [|split].
  - unfold Experiment.trial_events, Experiment.retry_events. rewrite Hmade.
    rewrite !filter_app, !length_app, broadcasts_of_attempts.
    unfold Experiment.pause_events.
    destruct (Experiment.SLEEP_MS cfg >? 0); reflexivity.
  - rewrite appended_trial. eexists.
    unfold Experiment.trial_line, Experiment.trial_row. rewrite Hres. reflexivity.
  - apply err_message_truthy.
Qed.

(** X3.  When an attempt of a trial resolves, the row's error field is
    empty whatever the earlier attempts failed with, its [txhash] is the
    response's [txhash], else its [txHash], else empty, and each of the
    other transaction fields is the response's field, empty when the
    response lacks it. *)
Theorem resolved_trial_row :
  forall (E : Experiment.env) (cfg : Experiment.config) (i a : nat) (c : Z)
         (r : Sdk.response),
    In a (Experiment.attempts_made E i [1; 2; 3]%nat) ->
    Experiment.net E i a = inr r ->
    exists ms,
      Experiment.appended (Experiment.OUT cfg) (Rt.events (Experiment.trial E cfg i c))
      = [Experiment.make_line
           (Experiment.success_row i (Experiment.make_value (Experiment.wall E c) i) ms r)]
      /\ Experiment.row_get
           (Experiment.success_row i (Experiment.make_value (Experiment.wall E c) i) ms r)
           "error" = Js.Str EmptyString.
Proof.
  intros E cfg i a c r Ha Hnet.
  rewrite trial_closed. unfold Rt.events. cbn [fst snd].
  rewrite appended_trial. eexists.
  unfold Experiment.trial_line, Experiment.trial_row.
  rewrite (retry_result_succeeded E i a r Ha Hnet). split; reflexivity.
Qed.

(** X4.  Every broadcast of a trial, first attempt or retry, carries the
    same value, built once from the wall clock at the start of the trial,
    and the same memo; its attempt number is 1, 2 or 3; and that value is
    the one written in the trial's row. *)
Theorem retries_resend_the_same_value :
  forall (E : Experiment.env) (cfg : Experiment.config) (i : nat) (c : Z)
         (j a : nat) (v m : string),
    In (Experiment.EvBroadcast j a v m) (Rt.events (Experiment.trial E cfg i c)) ->
    j = i
    /\ (1 <= a <= 3)%nat
    /\ v = Experiment.make_value (Experiment.wall E c) i
    /\ m = ("pi-exp #" ++ Js.dec (Z.of_nat i))%string
    /\ Experiment.row_get (Experiment.trial_row E i c) "value" = Js.Str v
    /\ Experiment.appended (Experiment.OUT cfg) (Rt.events (Experiment.trial E cfg i c))
       = [Experiment.make_line (Experiment.trial_row E i c)].
Proof.
  intros E cfg i c j a v m Hin.
  rewrite trial_closed in Hin |- *. unfold Rt.events in *. cbn [fst snd] in *.
  rewrite appended_trial.
  assert (H : j = i /\ (1 <= a <= 3)%nat
              /\ v = Experiment.make_value (Experiment.wall E c) i
              /\ m = ("pi-exp #" ++ Js.dec (Z.of_nat i))%string).
  { unfold Experiment.trial_events in Hin.
    apply in_app_or in Hin as [Hin|Hin].
    - unfold Experiment.retry_events in Hin.
      apply in_flat_map in Hin as (b & Hb & Hin).
      assert (Hb3 : (1 <= b <= 3)%nat).
      { destruct (attempts_made_shape E i) as [(H & _)|[(H & _)|(H & _)]];
          rewrite H in Hb; cbn in Hb; intuition lia. }
      unfold Experiment.attempt_events in Hin.
      destruct (Experiment.delay_after E i b); cbn in Hin;
        intuition (try discriminate);
        match goal with H : Experiment.EvBroadcast _ _ _ _ = _ |- _ =>
          injection H as <- <- <- <- end; auto.
    - cbn in Hin. destruct Hin as [Hin|[Hin|Hin]]; try discriminate.
      unfold Experiment.pause_events in Hin.
      destruct (Experiment.SLEEP_MS cfg >? 0); cbn in Hin;
        intuition discriminate. }
  destruct H as (-> & Ha & -> & ->). repeat split; try lia; reflexivity.
Qed.



(** ** What the sequence pattern matches *)

Lemma contains_ci_cons (p : string) (a : ascii) (s : string) :
  Js.contains_ci p (String a s)
  = Js.match_prefix true p (String a s) || Js.contains_ci p s.
Proof. reflexivity. Qed.

Lemma contains_ci_skip (p : string) (n : nat) :
  forall s s', Js.skip n s = Some s' ->
               Js.contains_ci p s' = true -> Js.contains_ci p s = true.
Proof.
  induction n as [|n IH]; intros s s' Hs Hc.
  - now injection Hs as ->.
  - destruct s as [|a s]; [discriminate|]. cbn in Hs.
    rewrite contains_ci_cons, (IH s s' Hs Hc). apply orb_true_r.
Qed.

Lemma match_prefix_app (ic : bool) (p1 p2 : string) :
  forall s, Js.match_prefix ic (p1 ++ p2)%string s = true ->
            exists s', Js.skip (String.length p1) s = Some s'
                       /\ Js.match_prefix ic p2 s' = true.
Proof.
  induction p1 as [|a p1 IH]; intros s H.
  - exists s. split; [reflexivity | exact H].
  - destruct s as [|b s]; [discriminate|]. cbn in H.
    apply andb_true_iff in H as (_ & H). apply IH in H as (s' & Hs & Hm).
    exists s'. split; assumption.
Qed.

Lemma contains_ci_of_prefix (p s : string) :
  Js.match_prefix true p s = true -> Js.contains_ci p s = true.
Proof.
  intros H. destruct s as [|a s].
  - cbn. now rewrite H.
  - rewrite contains_ci_cons, H. reflexivity.
Qed.

(** Where ["account sequence"] matches, ["sequence"] matches eight
    characters further on. *)
Lemma account_sequence_is_covered (s : string) :
  Js.match_prefix true "account sequence" s = true ->
  Js.contains_ci "sequence" s = true.
Proof.
  intros H.
  apply (match_prefix_app true "account " "sequence") in H as (s' & Hs & Hm).
  apply (contains_ci_skip "sequence" _ s s' Hs).
  now apply contains_ci_of_prefix.
Qed.

Lemma search_sequence_pattern (s : string) :
  forall pos,
    match Js.search true ["sequence"; "account sequence"; "incorrect"] s pos with
    | Some _ => true
    | None => false
    end
    = Js.contains_ci "sequence" s || Js.contains_ci "incorrect" s.
Proof.
  induction s as [|a s IH]; intros pos; [reflexivity|].
  rewrite !contains_ci_cons.
  pose proof (account_sequence_is_covered (String a s)) as Hcov.
  rewrite contains_ci_cons in Hcov.
  cbn [Js.search Js.match_alts].
  destruct (Js.match_prefix true "sequence" (String a s)) eqn:H1; [reflexivity|].
  destruct (Js.match_prefix true "account sequence" (String a s)) eqn:H2.
  - cbn [orb] in Hcov |- *. now rewrite (Hcov eq_refl).
  - destruct (Js.match_prefix true "incorrect" (String a s)) eqn:H3.
    + cbn [orb]. now rewrite orb_true_r.
    + cbn [orb]. apply IH.
Qed.

(** X7.  A failure is taken for a sequence error exactly when its message
    contains "sequence" or "incorrect", in any mix of upper and lower
    case; the alternative "account sequence" of the pattern never decides
    anything.  In that case the delay after attempt [a] is [1200 * a] ms,
    otherwise [400 * a] ms. *)
Theorem sequence_errors_are_the_messages_with_two_words :
  forall (msg : Js.value) (a : nat),
    Experiment.classify msg
    = (if Js.contains_ci "sequence" (Js.to_string msg)
          || Js.contains_ci "incorrect" (Js.to_string msg)
       then Experiment.TransientSequenceError
       else Experiment.OtherTransientError)
    /\ Experiment.backoff_ms (Experiment.classify msg) a
       = (if Js.contains_ci "sequence" (Js.to_string msg)
             || Js.contains_ci "incorrect" (Js.to_string msg)
          then 1200 * Z.of_nat a else 400 * Z.of_nat a).
Proof.
  intros msg a.
  assert (H : Experiment.classify msg
              = (if Js.contains_ci "sequence" (Js.to_string msg)
                    || Js.contains_ci "incorrect" (Js.to_string msg)
                 then Experiment.TransientSequenceError
                 else Experiment.OtherTransientError)).
  { unfold Experiment.classify, Experiment.classify_with.
    rewrite test_sequence_pattern, <- search_sequence_pattern with (pos := O).
    now destruct (Js.search true ["sequence"; "account sequence"; "incorrect"]
                    (Js.to_string msg) 0). }
  split; [exact H|]. rewrite H.
  now destruct (Js.contains_ci "sequence" (Js.to_string msg)
                || Js.contains_ci "incorrect" (Js.to_string msg)).
Qed.

(** ** Trimming *)

Lemma srev_app (a b : string) : Js.srev (a ++ b)%string = (Js.srev b ++ Js.srev a)%string.
Proof.
  induction a as [|x a IH]; cbn.
  - now rewrite sapp_nil_r.
  - now rewrite IH, sapp_assoc.
Qed.

Lemma srev_involutive (s : string) : Js.srev (Js.srev s) = s.
Proof.
  induction s as [|x s IH]; [reflexivity|].
  cbn. rewrite srev_app, IH. reflexivity.
Qed.

Lemma all_space_app (a b : string) :
  Js.all_space (a ++ b)%string = Js.all_space a && Js.all_space b.
Proof.
  induction a as [|x a IH]; [reflexivity|].
  cbn. now rewrite IH, andb_assoc.
Qed.

Lemma all_space_srev (s : string) : Js.all_space (Js.srev s) = Js.all_space s.
Proof.
  induction s as [|x s IH]; [reflexivity|].
  cbn. rewrite all_space_app, IH. cbn. rewrite andb_true_r. apply andb_comm.
Qed.

Lemma slength_app (a b : string) :
  String.length (a ++ b)%string = (String.length a + String.length b)%nat.
Proof. induction a as [|x a IH]; cbn; [reflexivity | now rewrite IH]. Qed.

Lemma slength_srev (s : string) : String.length (Js.srev s) = String.length s.
Proof.
  induction s as [|x s IH]; [reflexivity|].
  cbn. rewrite slength_app, IH. cbn. lia.
Qed.

Lemma ascii_space_cases (c : ascii) :
  Js.ascii_space c = true ->
  c = ascii_of_nat 9 \/ c = ascii_of_nat 10 \/ c = ascii_of_nat 11
  \/ c = ascii_of_nat 12 \/ c = ascii_of_nat 13 \/ c = ascii_of_nat 32.
Proof.
  unfold Js.ascii_space. intros H.
  rewrite <- (ascii_nat_embedding c).
  apply orb_true_iff in H as [H|H].
  - apply andb_true_iff in H as (H1 & H2).
    apply Nat.leb_le in H1, H2.
    assert (Hn : (nat_of_ascii c = 9 \/ nat_of_ascii c = 10 \/ nat_of_ascii c = 11
                  \/ nat_of_ascii c = 12 \/ nat_of_ascii c = 13)%nat) by lia.
    destruct Hn as [->|[->|[->|[->| ->]]]]; tauto.
  - apply Nat.eqb_eq in H. rewrite H. tauto.
Qed.

Lemma strip_any_empty (ps : list string) (s' : string) :
  Js.strip_any ps EmptyString = Some s' -> s' = EmptyString.
Proof.
  induction ps as [|p ps IH]; [discriminate|].
  cbn. destruct p as [|a p]; cbn; [now intros [= <-] | exact IH].
Qed.

Lemma strip_all_empty (ps : list string) (fuel : nat) :
  Js.strip_all fuel ps EmptyString = EmptyString.
Proof.
  induction fuel as [|fuel IH]; [reflexivity|].
  cbn [Js.strip_all].
  destruct (Js.strip_any ps EmptyString) as [s'|] eqn:H; [|reflexivity].
  apply strip_any_empty in H. now subst s'.
Qed.

Section TrimFacts.
(** The patterns of [trimStart] ([g] the identity) or of [trimEnd] ([g]
    the reversal) *)
Variable g : list nat -> list nat.
Hypothesis g_single : forall n, g [n] = [n].

Let patterns := map (fun l => Js.bytes (g l)) Js.white_space.

Lemma strip_any_space (c : ascii) (s : string) :
  Js.ascii_space c = true -> Js.strip_any patterns (String c s) = Some s.
Proof.
  intros H. subst patterns. unfold Js.white_space. cbn [map].
  rewrite !g_single.
  destruct (ascii_space_cases c H) as [->|[->|[->|[->|[->| ->]]]]]; reflexivity.
Qed.

Lemma strip_any_none (ws : list (list nat)) (a : ascii) (t : string) :
  existsb (fun l => match g l with
                    | b :: _ => Ascii.eqb (ascii_of_nat b) a
                    | [] => true
                    end) ws = false ->
  Js.strip_any (map (fun l => Js.bytes (g l)) ws) (String a t) = None.
Proof.
  induction ws as [|l ws IH]; intros H; [reflexivity|].
  cbn in H. apply orb_false_iff in H as (Hl & Hws).
  cbn [map Js.strip_any]. rewrite (IH Hws).
  destruct (g l) as [|b l']; [discriminate|].
  cbn. now rewrite Hl.
Qed.

Lemma strip_all_spaces (s : string) :
  forall fuel, Js.all_space s = true -> (String.length s <= fuel)%nat ->
               Js.strip_all fuel patterns s = EmptyString.
Proof.
  induction s as [|c s IH]; intros fuel Hs Hf.
  - apply strip_all_empty.
  - cbn in Hs. apply andb_true_iff in Hs as (Hc & Hs).
    destruct fuel as [|fuel]; [cbn in Hf; lia|].
    cbn [Js.strip_all]. rewrite (strip_any_space c s Hc).
    apply IH; [assumption | cbn in Hf; lia].
Qed.

Lemma strip_all_lead (l : string) (a : ascii) (t : string) :
  forall fuel,
    Js.all_space l = true ->
    Js.strip_any patterns (String a t) = None ->
    (String.length l <= fuel)%nat ->
    Js.strip_all fuel patterns (l ++ String a t)%string = String a t.
Proof.
  induction l as [|c l IH]; intros fuel Hl Ha Hf.
  - cbn [String.append]. destruct fuel; [reflexivity|].
    cbn [Js.strip_all]. now rewrite Ha.
  - cbn in Hl. apply andb_true_iff in Hl as (Hc & Hl).
    destruct fuel as [|fuel]; [cbn in Hf; lia|].
    cbn [String.append Js.strip_all]. rewrite (strip_any_space c _ Hc).
    apply IH; [assumption | assumption | cbn in Hf; lia].
Qed.

End TrimFacts.

Lemma trim_spaces (s : string) : Js.all_space s = true -> Js.trim s = EmptyString.
Proof.
  intros H. unfold Js.trim.
  assert (Hs : Js.trimStart s = EmptyString).
  { unfold Js.trimStart.
    apply (strip_all_spaces (fun l => l) (fun n => eq_refl)); [exact H | lia]. }
  rewrite Hs. reflexivity.
Qed.

Lemma trim_padded (l s r : string) :
  Js.all_space l = true -> Js.all_space r = true -> Js.edges_black s = true ->
  Js.trim (l ++ s ++ r)%string = s.
Proof.
  intros Hl Hr Hs. unfold Js.edges_black in Hs.
  apply andb_true_iff in Hs as (Ha & Hz).
  destruct s as [|a t]; [discriminate|].
  destruct (Js.srev (String a t)) as [|z u] eqn:Hrev; [discriminate|].
  apply negb_true_iff in Ha, Hz.
  unfold Js.trim.
  assert (Hstart : Js.trimStart (l ++ String a t ++ r)%string = (String a t ++ r)%string).
  { unfold Js.trimStart. cbn [String.append].
    apply (strip_all_lead (fun l => l) (fun n => eq_refl)).
    - exact Hl.
    - apply (strip_any_none (fun l => l)). exact Ha.
    - rewrite slength_app. lia. }
  rewrite Hstart. unfold Js.trimEnd.
  rewrite srev_app, Hrev.
  rewrite (strip_all_lead (fun l => rev l) (fun n => eq_refl)).
  - rewrite <- Hrev. apply srev_involutive.
  - now rewrite all_space_srev.
  - apply (strip_any_none (fun l => rev l)). exact Hz.
  - rewrite slength_srev, slength_app. lia.
Qed.

(** ** The worker, path by path *)

Section WorkerPaths.
Variable E : Worker.env.
Variable cfg : Worker.config.
Variable stdin : string.
Variable start : Z.

Let contract := Js.env_text (Worker.CONTRACT cfg).
Let mnemonic := Js.env_text (Worker.MNEMONIC cfg).

Lemma readStdin_reads (v m : Js.value) :
  Worker.reads_as E stdin v m ->
  Worker.readStdin E stdin start = (inr (Worker.JsonDoc v m), [], start).
Proof.
  intros (Ht & Hp). unfold Worker.readStdin.
  destruct (Js.trim stdin) as [|a s]; [now destruct Ht|].
  cbn [Js.is_empty]. now rewrite Hp.
Qed.

Lemma worker_run_invalid (v m : Js.value) :
  Worker.configured cfg ->
  Worker.reads_as E stdin v m ->
  Worker.invalid_value v = true ->
  Worker.run E cfg stdin start
  = ([Worker.EvStdout
        (Worker.failure_document (Js.Error "input.value must be non-empty string"))], 1).
Proof.
  intros Hc Hr Hv. unfold Worker.run. rewrite Hc.
  unfold Worker.main_caught, Worker.main.
  unfold Rt.bind at 1. rewrite (readStdin_reads v m Hr).
  unfold Rt.bind at 1. unfold Rt.ret at 1. cbn [fst snd].
  destruct v as [| |b|z|value|t]; try reflexivity.
  cbn in Hv. rewrite Hv. reflexivity.
Qed.

Lemma worker_run_valid (value : string) (m : Js.value) :
  Worker.configured cfg ->
  Worker.reads_as E stdin (Js.Str value) m ->
  Worker.invalid_value (Js.Str value) = false ->
  Worker.run E cfg stdin start
  = match Worker.derive E mnemonic with
    | inl e => ([Worker.EvStdout (Worker.failure_document e)], 1)
    | inr address =>
        let memo := Js.nullish m (Js.Str "set_value from python") in
        match Worker.net E value memo with
        | inl e =>
            ([Worker.EvBroadcast value memo; Worker.EvStdout (Worker.failure_document e)], 1)
        | inr res =>
            ([Worker.EvBroadcast value memo;
              Worker.EvStdout
                (Worker.success_document E contract address value res
                   (Worker.latency E value memo))], 0)
        end
    end.
Proof.
  intros Hc Hr Hv. subst contract mnemonic. unfold Worker.run. rewrite Hc.
  unfold Worker.main_caught, Worker.main.
  unfold Rt.bind at 1. rewrite (readStdin_reads (Js.Str value) m Hr).
  unfold Rt.bind at 1. unfold Rt.ret at 1. cbn [fst snd].
  cbn in Hv. rewrite Hv.
  unfold Rt.bind at 1.
  destruct (Worker.derive E (Js.env_text (Worker.MNEMONIC cfg))) as [e|address];
    [reflexivity|].
  unfold Rt.ret at 1. unfold Rt.bind at 1. unfold Rt.nowNs at 1.
  unfold Rt.bind at 1. unfold Worker.broadcast, Rt.await.
  cbn zeta.
  destruct (Worker.net E value (Js.nullish m (Js.Str "set_value from python")))
    as [e|res]; [reflexivity|].
  unfold Rt.bind, Rt.nowNs, Worker.stdout_write, Rt.emit. cbn [app].
  replace (start + Worker.latency E value
                     (Js.nullish m (Js.Str "set_value from python")) - start)
    with (Worker.latency E value (Js.nullish m (Js.Str "set_value from python")))
    by lia.
  reflexivity.
Qed.

End WorkerPaths.

(** X8.  Whenever its configuration is present the worker writes exactly
    one document, and its exit status agrees with the document: 0 with
    [ok = true], 1 with [ok = false].  Without the configuration it writes
    nothing and exits with status 1.  In no case does it broadcast more
    than once. *)
Theorem worker_answers_once :
  forall (E : Worker.env) (cfg : Worker.config) (stdin : string) (start : Z),
    let r := Worker.run E cfg stdin start in
    (Worker.configured cfg ->
     exists doc,
       Worker.stdout_of (fst r) = [doc]
       /\ (snd r = 0 /\ Worker.get doc "ok" = Js.Bool true
           \/ snd r = 1 /\ Worker.get doc "ok" = Js.Bool false))
    /\ (~ Worker.configured cfg -> Worker.stdout_of (fst r) = [] /\ snd r = 1)
    /\ (List.length (Worker.broadcasts (fst r)) <= 1)%nat.
Proof.
  intros E cfg stdin start r. subst r. unfold Worker.configured.
  destruct (worker_run_cases E cfg stdin start)
    as [(Hc & Hr)|[(Hc & e & Hr)|[(Hc & v & m & e & _ & Hr)|(Hc & v & m & a & res & _ & Hr)]]];
    rewrite Hr; cbn [fst snd Worker.stdout_of Worker.broadcasts List.length].
  - split; [intros H; now destruct (Hc H)|]. split; [now split | lia].
  - split; [intros _; eexists; split; [reflexivity | right; now split]|].
    split; [intros H; now destruct (H Hc) | lia].
  - split; [intros _; eexists; split; [reflexivity | right; now split]|].
    split; [intros H; now destruct (H Hc) | lia].
  - split; [intros _; eexists; split; [reflexivity | left; now split]|].
    split; [intros H; now destruct (H Hc) | lia].
Qed.

(** X9.  A document whose [value] is missing, not a string, or the empty
    string is refused before anything is signed: the worker broadcasts
    nothing, answers [{ok: false}] with the message
    "input.value must be non-empty string", and exits with status 1. *)
Theorem invalid_value_is_refused_before_signing :
  forall (E : Worker.env) (cfg : Worker.config) (stdin : string) (start : Z)
         (v m : Js.value),
    Worker.configured cfg ->
    Worker.reads_as E stdin v m ->
    Worker.invalid_value v = true ->
    Worker.run E cfg stdin start
    = ([Worker.EvStdout
          [ ("ok", Js.Bool false);
            ("error", Js.Str "input.value must be non-empty string") ]], 1)
    /\ Worker.broadcasts (fst (Worker.run E cfg stdin start)) = [].
Proof.
  intros E cfg stdin start v m Hc Hr Hv.
  rewrite (worker_run_invalid E cfg stdin start v m Hc Hr Hv). split; reflexivity.
Qed.

(** X10.  A valid request leads to exactly one broadcast, of the value as
    given, with the given memo, or with "set_value from python" when the
    memo is absent or [null] (an empty memo is kept).  When the broadcast
    resolves, the worker exits with status 0 and its document reports the
    time of that one call, the length of the value and the sender. *)
Theorem valid_request_is_broadcast_once :
  forall (E : Worker.env) (cfg : Worker.config) (stdin : string) (start : Z)
         (value address : string) (m : Js.value) (res : Sdk.response),
    Worker.configured cfg ->
    Worker.reads_as E stdin (Js.Str value) m ->
    Worker.invalid_value (Js.Str value) = false ->
    Worker.derive E (Js.env_text (Worker.MNEMONIC cfg)) = inr address ->
    let memo := match m with
                | Js.Undefined | Js.Null => Js.Str "set_value from python"
                | _ => m
                end in
    Worker.net E value memo = inr res ->
    exists doc,
      Worker.run E cfg stdin start
      = ([Worker.EvBroadcast value memo; Worker.EvStdout doc], 0)
      /\ Worker.get doc "ok" = Js.Bool true
      /\ Worker.get doc "broadcast_ms" = Worker.fixed3 E (Worker.latency E value memo)
      /\ Worker.get doc "value_len" = Js.Num (Js.utf16_length value)
      /\ Worker.get doc "sender" = Js.Str address
      /\ Worker.get doc "contract" = Js.Str (Js.env_text (Worker.CONTRACT cfg)).
Proof.
  intros E cfg stdin start value address m res Hc Hr Hv Hd memo Hnet.
  rewrite (worker_run_valid E cfg stdin start value m Hc Hr Hv), Hd.
  change (Js.nullish m (Js.Str "set_value from python")) with memo.
  cbn zeta. rewrite Hnet. eexists. split; [reflexivity|]. repeat split.
Qed.

(** X11.  A key that does not derive and a broadcast that is rejected are
    both handled failures: the worker answers [{ok: false}] with the
    message of what was thrown and exits with status 1.  It does not
    broadcast at all in the first case, and it broadcasts once, without any
    retry, in the second. *)
Theorem key_and_network_failures_are_reported :
  forall (E : Worker.env) (cfg : Worker.config) (stdin : string) (start : Z)
         (value : string) (m : Js.value),
    Worker.configured cfg ->
    Worker.reads_as E stdin (Js.Str value) m ->
    Worker.invalid_value (Js.Str value) = false ->
    (forall e,
        Worker.derive E (Js.env_text (Worker.MNEMONIC cfg)) = inl e ->
        Worker.run E cfg stdin start
        = ([Worker.EvStdout
              [ ("ok", Js.Bool false);
                ("error", Js.nullish (Js.exn_message e) (Js.Str (Js.exn_text e))) ]], 1))
    /\ (forall address e,
          Worker.derive E (Js.env_text (Worker.MNEMONIC cfg)) = inr address ->
          Worker.net E value (Js.nullish m (Js.Str "set_value from python")) = inl e ->
          Worker.run E cfg stdin start
          = ([Worker.EvBroadcast value (Js.nullish m (Js.Str "set_value from python"));
              Worker.EvStdout
                [ ("ok", Js.Bool false);
                  ("error", Js.nullish (Js.exn_message e) (Js.Str (Js.exn_text e))) ]],
             1)).
Proof.
  intros E cfg stdin start value m Hc Hr Hv. split.
  - intros e Hd. rewrite (worker_run_valid E cfg stdin start value m Hc Hr Hv), Hd.
    reflexivity.
  - intros address e Hd Hnet.
    rewrite (worker_run_valid E cfg stdin start value m Hc Hr Hv), Hd.
    cbn zeta. rewrite Hnet. reflexivity.
Qed.

(** X12.  Input made of blanks only (spaces, tabs, line ends) counts as
    empty: the parser is not consulted and the worker answers
    "stdin is empty (expected JSON)".  Blanks around a request are ignored:
    the run is the same as on the request alone. *)
Theorem blanks_around_the_request_are_ignored :
  forall (E : Worker.env) (cfg : Worker.config) (start : Z),
    (forall stdin,
        Worker.configured cfg ->
        Js.all_space stdin = true ->
        Worker.run E cfg stdin start
        = ([Worker.EvStdout
              [ ("ok", Js.Bool false);
                ("error", Js.Str "stdin is empty (expected JSON)") ]], 1))
    /\ (forall l s r,
          Js.all_space l = true -> Js.all_space r = true -> Js.edges_black s = true ->
          Worker.run E cfg (l ++ s ++ r)%string start = Worker.run E cfg s start).
Proof.
  intros E cfg start. split.
  - intros stdin Hc Hs. unfold Worker.run. rewrite Hc.
    unfold Worker.main_caught, Worker.main, Worker.readStdin.
    unfold Rt.bind at 1. rewrite (trim_spaces stdin Hs). reflexivity.
  - intros l s r Hl Hr Hs.
    assert (H1 : Js.trim (l ++ s ++ r)%string = s) by now apply trim_padded.
    assert (H2 : Js.trim s = s).
    { pose proof (trim_padded EmptyString s EmptyString eq_refl eq_refl Hs) as H.
      cbn [String.append] in H. now rewrite sapp_nil_r in H. }
    unfold Worker.run, Worker.main_caught, Worker.main, Worker.readStdin.
    now rewrite H1, H2.
Qed.

(** ** The execute script as a whole *)

Section ExecuteFacts.
Variable E : Execute.env.
Variable newValue : string.

Lemma polls_until_throw (l : list nat) (k : nat) (rest : list nat) (e : Js.exn) :
  (forall i, In i l -> Execute.misses E newValue i) ->
  Execute.throws E k e ->
  Execute.polls_made E newValue (l ++ k :: rest) = l ++ [k]
  /\ Execute.poll_result E newValue (l ++ k :: rest) = inl e.
Proof.
  unfold Execute.throws. intros Hl Hq.
  induction l as [|i l IH].
  - cbn. unfold Execute.stops. rewrite Hq. now split.
  - destruct (misses_test E newValue i (Hl i (or_introl eq_refl))) as (w & Hqi & Hmi).
    destruct IH as (IH1 & IH2); [intros j Hj; apply Hl; now right|].
    cbn. unfold Execute.stops. rewrite Hqi, Hmi, IH1, IH2. now split.
Qed.

Lemma poll_closed (c : Z) :
  Execute.poll E newValue c =
  (Execute.poll_result E newValue (seq 0 45),
   flat_map (Execute.poll_step_events E newValue)
     (Execute.polls_made E newValue (seq 0 45)),
   c + Execute.total
         (map (Execute.poll_step_ns E newValue)
            (Execute.polls_made E newValue (seq 0 45)))).
Proof. unfold Execute.poll. now rewrite poll_from_closed. Qed.

Lemma execute_main_closed (contract mnemonic address : string) (c : Z) :
  Execute.derive E mnemonic = inr address ->
  Execute.main E contract mnemonic newValue c =
  match Execute.net E with
  | inl e =>
      (inl e,
       Execute.banner contract address newValue
       ++ [Execute.EvBroadcast newValue "set_value from raspberry pi"],
       c + Execute.latency E)
  | inr r =>
      let polled := Execute.poll E newValue (c + Execute.latency E) in
      (match Rt.outcome polled with
       | inl e => inl e
       | inr _ => inr tt
       end,
       Execute.banner contract address newValue
       ++ Execute.EvBroadcast newValue "set_value from raspberry pi"
          :: Execute.EvLog ("txHash: " ++ Sdk.r_text r)
          :: Rt.events polled
       ++ match Rt.outcome polled with
          | inr Execute.NotConfirmed =>
              [Execute.EvLog "Not confirmed yet. Run: node query.js"]
          | _ => []
          end,
       Rt.clock polled)
  end.
Proof.
  intros Hd. unfold Execute.main. rewrite Hd.
  unfold Rt.bind at 1. unfold Rt.ret at 1.
  unfold Execute.console_log, Rt.emit.
  unfold Rt.bind at 1. unfold Rt.bind at 1. unfold Rt.bind at 1.
  unfold Rt.bind at 1. unfold Rt.await.
  destruct (Execute.net E) as [e|r]; [reflexivity|].
  cbn zeta. unfold Rt.bind at 1. unfold Rt.bind at 1.
  unfold Rt.outcome, Rt.events, Rt.clock.
  destruct (Execute.poll E newValue (c + Execute.latency E)) as [[[e|v] evs] c'];
    cbn [fst snd].
  - unfold Execute.banner. cbn [app]. now rewrite app_nil_r.
  - destruct v; unfold Rt.ret, Execute.banner; cbn [app]; rewrite ?app_nil_r; reflexivity.
Qed.

End ExecuteFacts.

Lemma execute_run_closed (E : Execute.env) (cfg : Execute.config) (start : Z)
      (address : string) :
  Execute.configured cfg ->
  Execute.derive E (Js.env_text (Execute.MNEMONIC cfg)) = inr address ->
  Execute.run E cfg start =
  match Execute.main E (Js.env_text (Execute.CONTRACT cfg))
          (Js.env_text (Execute.MNEMONIC cfg)) (Execute.new_value E start) start with
  | (inr _, evs, _) => (evs, 0)
  | (inl e, evs, _) => (evs ++ [Execute.EvError (Js.exn_text e)], 1)
  end.
Proof. intros Hc Hd. unfold Execute.run. now rewrite Hc. Qed.

(** X13.  When the broadcast is rejected the script never polls: it prints
    its three opening lines, makes the one broadcast, reports the error and
    exits with status 1. *)
Theorem rejected_broadcast_is_not_polled :
  forall (E : Execute.env) (cfg : Execute.config) (start : Z) (address : string)
         (e : Js.exn),
    Execute.configured cfg ->
    Execute.derive E (Js.env_text (Execute.MNEMONIC cfg)) = inr address ->
    Execute.net E = inl e ->
    Execute.run E cfg start
    = (Execute.banner (Js.env_text (Execute.CONTRACT cfg)) address
         (Execute.new_value E start)
       ++ [ Execute.EvBroadcast (Execute.new_value E start) "set_value from raspberry pi";
            Execute.EvError (Js.exn_text e) ], 1)
    /\ filter Execute.is_query (fst (Execute.run E cfg start)) = [].
Proof.
  intros E cfg start address e Hc Hd Hnet.
  rewrite (execute_run_closed E cfg start address Hc Hd).
  rewrite (execute_main_closed E _ _ _ address start Hd), Hnet.
  split; reflexivity.
Qed.

(** X14.  A query that throws ends the script: after [k] answers that
    differ from the new value, a failing query number [k + 1] makes the
    script report the error and exit with status 1, having made [k + 1]
    queries and without printing a verdict. *)
Theorem failing_query_ends_the_script :
  forall (E : Execute.env) (cfg : Execute.config) (start : Z) (address : string)
         (r : Sdk.response) (k : nat) (e : Js.exn),
    Execute.configured cfg ->
    Execute.derive E (Js.env_text (Execute.MNEMONIC cfg)) = inr address ->
    Execute.net E = inr r ->
    (k < 45)%nat ->
    (forall i, (i < k)%nat -> Execute.misses E (Execute.new_value E start) i) ->
    Execute.throws E k e ->
    Execute.run E cfg start
    = (Execute.banner (Js.env_text (Execute.CONTRACT cfg)) address
         (Execute.new_value E start)
       ++ Execute.EvBroadcast (Execute.new_value E start) "set_value from raspberry pi"
          :: Execute.EvLog ("txHash: " ++ Sdk.r_text r)
          :: flat_map (Execute.poll_step_events E (Execute.new_value E start))
               (seq 0 (S k))
       ++ [Execute.EvError (Js.exn_text e)], 1)
    /\ List.length (filter Execute.is_query (fst (Execute.run E cfg start))) = S k.
Proof.
  intros E cfg start address r k e Hc Hd Hnet Hk Hmiss Hthrow.
  set (nv := Execute.new_value E start) in *.
  assert (Hrun : Execute.run E cfg start
                 = (Execute.banner (Js.env_text (Execute.CONTRACT cfg)) address nv
                    ++ Execute.EvBroadcast nv "set_value from raspberry pi"
                       :: Execute.EvLog ("txHash: " ++ Sdk.r_text r)
                       :: flat_map (Execute.poll_step_events E nv) (seq 0 (S k))
                    ++ [Execute.EvError (Js.exn_text e)], 1)).
  { rewrite (execute_run_closed E cfg start address Hc Hd). fold nv.
    rewrite (execute_main_closed E nv _ _ address start Hd), Hnet. cbn zeta.
    rewrite poll_closed. unfold Rt.outcome, Rt.events, Rt.clock. cbn [fst snd].
    replace 45%nat with (k + S (44 - k))%nat by lia.
    rewrite seq_app. cbn [seq Nat.add].
    destruct (polls_until_throw E nv (seq 0 k) k (seq (S k) (44 - k)) e) as (H1 & H2).
    { intros i Hi. apply in_seq in Hi. apply Hmiss. lia. }
    { exact Hthrow. }
    rewrite H1, H2.
    replace (seq 0 k ++ [k]) with (seq 0 (S k)) by (now rewrite seq_S).
    rewrite app_nil_r. unfold Execute.banner. cbn [app].
    reflexivity. }
  rewrite Hrun. split; [reflexivity|]. cbn [fst].
  unfold Execute.banner. cbn [app filter Execute.is_query].
  rewrite filter_app, length_app, queries_of_polls, length_seq. cbn. lia.
Qed.

(** X15.  When the broadcast resolves and no query throws, the script
    exits with status 0 whether or not the value was confirmed; it
    broadcasts once, before any query, polls for the very value it
    broadcast, and prints the closing hint only when the value was not
    confirmed. *)
Theorem unconfirmed_is_not_an_error :
  forall (E : Execute.env) (cfg : Execute.config) (start : Z) (address : string)
         (r : Sdk.response) (v : Execute.verdict),
    Execute.configured cfg ->
    Execute.derive E (Js.env_text (Execute.MNEMONIC cfg)) = inr address ->
    Execute.net E = inr r ->
    let nv := Execute.new_value E start in
    let polled := Execute.poll E nv (start + Execute.latency E) in
    Rt.outcome polled = inr v ->
    Execute.run E cfg start
    = (Execute.banner (Js.env_text (Execute.CONTRACT cfg)) address nv
       ++ Execute.EvBroadcast nv "set_value from raspberry pi"
          :: Execute.EvLog ("txHash: " ++ Sdk.r_text r)
          :: Rt.events polled
       ++ match v with
          | Execute.NotConfirmed => [Execute.EvLog "Not confirmed yet. Run: node query.js"]
          | Execute.Confirmed => []
          end, 0)
    /\ filter Execute.is_broadcast (fst (Execute.run E cfg start))
       = [Execute.EvBroadcast nv "set_value from raspberry pi"].
Proof.
  intros E cfg start address r v Hc Hd Hnet nv polled Hv.
  assert (Hrun : Execute.run E cfg start
                 = (Execute.banner (Js.env_text (Execute.CONTRACT cfg)) address nv
                    ++ Execute.EvBroadcast nv "set_value from raspberry pi"
                       :: Execute.EvLog ("txHash: " ++ Sdk.r_text r)
                       :: Rt.events polled
                    ++ match v with
                       | Execute.NotConfirmed =>
                           [Execute.EvLog "Not confirmed yet. Run: node query.js"]
                       | Execute.Confirmed => []
                       end, 0)).
  { rewrite (execute_run_closed E cfg start address Hc Hd). fold nv.
    rewrite (execute_main_closed E nv _ _ address start Hd), Hnet. cbn zeta.
    fold polled. rewrite Hv. now destruct v. }
  rewrite Hrun. split; [reflexivity|]. cbn [fst].
  unfold Execute.banner. cbn [app filter Execute.is_broadcast].
  rewrite filter_app.
  assert (Hp : filter Execute.is_broadcast (Rt.events polled) = []).
  { subst polled. rewrite poll_closed. unfold Rt.events. cbn [fst snd].
    pose proof (polls_are_reads E nv (Execute.polls_made E nv (seq 0 45))) as H.
    induction (flat_map (Execute.poll_step_events E nv)
                 (Execute.polls_made E nv (seq 0 45))) as [|x l IH]; [reflexivity|].
    cbn in H |- *. apply andb_true_iff in H as (Hx & Hl).
    apply andb_true_iff in Hx as (Hx & _).
    apply negb_true_iff in Hx. rewrite Hx. now apply IH. }
  rewrite Hp. now destruct v.
Qed.

(** X16.  When all 45 answers differ from the new value, the loop has
    slept 45 times, once after the last query too: the time it took is
    the time of the 45 queries plus 45 sleeps of 2000 ms. *)
Theorem exhausted_poll_takes_45_sleeps :
  forall (E : Execute.env) (newValue : string) (c : Z),
    (forall i, (i < 45)%nat -> Execute.misses E newValue i) ->
    Rt.clock (Execute.poll E newValue c)
    = c + Execute.total (map (Execute.query_ns E) (seq 0 45))
      + 45 * Execute.sleep_ns E 2000.
Proof.
  intros E newValue c Hmiss.
  rewrite poll_closed. unfold Rt.clock. cbn [snd].
  destruct (polls_all_miss E newValue (seq 0 45)) as (H1 & _).
  { intros i Hi. apply in_seq in Hi. apply Hmiss. lia. }
  rewrite H1.
  assert (H : forall l,
             (forall i, In i l -> Execute.misses E newValue i) ->
             Execute.total (map (Execute.poll_step_ns E newValue) l)
             = Execute.total (map (Execute.query_ns E) l)
               + Z.of_nat (List.length l) * Execute.sleep_ns E 2000).
  { induction l as [|i l IH]; intros Hl; [reflexivity|].
    cbn [map Execute.total List.length].
    rewrite IH by (intros j Hj; apply Hl; now right).
    destruct (misses_test E newValue i (Hl i (or_introl eq_refl))) as (w & Hq & Hm).
    unfold Execute.poll_step_ns, Execute.stops. rewrite Hq, Hm. lia. }
  rewrite H.
  - rewrite length_seq. lia.
  - intros i Hi. apply in_seq in Hi. apply Hmiss. lia.
Qed.

(** ** The connectivity check *)

(** Where an event sits in a trace given event by event. *)
Ltac locate_event H :=
  match type of H with
  | _ = (?pre ++ _ :: _)%list =>
      let x := fresh "x" in
      let pre' := fresh "pre" in
      destruct pre as [|x pre']; cbn [app] in H;
      [ try discriminate H;
        try (injection H as H; discriminate H)
      | try discriminate H;
        injection H as <- H; locate_event H ]
  end.

(** X17.  The check exits with status 0 exactly when both variables are
    set, the connection is made and both requests are answered, and its
    trace is then: connect, the [ping] request, the line with its answer,
    the [get_value] request, the line with its answer.  Whenever
    [get_value] is sent, what came before it is exactly the connection,
    the [ping] request to the same contract and the printed answer to it;
    and nothing else is ever sent to the contract. *)
Theorem connectivity_check_is_ping_then_get_value :
  forall (E : Query.env) (cfg : Query.config) (start : Z),
    let r := Query.run E cfg start in
    let rpc := Js.env_text (Query.RPC cfg) in
    let contract := Js.env_text (Query.CONTRACT cfg) in
    (snd r = 0 <-> Query.healthy E cfg)
    /\ (snd r = 0 \/ snd r = 1)
    /\ (Query.queries (fst r) = []
        \/ Query.queries (fst r) = [Query.Ping]
        \/ Query.queries (fst r) = [Query.Ping; Query.GetValue])
    /\ (In Query.GetValue (Query.queries (fst r)) ->
        exists p, Query.answer E Query.Ping = inr p
                  /\ In (Query.EvLog ("PING: " ++ p)) (fst r))
    /\ (forall pre post c,
          fst r = (pre ++ Query.EvQuery c Query.GetValue :: post)%list ->
          c = contract
          /\ exists p,
               Query.answer E Query.Ping = inr p
               /\ pre = [Query.EvConnect rpc; Query.EvQuery contract Query.Ping;
                         Query.EvLog ("PING: " ++ p)])
    /\ (snd r = 0 ->
        exists p v,
          Query.answer E Query.Ping = inr p
          /\ Query.answer E Query.GetValue = inr v
          /\ fst r = [Query.EvConnect rpc; Query.EvQuery contract Query.Ping;
                      Query.EvLog ("PING: " ++ p);
                      Query.EvQuery contract Query.GetValue;
                      Query.EvLog ("GET_VALUE: " ++ v)]).
Proof.
  intros E cfg start r rpc contract. subst r rpc contract.
  unfold Query.healthy, Query.run.
  destruct (Js.env_missing (Query.RPC cfg) || Js.env_missing (Query.CONTRACT cfg)).
  { cbn. split; [split; [discriminate | now intros (H & _)]|].
    split; [now right|]. split; [now left|]. split; [now intros []|].
    split; [|discriminate].
    intros pre post c H. locate_event H. }
  unfold Query.main, Query.queryContractSmart, Query.console_log.
  unfold Rt.bind, Rt.await, Rt.emit.
  destruct (Query.connect E (Js.env_text (Query.RPC cfg))) as [e|u].
  { cbn. split; [split; [discriminate | now intros (_ & (u & H) & _)]|].
    split; [now right|]. split; [now left|]. split; [now intros []|].
    split; [|discriminate].
    intros pre post c H. locate_event H. }
  destruct (Query.answer E Query.Ping) as [e|p].
  { cbn. split; [split; [discriminate | now intros (_ & _ & (p & H) & _)]|].
    split; [now right|]. split; [right; now left|]. split; [now intros [|[]]|].
    split; [|discriminate].
    intros pre post c H. locate_event H. }
  destruct (Query.answer E Query.GetValue) as [e|v].
  { cbn. split; [split; [discriminate | now intros (_ & _ & _ & (v & H))]|].
    split; [now right|]. split; [right; now right|].
    split; [intros _; exists p; split; [reflexivity|]; right; right; now left|].
    split; [|discriminate].
    intros pre post c H. locate_event H.
    injection H as <- _. split; [reflexivity|]. now exists p. }
  cbn. split; [split; [intros _; repeat split; eauto | reflexivity]|].
  split; [now left|]. split; [right; now right|].
  split; [intros _; exists p; split; [reflexivity|]; right; right; now left|].
  split.
  - intros pre post c H. locate_event H.
    injection H as <- _. split; [reflexivity|]. now exists p.
  - intros _. now exists p, v.
Qed.

(** ** The further properties at concrete inputs *)

Lemma output_file_parses_back_witness :
  Experiment.ready (Experiment.sample_env Experiment.always_timeout)
    (Experiment.sample_config 2) "inj1sample"
  /\ List.length
       (Experiment.trials_rows (Experiment.sample_env Experiment.always_timeout)
          (Experiment.sample_config 2) 0 [1; 2]%nat) = 2%nat.
Proof.
  assert (H : Experiment.ready (Experiment.sample_env Experiment.always_timeout)
                (Experiment.sample_config 2) "inj1sample")
    by (repeat split; reflexivity).
  split; [exact H|].
  destruct (output_file_parses_back (Experiment.sample_env Experiment.always_timeout)
              (Experiment.sample_config 2) "inj1sample" 0 None H eq_refl)
    as (content & _ & _ & Hlen & _).
  exact Hlen.
Defined.

Lemma exhausted_trial_row_witness :
  Experiment.net (Experiment.sample_env Experiment.always_timeout) 1 3
  = inl (Js.Error "timeout")
  /\ Js.truthy (Experiment.err_message (Js.Error "timeout")) = true.
Proof.
  assert (H : forall a, Experiment.net (Experiment.sample_env Experiment.always_timeout) 1 a
                        = inl (Js.Error "timeout")) by reflexivity.
  split; [apply H|].
  exact (proj2 (proj2 (proj2 (exhausted_trial_row
                                (Experiment.sample_env Experiment.always_timeout)
                                (Experiment.sample_config 1) 1 0
                                (Js.Error "timeout") (Js.Error "timeout")
                                (Js.Error "timeout") (H 1%nat) (H 2%nat) (H 3%nat))))).
Defined.

Lemma resolved_trial_row_witness :
  In 3%nat (Experiment.attempts_made
              (Experiment.sample_env Experiment.third_time_lucky) 1 [1; 2; 3]%nat)
  /\ Experiment.net (Experiment.sample_env Experiment.third_time_lucky) 1 3
     = inr Experiment.sample_response
  /\ exists line,
       Experiment.appended "timings.csv"
         (Rt.events (Experiment.trial (Experiment.sample_env Experiment.third_time_lucky)
                       (Experiment.sample_config 1) 1 0)) = [line].
Proof.
  assert (Hin : In 3%nat (Experiment.attempts_made
                            (Experiment.sample_env Experiment.third_time_lucky) 1
                            [1; 2; 3]%nat)) by (right; right; left; reflexivity).
  assert (Hnet : Experiment.net (Experiment.sample_env Experiment.third_time_lucky) 1 3
                 = inr Experiment.sample_response) by reflexivity.
  split; [exact Hin|]. split; [exact Hnet|].
  destruct (resolved_trial_row (Experiment.sample_env Experiment.third_time_lucky)
              (Experiment.sample_config 1) 1 3 0 Experiment.sample_response Hin Hnet)
    as (ms & Happ & _).
  eexists. exact Happ.
Defined.

Lemma retries_resend_the_same_value_witness :
  In (Experiment.EvBroadcast 1 2 "pi-exp-1700000000000-1" "pi-exp #1")
    (Rt.events (Experiment.trial (Experiment.sample_env Experiment.third_time_lucky)
                  (Experiment.sample_config 1) 1 0))
  /\ (1 <= 2 <= 3)%nat.
Proof.
  assert (Hin : In (Experiment.EvBroadcast 1 2 "pi-exp-1700000000000-1" "pi-exp #1")
                  (Rt.events (Experiment.trial
                                (Experiment.sample_env Experiment.third_time_lucky)
                                (Experiment.sample_config 1) 1 0)))
    by (right; right; left; reflexivity).
  split; [exact Hin|].
  exact (proj1 (proj2 (retries_resend_the_same_value
                         (Experiment.sample_env Experiment.third_time_lucky)
                         (Experiment.sample_config 1) 1 0 1 2
                         "pi-exp-1700000000000-1" "pi-exp #1" Hin))).
Defined.


Lemma invalid_value_is_refused_before_signing_witness :
  let E := Worker.env_of (inr (Worker.JsonDoc (Js.Num 7) Js.Undefined))
             (inr "inj1sample") (inr Worker.hashless_response) in
  Worker.configured Worker.sample_config
  /\ Worker.reads_as E "{}" (Js.Num 7) Js.Undefined
  /\ Worker.invalid_value (Js.Num 7) = true
  /\ Worker.broadcasts (fst (Worker.run E Worker.sample_config "{}" 0)) = [].
Proof.
  intros E.
  assert (Hc : Worker.configured Worker.sample_config) by reflexivity.
  assert (Hr : Worker.reads_as E "{}" (Js.Num 7) Js.Undefined)
    by (split; [discriminate | reflexivity]).
  assert (Hv : Worker.invalid_value (Js.Num 7) = true) by reflexivity.
  split; [exact Hc|]. split; [exact Hr|]. split; [exact Hv|].
  exact (proj2 (invalid_value_is_refused_before_signing E Worker.sample_config "{}" 0
                  (Js.Num 7) Js.Undefined Hc Hr Hv)).
Defined.

Lemma valid_request_is_broadcast_once_witness :
  let E := Worker.env_of (inr (Worker.JsonDoc (Js.Str "v1") Js.Null))
             (inr "inj1sample") (inr Experiment.sample_response) in
  Worker.configured Worker.sample_config
  /\ Worker.reads_as E "{}" (Js.Str "v1") Js.Null
  /\ exists doc,
       Worker.run E Worker.sample_config "{}" 0
       = ([Worker.EvBroadcast "v1" (Js.Str "set_value from python");
           Worker.EvStdout doc], 0).
Proof.
  intros E.
  assert (Hc : Worker.configured Worker.sample_config) by reflexivity.
  assert (Hr : Worker.reads_as E "{}" (Js.Str "v1") Js.Null)
    by (split; [discriminate | reflexivity]).
  split; [exact Hc|]. split; [exact Hr|].
  destruct (valid_request_is_broadcast_once E Worker.sample_config "{}" 0
              "v1" "inj1sample" Js.Null Experiment.sample_response
              Hc Hr eq_refl eq_refl eq_refl) as (doc & Hrun & _).
  exists doc. exact Hrun.
Defined.

Lemma key_and_network_failures_are_reported_witness :
  let E := Worker.env_of (inr (Worker.JsonDoc (Js.Str "v1") Js.Null))
             (inr "inj1sample") (inl (Js.Error "timeout")) in
  Worker.configured Worker.sample_config
  /\ Worker.reads_as E "{}" (Js.Str "v1") Js.Null
  /\ Worker.run E Worker.sample_config "{}" 0
     = ([Worker.EvBroadcast "v1" (Js.Str "set_value from python");
         Worker.EvStdout [("ok", Js.Bool false); ("error", Js.Str "timeout")]], 1).
Proof.
  intros E.
  assert (Hc : Worker.configured Worker.sample_config) by reflexivity.
  assert (Hr : Worker.reads_as E "{}" (Js.Str "v1") Js.Null)
    by (split; [discriminate | reflexivity]).
  split; [exact Hc|]. split; [exact Hr|].
  exact (proj2 (key_and_network_failures_are_reported E Worker.sample_config "{}" 0
                  "v1" Js.Null Hc Hr eq_refl)
           "inj1sample" (Js.Error "timeout") eq_refl eq_refl).
Defined.

Lemma rejected_broadcast_is_not_polled_witness :
  let E := Execute.env_of (inl (Js.Error "timeout")) Execute.fails_at_third in
  Execute.configured Execute.sample_config
  /\ filter Execute.is_query (fst (Execute.run E Execute.sample_config 0)) = [].
Proof.
  intros E.
  assert (Hc : Execute.configured Execute.sample_config) by reflexivity.
  split; [exact Hc|].
  exact (proj2 (rejected_broadcast_is_not_polled E Execute.sample_config 0 "inj1sample"
                  (Js.Error "timeout") Hc eq_refl eq_refl)).
Defined.

Lemma failing_query_ends_the_script_witness :
  let E := Execute.env_of (inr Experiment.sample_response) Execute.fails_at_third in
  Execute.configured Execute.sample_config
  /\ Execute.throws E 2 (Js.Error "fetch failed")
  /\ List.length (filter Execute.is_query (fst (Execute.run E Execute.sample_config 0)))
     = 3%nat.
Proof.
  intros E.
  assert (Hc : Execute.configured Execute.sample_config) by reflexivity.
  assert (Ht : Execute.throws E 2 (Js.Error "fetch failed")) by reflexivity.
  assert (Hm : forall i, (i < 2)%nat ->
                         Execute.misses E (Execute.new_value E 0) i).
  { intros [|[|i]] Hi;
      [eexists; split; [reflexivity | intros H; vm_compute in H; discriminate H]
      |eexists; split; [reflexivity | intros H; vm_compute in H; discriminate H]
      |lia]. }
  assert (Hk : (2 < 45)%nat) by lia.
  split; [exact Hc|]. split; [exact Ht|].
  exact (proj2 (failing_query_ends_the_script E Execute.sample_config 0 "inj1sample"
                  Experiment.sample_response 2 (Js.Error "fetch failed")
                  Hc eq_refl eq_refl Hk Hm Ht)).
Defined.

Lemma unconfirmed_is_not_an_error_witness :
  let E := Execute.sample_env Execute.never_there in
  Execute.configured Execute.sample_config
  /\ Rt.outcome (Execute.poll E (Execute.new_value E 0) (0 + Execute.latency E))
     = inr Execute.NotConfirmed
  /\ snd (Execute.run E Execute.sample_config 0) = 0.
Proof.
  intros E.
  assert (Hc : Execute.configured Execute.sample_config) by reflexivity.
  assert (Hv : Rt.outcome (Execute.poll E (Execute.new_value E 0) (0 + Execute.latency E))
               = inr Execute.NotConfirmed) by reflexivity.
  split; [exact Hc|]. split; [exact Hv|].
  rewrite (proj1 (unconfirmed_is_not_an_error E Execute.sample_config 0 "inj1sample"
                    _ Execute.NotConfirmed Hc eq_refl eq_refl Hv)).
  reflexivity.
Defined.

Lemma exhausted_poll_takes_45_sleeps_witness :
  (forall i, (i < 45)%nat ->
             Execute.misses (Execute.sample_env Execute.never_there) "new" i)
  /\ Rt.clock (Execute.poll (Execute.sample_env Execute.never_there) "new" 0)
     = 0 + Execute.total (map (fun _ => 150000000) (seq 0 45)) + 45 * (2000 * 1000000).
Proof.
  assert (Hm : forall i, (i < 45)%nat ->
                         Execute.misses (Execute.sample_env Execute.never_there) "new" i)
    by (intros i _; eexists; split; [reflexivity | discriminate]).
  split; [exact Hm|].
  exact (exhausted_poll_takes_45_sleeps (Execute.sample_env Execute.never_there) "new" 0 Hm).
Defined.
